(** * Neural networks with PyTorch (Part 2, exercises notebook)

    A shallow embedding of the code cells of
    [intro-to-pytorch/Part 2 - Neural Networks in PyTorch (Exercises).ipynb]
    and of the tensor operations they call, in exact real arithmetic.

    Tensors are modelled the way the framework stores them: a list of sizes
    and a contiguous row-major storage.  Every framework call that can raise
    returns a [result]; the notebook's own functions are written in the
    error monad exactly as the cells sequence the calls.

    Cells are numbered by their position in the notebook file, from 0 and
    counting the text cells: cell 9 is the forward pass with matrix products,
    cell 11 defines [softmax], cells 14, 18 and 21 define the classes
    [Network], [Network] again and [Net], cells 25 and 26 initialise [fc1],
    cells 28 and 30 push an image through a model. *)

From Stdlib Require Import String.
From Stdlib Require Import Reals Lra Lia List Arith ZArith Bool.
Import ListNotations.

(** ** Exceptions raised by the framework and the interpreter *)

Inductive py_error : Type :=
| DimOutOfRange      (* IndexError: Dimension out of range *)
| IndexOutOfRange    (* IndexError: index out of range / too many indices *)
| InvalidShape       (* RuntimeError: shape is invalid for input of size *)
| BroadcastMismatch  (* RuntimeError: The size of tensor a must match ... *)
| SizeMismatch       (* RuntimeError: size mismatch in a matrix product *)
| NotAMatrix         (* RuntimeError: matrices expected *)
| NameError          (* NameError: name is not defined *)
| TypeError          (* TypeError: the value has not the expected type *)
| AttributeError.    (* AttributeError: object has no such attribute *)

Inductive result (A : Type) : Type :=
| Ok (a : A)
| Err (e : py_error).

Arguments Ok {A} a.
Arguments Err {A} e.

Definition bind {A B : Type} (m : result A) (k : A -> result B) : result B :=
  match m with
  | Ok a => k a
  | Err e => Err e
  end.

Notation "x <- m ;; k" := (bind m (fun x => k))
  (at level 61, m at next level, right associativity).

(** ** Tensors *)

Record tensor : Type := mkT { shape : list nat; data : list R }.

Definition numel (sh : list nat) : nat := fold_right Nat.mul 1 sh.

Definition wf (t : tensor) : Prop := length (data t) = numel (shape t).

(** Reading the storage at a flat position. *)
Definition at_ (t : tensor) (p : nat) : R := nth p (data t) 0%R.

(** Row-major position of a multi-index. *)
Fixpoint offset (sh idx : list nat) : nat :=
  match sh, idx with
  | _ :: sh', i :: idx' => i * numel sh' + offset sh' idx'
  | _, _ => 0
  end.

Definition get (t : tensor) (idx : list nat) : R := at_ t (offset (shape t) idx).

(** Multi-index of a flat position. *)
Fixpoint unravel (sh : list nat) (p : nat) : list nat :=
  match sh with
  | [] => []
  | _ :: sh' => p / numel sh' :: unravel sh' (p mod numel sh')
  end.

Definition tabulate (n : nat) (f : nat -> R) : list R := map f (seq 0 n).

(** Finite sum [f 0 + ... + f (n-1)]. *)
Definition Rsum (n : nat) (f : nat -> R) : R :=
  fold_right Rplus 0%R (map f (seq 0 n)).

(** ** Framework operations *)

Definition pointwise (f : R -> R) (t : tensor) : tensor :=
  mkT (shape t) (map f (data t)).

Definition sigmoid_fn (v : R) : R := (1 / (1 + exp (- v)))%R.
Definition relu_fn (v : R) : R := Rmax 0 v.

Definition torch_exp : tensor -> tensor := pointwise exp.
Definition torch_tanh : tensor -> tensor := pointwise tanh.
Definition torch_sigmoid : tensor -> tensor := pointwise sigmoid_fn.
Definition torch_relu : tensor -> tensor := pointwise relu_fn.

(** [t.sum(dim=d)]: the dimension [d] is reduced; a dimension that the tensor
    does not have raises. *)
Definition tsum (t : tensor) (dim : nat) : result tensor :=
  if dim <? length (shape t) then
    let d := nth dim (shape t) 0 in
    let inner := numel (skipn (S dim) (shape t)) in
    let outsh := firstn dim (shape t) ++ skipn (S dim) (shape t) in
    Ok (mkT outsh
          (tabulate (numel outsh)
             (fun p => Rsum d (fun c =>
                at_ t ((p / inner) * (d * inner) + c * inner + p mod inner)))))
  else if (length (shape t) =? 0) && (dim =? 0) then Ok t
  else Err DimOutOfRange.

(** [t.view(sizes)]: at most one size may be -1 and is then inferred. *)
Definition count_inferred (sizes : list Z) : nat :=
  length (filter (fun z => (z =? -1)%Z) sizes).

Definition known_numel (sizes : list Z) : nat :=
  numel (map Z.to_nat (filter (fun z => negb (z =? -1)%Z) sizes)).

Definition infer_size (sizes : list Z) (n : nat) : result (list nat) :=
  if existsb (fun z => (z <? -1)%Z) sizes then Err InvalidShape
  else
    let p := known_numel sizes in
    match count_inferred sizes with
    | 0 => if p =? n then Ok (map Z.to_nat sizes) else Err InvalidShape
    | 1 =>
        if p =? 0 then Err InvalidShape
        else if n mod p =? 0
             then Ok (map (fun z => if (z =? -1)%Z then n / p else Z.to_nat z) sizes)
             else Err InvalidShape
    | _ => Err InvalidShape
    end.

Definition view (t : tensor) (sizes : list Z) : result tensor :=
  sh <- infer_size sizes (numel (shape t)) ;;
  Ok (mkT sh (data t)).

(** Broadcasting of two shapes, aligned on the last dimension. *)
Definition bdim (a b : nat) : option nat :=
  if a =? b then Some a
  else if a =? 1 then Some b
  else if b =? 1 then Some a
  else None.

Fixpoint bshape_rev (r1 r2 : list nat) : option (list nat) :=
  match r1, r2 with
  | [], r => Some r
  | r, [] => Some r
  | a :: r1', b :: r2' =>
      match bdim a b, bshape_rev r1' r2' with
      | Some d, Some r => Some (d :: r)
      | _, _ => None
      end
  end.

Definition broadcast_shapes (s1 s2 : list nat) : option (list nat) :=
  option_map (@rev nat) (bshape_rev (rev s1) (rev s2)).

Fixpoint clamp (sh idx : list nat) : list nat :=
  match sh, idx with
  | d :: sh', i :: idx' => (if d =? 1 then 0 else i) :: clamp sh' idx'
  | _, _ => []
  end.

(** Storage position, in an operand of shape [sh], of the element that is
    combined into position [p] of the broadcast result of shape [out]. *)
Definition bcast_offset (sh out : list nat) (p : nat) : nat :=
  offset sh (clamp sh (skipn (length out - length sh) (unravel out p))).

Definition binop (f : R -> R -> R) (a b : tensor) : result tensor :=
  match broadcast_shapes (shape a) (shape b) with
  | Some sh =>
      Ok (mkT sh (tabulate (numel sh) (fun p =>
            f (at_ a (bcast_offset (shape a) sh p))
              (at_ b (bcast_offset (shape b) sh p)))))
  | None => Err BroadcastMismatch
  end.

Definition tdiv : tensor -> tensor -> result tensor := binop Rdiv.
Definition tadd : tensor -> tensor -> result tensor := binop Rplus.

(** [torch.mm(a, b)] *)
Definition mm (a b : tensor) : result tensor :=
  match shape a, shape b with
  | [n; k], [k'; m] =>
      if k =? k' then
        Ok (mkT [n; m] (tabulate (n * m) (fun p =>
              Rsum k (fun c => (at_ a ((p / m) * k + c) * at_ b (c * m + p mod m))%R))))
      else Err SizeMismatch
  | _, _ => Err NotAMatrix
  end.

(** ** The notebook's [softmax]

    [return torch.exp(x) / torch.exp(x).sum(dim=1).view(-1, 1)] *)

Definition softmax_denominator (x : tensor) : result tensor :=
  s <- tsum (torch_exp x) 1 ;;
  view s [(-1)%Z; 1%Z].

Definition softmax (x : tensor) : result tensor :=
  v <- softmax_denominator x ;;
  tdiv (torch_exp x) v.

(** ** Further framework operations used by the cells *)

(** [F.linear(x, weight, bias)]: [x] has any number of leading dimensions and
    its last one must be the layer's input width; [weight] is stored as
    (out_features, in_features); [bias] has one value per output, or a single
    value that is broadcast to all of them. *)
Definition F_linear (x w b : tensor) : result tensor :=
  match rev (shape x), shape w, shape b with
  | last :: lead, [o; i], [o'] =>
      if negb (last =? i) then Err SizeMismatch
      else if negb ((o' =? o) || (o' =? 1)) then Err BroadcastMismatch
      else
        Ok (mkT (rev (o :: lead))
              (tabulate (numel (rev (o :: lead))) (fun p =>
                 (Rsum i (fun c => at_ x ((p / o) * i + c) * at_ w ((p mod o) * i + c))
                  + at_ b (if o' =? 1 then 0 else p mod o))%R)))
  | _, _, _ => Err NotAMatrix
  end.

(** [F.softmax(x, dim)].  Without [dim] the framework picks the dimension
    from the number of dimensions of the input (0 for 0, 1 or 3 dimensions,
    1 otherwise). *)
Definition implicit_softmax_dim (rank : nat) : nat :=
  if (rank =? 0) || (rank =? 1) || (rank =? 3) then 0 else 1.

Definition F_softmax (x : tensor) (dim : option nat) : result tensor :=
  let rank := length (shape x) in
  let d := match dim with Some d => d | None => implicit_softmax_dim rank end in
  if d <? rank then
    let sz := nth d (shape x) 0 in
    let inner := numel (skipn (S d) (shape x)) in
    Ok (mkT (shape x)
          (tabulate (numel (shape x)) (fun p =>
             (exp (at_ x p)
              / Rsum sz (fun c =>
                  exp (at_ x ((p / (sz * inner)) * (sz * inner) + c * inner + p mod inner))))%R)))
  else if (rank =? 0) && (d =? 0) then Ok (pointwise (fun v => (exp v / exp v)%R) x)
  else Err DimOutOfRange.

Definition F_sigmoid (x : tensor) : tensor := torch_sigmoid x.
Definition F_relu (x : tensor) : tensor := torch_relu x.

(** [t.resize_(sizes)]: the tensor gets the requested sizes whatever its
    current number of elements; the storage is kept and, when it is too
    small, extended with uninitialised memory [fresh]. *)
Definition resize_ (fresh : nat -> R) (t : tensor) (sizes : list nat) : tensor :=
  mkT sizes (tabulate (numel sizes)
               (fun p => if p <? length (data t) then at_ t p else fresh p)).

(** [t[i]] *)
Definition select0 (t : tensor) (i : nat) : result tensor :=
  match shape t with
  | d0 :: rest =>
      if i <? d0
      then Ok (mkT rest (tabulate (numel rest) (fun p => at_ t (i * numel rest + p))))
      else Err IndexOutOfRange
  | [] => Err IndexOutOfRange
  end.

(** [t[i, :]] needs a second dimension to slice. *)
Definition select0_all (t : tensor) (i : nat) : result tensor :=
  match shape t with
  | _ :: _ :: _ => select0 t i
  | _ => Err IndexOutOfRange
  end.

(** [t.fill_(v)] *)
Definition fill_ (t : tensor) (v : R) : tensor :=
  mkT (shape t) (map (fun _ => v) (data t)).

(** [t.normal_(std=s)]: every element is replaced by [s] times a standard
    normal sample. *)
Definition normal_ (sample : nat -> R) (t : tensor) (std : R) : tensor :=
  mkT (shape t) (tabulate (numel (shape t)) (fun p => (std * sample p)%R)).

(** ** Cell 9: the network written with matrix products

[[
x = images.view(64, -1)
x = torch.tanh(torch.mm(x, w1) + b1)
out = torch.mm(x, w2) + b2
]] *)

Definition manual_flatten (images : tensor) : result tensor :=
  view images [64%Z; (-1)%Z].

Definition manual_layer1 (x w1 b1 : tensor) : result tensor :=
  h <- mm x w1 ;;
  h <- tadd h b1 ;;
  Ok (torch_tanh h).

Definition manual_layer2 (x w2 b2 : tensor) : result tensor :=
  o <- mm x w2 ;;
  tadd o b2.

Definition manual_hidden (images w1 b1 : tensor) : result tensor :=
  x <- manual_flatten images ;;
  manual_layer1 x w1 b1.

Definition manual_forward (images w1 b1 w2 b2 : tensor) : result tensor :=
  x <- manual_hidden images w1 b1 ;;
  manual_layer2 x w2 b2.

(** ** Modules of the [nn] library *)

Record Linear : Type := mkLinear { weight : tensor; bias : tensor }.

Inductive nn_Sigmoid : Type := Sigmoid_module.
Inductive nn_ReLU : Type := ReLU_module.
Record nn_Softmax : Type := Softmax_module { softmax_dim : option nat }.

Definition Linear_forward (l : Linear) (x : tensor) : result tensor :=
  F_linear x (weight l) (bias l).
Definition Sigmoid_forward (_ : nn_Sigmoid) (x : tensor) : result tensor :=
  Ok (torch_sigmoid x).
Definition ReLU_forward (_ : nn_ReLU) (x : tensor) : result tensor :=
  Ok (torch_relu x).
Definition Softmax_forward (m : nn_Softmax) (x : tensor) : result tensor :=
  F_softmax x (softmax_dim m).

(** Python values bound to the notebook's names: [None], a tensor, or a
    reference to a module object. *)
Inductive pyval : Type :=
| PyNone
| PyTensor (t : tensor)
| PyModule (id : nat).

(** ** Cell 14: [class Network] with stored activation modules *)

Module Network.
Record t : Type := mk {
  hidden : Linear;
  output : Linear;
  sigmoid : nn_Sigmoid;
  softmax : nn_Softmax
}.

(** [__init__], given the two freshly created linear layers. *)
Definition init (h o : Linear) : t :=
  mk h o Sigmoid_module (Softmax_module (Some 1)).

Definition forward (self : t) (x : tensor) : result pyval :=
  x <- Linear_forward (hidden self) x ;;
  x <- Sigmoid_forward (sigmoid self) x ;;
  x <- Linear_forward (output self) x ;;
  x <- Softmax_forward (softmax self) x ;;
  Ok (PyTensor x).
End Network.

(** ** Cell 18: [class Network] with [torch.nn.functional] *)

Module NetworkF.
Record t : Type := mk {
  hidden : Linear;
  output : Linear
}.

Definition init (h o : Linear) : t := mk h o.

Definition forward (self : t) (x : tensor) : result pyval :=
  h <- Linear_forward (hidden self) x ;;
  let x := F_sigmoid h in
  o <- Linear_forward (output self) x ;;
  x <- F_softmax o (Some 1) ;;
  Ok (PyTensor x).
End NetworkF.

(** ** Cell 21: [class Net]

[[
def forward(self, x):
    x = F.relu(self.fc1(x))
    x = F.relu(self.fc2(x))
    x = F.softmax(self.fc3(x))
]]
    The body ends without a [return]. *)

Module Net.
Record t : Type := mk {
  fc1 : Linear;
  fc2 : Linear;
  fc3 : Linear
}.

Definition init (l1 l2 l3 : Linear) : t := mk l1 l2 l3.

Definition forward (self : t) (x : tensor) : result pyval :=
  h <- Linear_forward (fc1 self) x ;;
  let x := F_relu h in
  h <- Linear_forward (fc2 self) x ;;
  let x := F_relu h in
  h <- Linear_forward (fc3 self) x ;;
  x <- F_softmax h None ;;
  Ok PyNone.
End Net.

(** ** Cells 30 and 34: [nn.Sequential] *)

Inductive layer : Type :=
| LLinear (l : Linear)
| LReLU (m : nn_ReLU)
| LSigmoid (m : nn_Sigmoid)
| LSoftmax (m : nn_Softmax).

Definition layer_forward (l : layer) (x : tensor) : result tensor :=
  match l with
  | LLinear m => Linear_forward m x
  | LReLU m => ReLU_forward m x
  | LSigmoid m => Sigmoid_forward m x
  | LSoftmax m => Softmax_forward m x
  end.

Module Sequential.
(** The layers in order, each under its name. *)
Definition t : Type := list (string * layer).

Fixpoint run (ls : t) (x : tensor) : result tensor :=
  match ls with
  | [] => Ok x
  | (_, l) :: ls' => y <- layer_forward l x ;; run ls' y
  end.

Definition forward (self : t) (x : tensor) : result pyval :=
  y <- run self x ;; Ok (PyTensor y).
End Sequential.

(** ** The notebook session

    The cells run in order against one interpreter state: the names bound at
    top level, the module objects (one per constructor call, found by
    identity), and the sources of data the notebook does not control: the
    random number generator, the data loader, uninitialised memory and the
    plotting helper. *)

Record world : Type := mkWorld {
  random : nat -> nat -> R;         (* k-th random tensor drawn, position p *)
  pixels : nat -> nat -> R;         (* images of the k-th batch fetched *)
  digits : nat -> nat -> R;         (* labels of the k-th batch fetched *)
  uninit : nat -> R;                (* content of fresh memory *)
  view_classify : tensor -> pyval -> result unit   (* helper.view_classify *)
}.

Inductive module_obj : Type :=
| ObjNetwork (m : Network.t)
| ObjNetworkF (m : NetworkF.t)
| ObjNet (m : Net.t)
| ObjSequential (m : Sequential.t).

Inductive event : Type :=
| EvConstruct (id : nat)
| EvForward (id : nat)
| EvFill (id : nat) (layer_name : string)
| EvNormal (id : nat) (layer_name : string).

Record session : Type := mkSession {
  draws : nat;                       (* random tensors drawn so far *)
  fetched : nat;                     (* batches fetched so far *)
  heap : list module_obj;            (* module objects, by identity *)
  globals : string -> option pyval;  (* top-level names *)
  log : list event                   (* what has been called, oldest first *)
}.

Definition empty_session : session :=
  mkSession 0 0 [] (fun _ => None) [].

(** Cells are programs that change the session and may raise. *)
Definition M (A : Type) : Type := session -> session * result A.

Definition ret {A : Type} (a : A) : M A := fun s => (s, Ok a).

Definition mbind {A B : Type} (m : M A) (k : A -> M B) : M B :=
  fun s =>
    match m s with
    | (s', Ok a) => k a s'
    | (s', Err e) => (s', Err e)
    end.

Notation "x <~ m ;; k" := (mbind m (fun x => k))
  (at level 61, m at next level, right associativity).
Notation "m ;;; k" := (mbind m (fun _ => k))
  (at level 61, right associativity).

Definition lift {A : Type} (r : result A) : M A := fun s => (s, r).

Definition assign (name : string) (v : pyval) : M unit :=
  fun s =>
    (mkSession (draws s) (fetched s) (heap s)
       (fun n => if String.eqb n name then Some v else globals s n) (log s),
     Ok tt).

Definition lookup (name : string) : M pyval :=
  fun s =>
    match globals s name with
    | Some v => (s, Ok v)
    | None => (s, Err NameError)
    end.

Definition lookup_tensor (name : string) : M tensor :=
  v <~ lookup name ;;
  match v with
  | PyTensor t => ret t
  | PyNone => lift (Err AttributeError)
  | PyModule _ => lift (Err TypeError)
  end.

Definition lookup_module (name : string) : M nat :=
  v <~ lookup name ;;
  match v with
  | PyModule id => ret id
  | PyNone => lift (Err AttributeError)
  | PyTensor _ => lift (Err AttributeError)
  end.

Definition emit (e : event) : M unit :=
  fun s => (mkSession (draws s) (fetched s) (heap s) (globals s) (log s ++ [e]), Ok tt).

(** The next stream of samples of the random number generator. *)
Definition fresh_stream (w : world) : M (nat -> R) :=
  fun s =>
    (mkSession (S (draws s)) (fetched s) (heap s) (globals s) (log s),
     Ok (random w (draws s))).

(** A tensor of the given sizes filled from the random number generator. *)
Definition draw (w : world) (sizes : list nat) : M tensor :=
  f <~ fresh_stream w ;;
  ret (mkT sizes (tabulate (numel sizes) f)).

(** [next(iter(trainloader))]: the loader was built with [batch_size=64] over
    28x28 single-channel images, and a fresh iterator starts with a full
    batch. *)
Definition fetch (w : world) : M (tensor * tensor) :=
  fun s =>
    (mkSession (draws s) (S (fetched s)) (heap s) (globals s) (log s),
     Ok (mkT [64; 1; 28; 28] (tabulate (numel [64; 1; 28; 28]) (pixels w (fetched s))),
         mkT [64] (tabulate (numel [64]) (digits w (fetched s))))).

Definition alloc (o : module_obj) : M nat :=
  fun s =>
    (mkSession (draws s) (fetched s) (heap s ++ [o]) (globals s)
       (log s ++ [EvConstruct (length (heap s))]),
     Ok (length (heap s))).

Definition deref (id : nat) : M module_obj :=
  fun s =>
    match nth_error (heap s) id with
    | Some o => (s, Ok o)
    | None => (s, Err NameError)
    end.

Fixpoint replace_nth {A : Type} (n : nat) (a : A) (l : list A) : list A :=
  match l, n with
  | [], _ => []
  | _ :: l', 0 => a :: l'
  | b :: l', S n' => b :: replace_nth n' a l'
  end.

Definition store (id : nat) (o : module_obj) : M unit :=
  fun s =>
    (mkSession (draws s) (fetched s) (replace_nth id o (heap s)) (globals s) (log s),
     Ok tt).

(** [nn.Linear(n_in, n_out)]: weight of sizes (n_out, n_in) and bias of size
    n_out, both initialised at random. *)
Definition nn_Linear (w : world) (n_in n_out : nat) : M Linear :=
  wt <~ draw w [n_out; n_in] ;;
  bs <~ draw w [n_out] ;;
  ret (mkLinear wt bs).

(** Attribute access [obj.name] for a linear layer. *)
Fixpoint find_layer (name : string) (ls : Sequential.t) : option layer :=
  match ls with
  | [] => None
  | (n, l) :: ls' => if String.eqb n name then Some l else find_layer name ls'
  end.

Definition get_linear (name : string) (o : module_obj) : result Linear :=
  match o with
  | ObjNetwork m =>
      if String.eqb name "hidden" then Ok (Network.hidden m)
      else if String.eqb name "output" then Ok (Network.output m)
      else Err AttributeError
  | ObjNetworkF m =>
      if String.eqb name "hidden" then Ok (NetworkF.hidden m)
      else if String.eqb name "output" then Ok (NetworkF.output m)
      else Err AttributeError
  | ObjNet m =>
      if String.eqb name "fc1" then Ok (Net.fc1 m)
      else if String.eqb name "fc2" then Ok (Net.fc2 m)
      else if String.eqb name "fc3" then Ok (Net.fc3 m)
      else Err AttributeError
  | ObjSequential ls =>
      match find_layer name ls with
      | Some (LLinear l) => Ok l
      | _ => Err AttributeError
      end
  end.

Fixpoint set_layer (name : string) (l : layer) (ls : Sequential.t) : Sequential.t :=
  match ls with
  | [] => []
  | (n, l0) :: ls' =>
      if String.eqb n name then (n, l) :: ls' else (n, l0) :: set_layer name l ls'
  end.

(** The object after its layer [name] was changed in place to [l]. *)
Definition set_linear (name : string) (l : Linear) (o : module_obj) : module_obj :=
  match o with
  | ObjNetwork m =>
      if String.eqb name "hidden"
      then ObjNetwork (Network.mk l (Network.output m) (Network.sigmoid m) (Network.softmax m))
      else if String.eqb name "output"
      then ObjNetwork (Network.mk (Network.hidden m) l (Network.sigmoid m) (Network.softmax m))
      else o
  | ObjNetworkF m =>
      if String.eqb name "hidden" then ObjNetworkF (NetworkF.mk l (NetworkF.output m))
      else if String.eqb name "output" then ObjNetworkF (NetworkF.mk (NetworkF.hidden m) l)
      else o
  | ObjNet m =>
      if String.eqb name "fc1" then ObjNet (Net.mk l (Net.fc2 m) (Net.fc3 m))
      else if String.eqb name "fc2" then ObjNet (Net.mk (Net.fc1 m) l (Net.fc3 m))
      else if String.eqb name "fc3" then ObjNet (Net.mk (Net.fc1 m) (Net.fc2 m) l)
      else o
  | ObjSequential ls => ObjSequential (set_layer name (LLinear l) ls)
  end.

(** [model.forward(x)]: the method of the object's class. *)
Definition obj_forward (o : module_obj) (x : tensor) : result pyval :=
  match o with
  | ObjNetwork m => Network.forward m x
  | ObjNetworkF m => NetworkF.forward m x
  | ObjNet m => Net.forward m x
  | ObjSequential m => Sequential.forward m x
  end.

Definition call_forward (id : nat) (x : tensor) : M pyval :=
  emit (EvForward id) ;;;
  o <~ deref id ;;
  lift (obj_forward o x).

(** ** The code cells, in notebook order *)

(** Cell 5: [images, labels = dataiter.next()] *)
Definition cell5 (w : world) : M unit :=
  b <~ fetch w ;;
  assign "images" (PyTensor (fst b)) ;;;
  assign "labels" (PyTensor (snd b)).

(** Cell 9: random weights and the forward pass with matrix products. *)
Definition cell9 (w : world) : M unit :=
  w1 <~ draw w [28 * 28; 256] ;;
  assign "w1" (PyTensor w1) ;;;
  b1 <~ draw w [256] ;;
  assign "b1" (PyTensor b1) ;;;
  w2 <~ draw w [256; 10] ;;
  assign "w2" (PyTensor w2) ;;;
  b2 <~ draw w [10] ;;
  assign "b2" (PyTensor b2) ;;;
  images <~ lookup_tensor "images" ;;
  x <~ lift (manual_flatten images) ;;
  assign "x" (PyTensor x) ;;;
  x <~ lift (manual_layer1 x w1 b1) ;;
  assign "x" (PyTensor x) ;;;
  out <~ lift (manual_layer2 x w2 b2) ;;
  assign "out" (PyTensor out).

(** Cell 11: [probabilities = softmax(out)] *)
Definition cell11 : M unit :=
  out <~ lookup_tensor "out" ;;
  p <~ lift (softmax out) ;;
  assign "probabilities" (PyTensor p).

(** Cell 16: [model = Network()] *)
Definition cell16 (w : world) : M unit :=
  h <~ nn_Linear w 784 256 ;;
  o <~ nn_Linear w 256 10 ;;
  id <~ alloc (ObjNetwork (Network.init h o)) ;;
  assign "model" (PyModule id).

(** Cell 21: [model = Net()] *)
Definition cell21 (w : world) : M unit :=
  l1 <~ nn_Linear w 784 128 ;;
  l2 <~ nn_Linear w 128 64 ;;
  l3 <~ nn_Linear w 64 10 ;;
  id <~ alloc (ObjNet (Net.init l1 l2 l3)) ;;
  assign "model" (PyModule id).

(** Cell 23: [print(model.fc1.weight); print(model.fc1.bias)] *)
Definition cell23 : M unit :=
  id <~ lookup_module "model" ;;
  o <~ deref id ;;
  l <~ lift (get_linear "fc1" o) ;;
  ret tt.

(** Cell 25: [model.fc1.bias.data.fill_(0)] *)
Definition cell25 : M unit :=
  id <~ lookup_module "model" ;;
  o <~ deref id ;;
  l <~ lift (get_linear "fc1" o) ;;
  emit (EvFill id "fc1") ;;;
  store id (set_linear "fc1" (mkLinear (weight l) (fill_ (bias l) 0)) o).

(** Cell 26: [model.fc1.weight.data.normal_(std=0.01)] *)
Definition cell26 (w : world) : M unit :=
  id <~ lookup_module "model" ;;
  o <~ deref id ;;
  l <~ lift (get_linear "fc1" o) ;;
  f <~ fresh_stream w ;;
  emit (EvNormal id "fc1") ;;;
  store id (set_linear "fc1" (mkLinear (normal_ f (weight l) (1 / 100)) (bias l)) o).

(** Cell 28: one image through [model] ([img_idx = 0]).

[[
images.resize_(64, 1, 784)
ps = model.forward(images[img_idx,:])
img = images[img_idx]
helper.view_classify(img.view(1, 28, 28), ps)
]] *)
Definition cell28 (w : world) : M unit :=
  b <~ fetch w ;;
  assign "images" (PyTensor (fst b)) ;;;
  assign "labels" (PyTensor (snd b)) ;;;
  images <~ lookup_tensor "images" ;;
  assign "images" (PyTensor (resize_ (uninit w) images [64; 1; 784])) ;;;
  images <~ lookup_tensor "images" ;;
  arg <~ lift (select0_all images 0) ;;
  id <~ lookup_module "model" ;;
  ps <~ call_forward id arg ;;
  assign "ps" ps ;;;
  img <~ lift (select0 images 0) ;;
  assign "img" (PyTensor img) ;;;
  v <~ lift (view img [1%Z; 28%Z; 28%Z]) ;;
  lift (view_classify w v ps).

(** Cell 30: the same network with [nn.Sequential], and one image through it. *)
Definition cell30 (w : world) : M unit :=
  l0 <~ nn_Linear w 784 128 ;;
  l2 <~ nn_Linear w 128 64 ;;
  l4 <~ nn_Linear w 64 10 ;;
  id <~ alloc (ObjSequential
                 [("0", LLinear l0); ("1", LReLU ReLU_module);
                  ("2", LLinear l2); ("3", LReLU ReLU_module);
                  ("4", LLinear l4); ("5", LSoftmax (Softmax_module (Some 1)))]%string) ;;
  assign "model" (PyModule id) ;;;
  b <~ fetch w ;;
  assign "images" (PyTensor (fst b)) ;;;
  assign "labels" (PyTensor (snd b)) ;;;
  images <~ lookup_tensor "images" ;;
  d0 <~ lift (match shape images with
              | d0 :: _ => Ok d0
              | [] => Err IndexOutOfRange
              end) ;;
  assign "images" (PyTensor (resize_ (uninit w) images [d0; 1; 784])) ;;;
  id <~ lookup_module "model" ;;
  images <~ lookup_tensor "images" ;;
  arg <~ lift (select0_all images 0) ;;
  ps <~ call_forward id arg ;;
  assign "ps" ps ;;;
  img <~ lift (select0 images 0) ;;
  v <~ lift (view img [1%Z; 28%Z; 28%Z]) ;;
  lift (view_classify w v ps).

(** [model[i]] on a Sequential. *)
Definition get_item (o : module_obj) (i : nat) : result layer :=
  match o with
  | ObjSequential ls =>
      match nth_error ls i with
      | Some (_, l) => Ok l
      | None => Err IndexOutOfRange
      end
  | _ => Err TypeError
  end.

(** Cell 32: [print(model[0]); model[0].weight] *)
Definition cell32 : M unit :=
  id <~ lookup_module "model" ;;
  o <~ deref id ;;
  l <~ lift (get_item o 0) ;;
  match l with
  | LLinear _ => ret tt
  | _ => lift (Err AttributeError)
  end.

(** Cell 34: [nn.Sequential] over an [OrderedDict] of named layers. *)
Definition cell34 (w : world) : M unit :=
  l1 <~ nn_Linear w 784 128 ;;
  l2 <~ nn_Linear w 128 64 ;;
  l3 <~ nn_Linear w 64 10 ;;
  id <~ alloc (ObjSequential
                 [("fc1", LLinear l1); ("relu1", LReLU ReLU_module);
                  ("fc2", LLinear l2); ("relu2", LReLU ReLU_module);
                  ("output", LLinear l3);
                  ("softmax", LSoftmax (Softmax_module (Some 1)))]%string) ;;
  assign "model" (PyModule id).

(** Cell 36: [print(model[0]); print(model.fc1)] *)
Definition cell36 : M unit :=
  id <~ lookup_module "model" ;;
  o <~ deref id ;;
  l <~ lift (get_item o 0) ;;
  l' <~ lift (get_linear "fc1" o) ;;
  ret tt.

(** The code cells that touch the session, in order.  Cells 1, 3, 7, 13, 14
    and 18 only import, build the data loader, plot, or define a class.  The
    session "after k cells" below counts along this list: 1 is after cell 5,
    2 after cell 9, 3 after cell 11, 4 after cell 16, 5 after cell 21, 6 after
    cell 23, 7 after cell 25, 8 after cell 26, 9 after cell 28, 10 after cell
    30, 11 after cell 32, 12 after cell 34 and 13 after cell 36. *)
Definition notebook (w : world) : list (M unit) :=
  [cell5 w; cell9 w; cell11; cell16 w; cell21 w; cell23; cell25; cell26 w;
   cell28 w; cell30 w; cell32; cell34 w; cell36].

(** Running a cell keeps the state it reached, also when it raised. *)
Definition exec (c : M unit) (s : session) : session := fst (c s).

Definition run_cells (cs : list (M unit)) (s : session) : session :=
  fold_left (fun s c => exec c s) cs s.

(** The session after the first [k] code cells. *)
Definition session_after (w : world) (k : nat) : session :=
  run_cells (firstn k (notebook w)) empty_session.

(** The parameter tensors of the module objects. *)
Inductive which : Type := Weight | Bias.

Definition read_heap (hp : list module_obj) (id : nat) (name : string) (p : which)
  : option tensor :=
  match nth_error hp id with
  | Some o =>
      match get_linear name o with
      | Ok l => Some (match p with Weight => weight l | Bias => bias l end)
      | Err _ => None
      end
  | None => None
  end.

Definition read_param (s : session) : nat -> string -> which -> option tensor :=
  read_heap (heap s).


Definition is_write (e : event) : bool :=
  match e with EvFill _ _ | EvNormal _ _ => true | _ => false end.

(** ** The network of cells 14 and 18, as the text describes it

    784 inputs, a hidden affine layer of 256 units with a sigmoid, an output
    affine layer of 10 units, and the softmax of each row.  Entry (i, c) of
    the result, written from this description and independently of the
    tensor code above. *)

Definition described_hidden (h : Linear) (x : tensor) (i j : nat) : R :=
  sigmoid_fn (Rsum 784 (fun p => get x [i; p] * get (weight h) [j; p])
              + get (bias h) [j])%R.

Definition described_scores (h o : Linear) (x : tensor) (i c : nat) : R :=
  (Rsum 256 (fun j => described_hidden h x i j * get (weight o) [c; j])
   + get (bias o) [c])%R.

Definition described_network (h o : Linear) (x : tensor) (i c : nat) : R :=
  (exp (described_scores h o x i c)
   / Rsum 10 (fun c' => exp (described_scores h o x i c')))%R.

(** What cells 25 and 26 leave of a [Net]. *)
Definition after_fill (m : Net.t) : Net.t :=
  Net.mk (mkLinear (weight (Net.fc1 m)) (fill_ (bias (Net.fc1 m)) 0))
         (Net.fc2 m) (Net.fc3 m).

Definition after_normal (f : nat -> R) (m : Net.t) : Net.t :=
  Net.mk (mkLinear (normal_ f (weight (Net.fc1 m)) (1 / 100)) (bias (Net.fc1 m)))
         (Net.fc2 m) (Net.fc3 m).

(** The module objects after the first [k] cells, given what the
    constructors of cells 16, 21, 30 and 34 built and the samples that cell 26
    drew. *)
Definition heap_after (o0 : module_obj) (m : Net.t) (f : nat -> R)
    (o2 o3 : module_obj) (k : nat) : list module_obj :=
  match k with
  | 0 | 1 | 2 | 3 => []
  | 4 => [o0]
  | 5 | 6 => [o0; ObjNet m]
  | 7 => [o0; ObjNet (after_fill m)]
  | 8 | 9 => [o0; ObjNet (after_normal f (after_fill m))]
  | 10 | 11 => [o0; ObjNet (after_normal f (after_fill m)); o2]
  | _ => [o0; ObjNet (after_normal f (after_fill m)); o2; o3]
  end.

(** ** Reasoning about cells: weakest preconditions *)

Definition wp {A : Type} (m : M A) (Q : session -> result A -> Prop) (s : session) : Prop :=
  Q (fst (m s)) (snd (m s)).

(** A cell that neither creates nor changes a module object, calls nothing
    that is logged and leaves [model] bound as it was. *)
Definition passive (c : M unit) : Prop :=
  forall s, heap (exec c s) = heap s /\ log (exec c s) = log s /\
            globals (exec c s) "model" = globals s "model".

(** A world in which every sample, pixel and label is 0 and the plotting
    helper returns. *)
Definition quiet_world : world :=
  mkWorld (fun _ _ => 0%R) (fun _ _ => 0%R) (fun _ _ => 0%R) (fun _ => 0%R)
          (fun _ _ => Ok tt).

(** ** Small inputs used to exercise the statements *)

(** One row of two scores. *)
Definition scores_1x2 : tensor := mkT [1; 2] [0%R; 1%R].

(** One row without any column. *)
Definition scores_1x0 : tensor := mkT [1; 0] [].

(** [torch.full(sizes, v)] and [torch.zeros(sizes)]. *)
Definition full (sizes : list nat) (v : R) : tensor :=
  mkT sizes (tabulate (numel sizes) (fun _ => v)).
Definition zeros (sizes : list nat) : tensor := full sizes 0%R.

(** A [Net] whose parameters are all zero, and an input of the wrong width. *)
Definition zero_Net : Net.t :=
  Net.init (mkLinear (zeros [128; 784]) (zeros [128]))
           (mkLinear (zeros [64; 128]) (zeros [64]))
           (mkLinear (zeros [10; 64]) (zeros [10])).

Definition three_columns : tensor := zeros [1; 3].

(** A vector of three scores. *)
Definition scores_3 : tensor := mkT [3] [0%R; 1%R; 2%R].

(** A [Net] has the sizes its constructor gives it. *)
Definition Net_sizes (m : Net.t) : Prop :=
  shape (weight (Net.fc1 m)) = [128; 784] /\ shape (bias (Net.fc1 m)) = [128] /\
  shape (weight (Net.fc2 m)) = [64; 128] /\ shape (bias (Net.fc2 m)) = [64] /\
  shape (weight (Net.fc3 m)) = [10; 64] /\ shape (bias (Net.fc3 m)) = [10].

(** A bias that makes every hidden pre-activation of cell 9 equal to -1 when
    the weights are zero. *)
Definition bias_minus_one : tensor := full [256] (-1)%R.

(** ** Further inputs and models for the properties beyond the forward
    passes *)

(** Two rows of two scores, and the same scores with 5 added to the first
    row and -2 to the second. *)
Definition scores_2x2 : tensor := mkT [2; 2] [0%R; 1%R; 2%R; 3%R].
Definition scores_2x2_shifted : tensor := mkT [2; 2] [5%R; 6%R; 0%R; 1%R].

(** A 3-dimensional tensor of sizes (2, 3, 2). *)
Definition cube_2x3x2 : tensor := zeros [2; 3; 2].

(** A batch whose image 3 is blank and whose other images are white. *)
Definition batch_blank_at_3 : tensor :=
  mkT [64; 1; 28; 28]
      (tabulate (numel [64; 1; 28; 28]) (fun p => if p / 784 =? 3 then 0%R else 1%R)).

(** A batch of 64 images whose pixel at flat position [p] is [p], and a
    last, short batch of 32 such images. *)
Definition batch_counting : tensor :=
  mkT [64; 1; 28; 28] (tabulate (numel [64; 1; 28; 28]) INR).
Definition short_batch : tensor :=
  mkT [32; 1; 28; 28] (tabulate (numel [32; 1; 28; 28]) INR).

(** The [nn.Sequential] of cell 30 over three given linear layers. *)
Definition cell30_model (l0 l2 l4 : Linear) : Sequential.t :=
  [("0", LLinear l0); ("1", LReLU ReLU_module);
   ("2", LLinear l2); ("3", LReLU ReLU_module);
   ("4", LLinear l4); ("5", LSoftmax (Softmax_module (Some 1)))]%string.

(** The [nn.Sequential] of cell 34, over an [OrderedDict] of named layers. *)
Definition cell34_model (l1 l2 l3 : Linear) : Sequential.t :=
  [("fc1", LLinear l1); ("relu1", LReLU ReLU_module);
   ("fc2", LLinear l2); ("relu2", LReLU ReLU_module);
   ("output", LLinear l3);
   ("softmax", LSoftmax (Softmax_module (Some 1)))]%string.

(** The exception, if any, that running a cell ends with. *)
Definition outcome (c : M unit) (s : session) : result unit := snd (c s).

(** * Properties *)

(** ** Lists, sums and index arithmetic *)

Lemma length_tabulate (n : nat) (f : nat -> R) : length (tabulate n f) = n.
Proof. unfold tabulate. now rewrite length_map, length_seq. Qed.

Lemma nth_tabulate (n : nat) (f : nat -> R) (p : nat) :
  p < n -> nth p (tabulate n f) 0%R = f p.
Proof.
  intros Hp. unfold tabulate.
  rewrite (nth_indep _ 0%R (f 0)) by now rewrite length_map, length_seq.
  rewrite map_nth, seq_nth by assumption. reflexivity.
Qed.

Lemma nth_map_in (f : R -> R) (l : list R) (p : nat) :
  p < length l -> nth p (map f l) 0%R = f (nth p l 0%R).
Proof.
  intros Hp.
  rewrite (nth_indep _ 0%R (f 0%R)) by now rewrite length_map.
  apply map_nth.
Qed.

Lemma Rsum_S (n : nat) (f : nat -> R) :
  Rsum (S n) f = (Rsum n f + f n)%R.
Proof.
  unfold Rsum. rewrite seq_S, map_app. simpl.
  generalize (map f (seq 0 n)) as l.
  induction l as [|a l IH]; simpl; [lra | rewrite IH; lra].
Qed.

Lemma Rsum_0 (f : nat -> R) : Rsum 0 f = 0%R.
Proof. reflexivity. Qed.

Lemma Rsum_ext (n : nat) (f g : nat -> R) :
  (forall c, c < n -> f c = g c) -> Rsum n f = Rsum n g.
Proof.
  induction n as [|n IH]; intros H; [reflexivity|].
  rewrite !Rsum_S, IH, (H n) by auto with arith. reflexivity.
Qed.

Lemma Rsum_pos (n : nat) (f : nat -> R) :
  1 <= n -> (forall c, c < n -> (0 < f c)%R) -> (0 < Rsum n f)%R.
Proof.
  induction n as [|n IH]; intros Hn H; [lia|].
  rewrite Rsum_S. destruct n as [|n].
  - rewrite Rsum_0. specialize (H 0 ltac:(lia)). lra.
  - specialize (IH ltac:(lia) (fun c Hc => H c ltac:(lia))).
    specialize (H (S n) ltac:(lia)). lra.
Qed.

Lemma Rsum_nonneg (n : nat) (f : nat -> R) :
  (forall c, c < n -> (0 <= f c)%R) -> (0 <= Rsum n f)%R.
Proof.
  induction n as [|n IH]; intros H; [rewrite Rsum_0; lra|].
  rewrite Rsum_S. specialize (IH (fun c Hc => H c ltac:(lia))).
  specialize (H n ltac:(lia)). lra.
Qed.

(** One term of a sum of positive terms is below the sum, strictly so when
    there is another term. *)
Lemma Rsum_term_le (n : nat) (f : nat -> R) (j : nat) :
  j < n -> (forall c, c < n -> (0 < f c)%R) -> (f j <= Rsum n f)%R.
Proof.
  induction n as [|n IH]; intros Hj H; [lia|].
  rewrite Rsum_S.
  destruct (Nat.eq_dec j n) as [->|Hne].
  - assert (0 <= Rsum n f)%R by (apply Rsum_nonneg; intros; left; apply H; lia). lra.
  - specialize (IH ltac:(lia) (fun c Hc => H c ltac:(lia))).
    specialize (H n ltac:(lia)). lra.
Qed.

Lemma Rsum_term_lt (n : nat) (f : nat -> R) (j : nat) :
  j < n -> 2 <= n -> (forall c, c < n -> (0 < f c)%R) -> (f j < Rsum n f)%R.
Proof.
  induction n as [|n IH]; intros Hj Hn H; [lia|].
  rewrite Rsum_S.
  destruct (Nat.eq_dec j n) as [->|Hne].
  - assert (0 < Rsum n f)%R by (apply Rsum_pos; [lia | intros; apply H; lia]). lra.
  - assert (f j <= Rsum n f)%R by (apply Rsum_term_le; [lia | intros; apply H; lia]).
    specialize (H n ltac:(lia)). lra.
Qed.

Lemma Rsum_scale (n : nat) (f : nat -> R) (a : R) :
  Rsum n (fun c => (f c / a)%R) = (Rsum n f / a)%R.
Proof.
  induction n as [|n IH]; [rewrite !Rsum_0; unfold Rdiv; lra|].
  rewrite !Rsum_S, IH. unfold Rdiv. lra.
Qed.

Lemma numel_1 (k : nat) : numel [k] = k.
Proof. simpl. lia. Qed.

Lemma numel_2 (n k : nat) : numel [n; k] = n * k.
Proof. simpl. lia. Qed.

Lemma offset_2 (n k i j : nat) : offset [n; k] [i; j] = i * k + j.
Proof. simpl. lia. Qed.

Lemma pos_lt_2 (n k i j : nat) : i < n -> j < k -> i * k + j < n * k.
Proof. nia. Qed.

Lemma div_pos_2 (k i j : nat) : j < k -> (i * k + j) / k = i.
Proof.
  intros Hj. rewrite Nat.div_add_l by lia.
  rewrite Nat.div_small by assumption. lia.
Qed.

Lemma mod_pos_2 (k i j : nat) : j < k -> (i * k + j) mod k = j.
Proof.
  intros Hj. rewrite Nat.add_comm, Nat.Div0.mod_add.
  now apply Nat.mod_small.
Qed.

Lemma unravel_2 (n k i j : nat) :
  j < k -> unravel [n; k] (i * k + j) = [i; j].
Proof.
  intros Hj. unfold unravel. rewrite numel_1. cbn [numel fold_right].
  rewrite div_pos_2, mod_pos_2, Nat.div_1_r by assumption. reflexivity.
Qed.

Lemma bdim_same (a : nat) : bdim a a = Some a.
Proof. unfold bdim. now rewrite Nat.eqb_refl. Qed.

Lemma bdim_1_r (a : nat) : bdim a 1 = Some a.
Proof.
  unfold bdim. destruct (a =? 1); reflexivity.
Qed.

(** Broadcasting leaves an in-range index of a full-size operand alone. *)
Lemma clamp_2 (n k i j : nat) :
  i < n -> j < k -> clamp [n; k] [i; j] = [i; j].
Proof.
  intros Hi Hj. simpl.
  destruct (n =? 1) eqn:En; [apply Nat.eqb_eq in En|];
    destruct (k =? 1) eqn:Ek; [apply Nat.eqb_eq in Ek| |apply Nat.eqb_eq in Ek|];
    repeat f_equal; lia.
Qed.

Lemma bcast_offset_full (n k i j : nat) :
  i < n -> j < k -> bcast_offset [n; k] [n; k] (i * k + j) = i * k + j.
Proof.
  intros Hi Hj. unfold bcast_offset.
  rewrite unravel_2 by assumption.
  replace (length [n; k] - length [n; k]) with 0 by (simpl; lia).
  cbn [skipn]. rewrite clamp_2 by assumption. apply offset_2.
Qed.

(** A column operand (n, 1) contributes its row entry to every column. *)
Lemma bcast_offset_col (n k i j : nat) :
  i < n -> j < k -> bcast_offset [n; 1] [n; k] (i * k + j) = i.
Proof.
  intros Hi Hj. unfold bcast_offset.
  rewrite unravel_2 by assumption.
  replace (length [n; k] - length [n; 1]) with 0 by (simpl; lia).
  cbn [skipn clamp Nat.eqb].
  destruct (n =? 1) eqn:En; [apply Nat.eqb_eq in En|]; simpl; lia.
Qed.

(** A row operand (k) contributes its column entry to every row. *)
Lemma bcast_offset_row (n k i j : nat) :
  i < n -> j < k -> bcast_offset [k] [n; k] (i * k + j) = j.
Proof.
  intros Hi Hj. unfold bcast_offset.
  rewrite unravel_2 by assumption.
  replace (length [n; k] - length [k]) with 1 by (simpl; lia).
  cbn [skipn clamp].
  destruct (k =? 1) eqn:Ek; [apply Nat.eqb_eq in Ek|]; simpl; lia.
Qed.

Lemma broadcast_shapes_col (n k : nat) :
  broadcast_shapes [n; k] [n; 1] = Some [n; k].
Proof.
  unfold broadcast_shapes. cbn [rev app bshape_rev].
  now rewrite bdim_1_r, bdim_same.
Qed.

Lemma broadcast_shapes_row (n k : nat) :
  broadcast_shapes [n; k] [k] = Some [n; k].
Proof.
  unfold broadcast_shapes. cbn [rev app bshape_rev].
  now rewrite bdim_same.
Qed.

Lemma tabulate_ext (n : nat) (f g : nat -> R) :
  (forall p, p < n -> f p = g p) -> tabulate n f = tabulate n g.
Proof.
  intros H. unfold tabulate. apply map_ext_in.
  intros p Hp. apply in_seq in Hp. apply H. lia.
Qed.

Lemma get_2 (t : tensor) (n k i j : nat) :
  shape t = [n; k] -> get t [i; j] = at_ t (i * k + j).
Proof. intros E. unfold get. now rewrite E, offset_2. Qed.

Lemma get_tabulate_2 (n k : nat) (f : nat -> R) (i j : nat) :
  i < n -> j < k -> get (mkT [n; k] (tabulate (n * k) f)) [i; j] = f (i * k + j).
Proof.
  intros Hi Hj. rewrite (get_2 _ n k) by reflexivity.
  unfold at_. cbn [data]. apply nth_tabulate. now apply pos_lt_2.
Qed.

Lemma at_pointwise (f : R -> R) (t : tensor) (p : nat) :
  p < length (data t) -> at_ (pointwise f t) p = f (at_ t p).
Proof. intros Hp. unfold at_, pointwise. cbn [data]. now apply nth_map_in. Qed.

(** ** The pieces of [softmax] on a matrix *)

Lemma tsum_rows (t : tensor) (n k : nat) :
  shape t = [n; k] ->
  tsum t 1 = Ok (mkT [n] (tabulate n (fun i => Rsum k (fun c => at_ t (i * k + c))))).
Proof.
  intros E. unfold tsum. rewrite E.
  cbn [length Nat.ltb Nat.leb nth skipn firstn app].
  rewrite numel_1. do 2 f_equal.
  apply tabulate_ext. intros p Hp. apply Rsum_ext. intros c Hc.
  f_equal. cbn [numel fold_right].
  rewrite Nat.div_1_r, Nat.mod_1_r. lia.
Qed.

Lemma view_column (t : tensor) :
  view t [(-1)%Z; 1%Z] = Ok (mkT [numel (shape t); 1] (data t)).
Proof.
  unfold view, infer_size.
  replace (existsb (fun z => (z <? -1)%Z) [(-1)%Z; 1%Z]) with false by reflexivity.
  replace (count_inferred [(-1)%Z; 1%Z]) with 1 by reflexivity.
  replace (known_numel [(-1)%Z; 1%Z]) with 1 by reflexivity.
  rewrite Nat.mod_1_r, Nat.div_1_r. reflexivity.
Qed.

Lemma softmax_denominator_rows (x : tensor) (n k : nat) :
  shape x = [n; k] ->
  softmax_denominator x =
    Ok (mkT [n; 1] (tabulate n (fun i => Rsum k (fun c => at_ (torch_exp x) (i * k + c))))).
Proof.
  intros E. unfold softmax_denominator.
  rewrite (tsum_rows (torch_exp x) n k) by exact E.
  cbn [bind]. rewrite view_column. cbn [shape data].
  now rewrite numel_1.
Qed.

Lemma softmax_closed (x : tensor) (n k : nat) :
  shape x = [n; k] -> wf x ->
  softmax x =
    Ok (mkT [n; k]
          (tabulate (n * k) (fun p =>
             (exp (at_ x p) / Rsum k (fun c => exp (at_ x (p / k * k + c))))%R))).
Proof.
  intros E W. unfold softmax.
  rewrite (softmax_denominator_rows x n k E). cbn [bind].
  unfold tdiv, binop. cbn [shape]. unfold torch_exp at 1. cbn [pointwise shape].
  rewrite E, broadcast_shapes_col, numel_2. do 2 f_equal.
  apply tabulate_ext. intros p Hp.
  assert (Hk : 0 < k) by (destruct k; [lia | lia]).
  assert (Hi : p / k < n) by (apply Nat.Div0.div_lt_upper_bound; lia).
  assert (Hj : p mod k < k) by (apply Nat.mod_upper_bound; lia).
  assert (Ep : p = p / k * k + p mod k).
  { rewrite (Nat.div_mod_eq p k) at 1. lia. }
  assert (L : length (data x) = n * k) by (red in W; now rewrite W, E, numel_2).
  rewrite Ep at 1 2.
  change (shape (torch_exp x)) with (shape x). rewrite E.
  rewrite bcast_offset_full, bcast_offset_col by assumption.
  rewrite <- Ep.
  unfold torch_exp. rewrite at_pointwise by lia. f_equal.
  unfold at_ at 1. cbn [data]. rewrite nth_tabulate by assumption.
  apply Rsum_ext. intros c Hc. apply at_pointwise.
  rewrite L. apply pos_lt_2; assumption.
Qed.

Lemma softmax_entry (x : tensor) (n k i j : nat) :
  shape x = [n; k] -> wf x -> i < n -> j < k ->
  exists y, softmax x = Ok y /\ shape y = [n; k] /\ wf y /\
    get y [i; j] = (exp (get x [i; j]) / Rsum k (fun c => exp (get x [i; c])))%R.
Proof.
  intros E W Hi Hj. eexists. split; [apply (softmax_closed x n k E W)|].
  split; [reflexivity|]. split.
  - red. cbn [data shape]. now rewrite length_tabulate, numel_2.
  - rewrite (get_2 _ n k) by reflexivity.
    unfold at_ at 1. cbn [data].
    rewrite nth_tabulate by (apply pos_lt_2; assumption).
    rewrite div_pos_2 by assumption.
    rewrite (get_2 x n k i j E). f_equal.
    apply Rsum_ext. intros c Hc. now rewrite (get_2 x n k i c E).
Qed.

(** C1. On every real matrix [x] with [n >= 1] rows and [k >= 1] columns,
    [softmax] returns a matrix with the same sizes whose entry (i, j) is
    [exp x[i][j]] divided by the sum over [c] of [exp x[i][c]]: the softmax
    formula applied to each row on its own. *)
Theorem softmax_is_rowwise_formula (x : tensor) (n k : nat) :
  1 <= n -> 1 <= k -> shape x = [n; k] -> wf x ->
  exists y, softmax x = Ok y /\ shape y = [n; k] /\ wf y /\
    forall i j, i < n -> j < k ->
      get y [i; j] = (exp (get x [i; j]) / Rsum k (fun c => exp (get x [i; c])))%R.
Proof.
  intros Hn Hk E W.
  destruct (softmax_entry x n k 0 0 E W ltac:(lia) ltac:(lia))
    as (y & Hy & Hs & Hw & _).
  exists y. repeat split; try assumption.
  intros i j Hi Hj.
  destruct (softmax_entry x n k i j E W Hi Hj) as (y' & Hy' & _ & _ & Hg).
  rewrite Hy in Hy'. injection Hy' as <-. exact Hg.
Qed.

Lemma softmax_is_rowwise_formula_witness :
  exists y, softmax scores_1x2 = Ok y /\ shape y = [1; 2] /\ wf y /\
    forall i j, i < 1 -> j < 2 ->
      get y [i; j]
      = (exp (get scores_1x2 [i; j]) / Rsum 2 (fun c => exp (get scores_1x2 [i; c])))%R.
Proof.
  apply (softmax_is_rowwise_formula scores_1x2 1 2);
    [lia | lia | reflexivity | reflexivity].
Defined.

(** C10. On every real matrix with at least one column, the tensor by which
    [softmax] divides, the row sums of the exponentials as a column, has only
    strictly positive entries: no entry of the quotient is a division by
    zero. *)
Theorem softmax_denominator_positive (x : tensor) (n k : nat) :
  1 <= k -> shape x = [n; k] -> wf x ->
  exists v, softmax_denominator x = Ok v /\
    softmax x = tdiv (torch_exp x) v /\
    shape v = [n; 1] /\ wf v /\
    (forall i, i < n ->
       get v [i; 0] = Rsum k (fun c => exp (get x [i; c])) /\ (0 < get v [i; 0%nat])%R) /\
    (forall i j, i < n -> j < k ->
       (0 < at_ v (bcast_offset (shape v) [n; k] (i * k + j)))%R).
Proof.
  intros Hk E W.
  assert (L : length (data x) = n * k) by (red in W; now rewrite W, E, numel_2).
  assert (V : forall i, i < n ->
     at_ (mkT [n; 1] (tabulate n (fun i => Rsum k (fun c => at_ (torch_exp x) (i * k + c))))) i
     = Rsum k (fun c => exp (get x [i; c]))).
  { intros i Hi. unfold at_ at 1. cbn [data]. rewrite nth_tabulate by assumption.
    apply Rsum_ext. intros c Hc. rewrite (get_2 x n k i c E).
    apply at_pointwise. rewrite L. now apply pos_lt_2. }
  assert (P : forall i, (0 < Rsum k (fun c => exp (get x [i; c])))%R).
  { intros i. apply Rsum_pos; [assumption | intros; apply exp_pos]. }
  eexists. split; [apply (softmax_denominator_rows x n k E)|].
  split; [unfold softmax; now rewrite (softmax_denominator_rows x n k E)|].
  split; [reflexivity|]. split.
  - red. cbn [data shape]. rewrite length_tabulate, numel_2. lia.
  - split.
    + intros i Hi. rewrite (get_2 _ n 1) by reflexivity.
      replace (i * 1 + 0) with i by lia. rewrite V by assumption.
      split; [reflexivity | apply P].
    + intros i j Hi Hj. cbn [shape].
      rewrite bcast_offset_col, V by assumption. apply P.
Qed.

Lemma softmax_denominator_positive_witness :
  exists v, softmax_denominator scores_1x2 = Ok v /\
    (forall i, i < 1 -> (0 < get v [i; 0%nat])%R).
Proof.
  destruct (softmax_denominator_positive scores_1x2 1 2)
    as (v & Hv & _ & _ & _ & Hpos & _); [lia | reflexivity | reflexivity |].
  exists v. split; [exact Hv|]. intros i Hi. apply (Hpos i Hi).
Defined.

(** The entries of a row of [softmax x], and their sum. *)
Lemma softmax_row_entry (x : tensor) (n k i j : nat) :
  shape x = [n; k] -> i < n -> j < k ->
  get (mkT [n; k] (tabulate (n * k) (fun p =>
         (exp (at_ x p) / Rsum k (fun c => exp (at_ x (p / k * k + c))))%R))) [i; j]
  = (exp (get x [i; j]) / Rsum k (fun c => exp (get x [i; c])))%R.
Proof.
  intros E Hi Hj. rewrite get_tabulate_2 by assumption.
  rewrite div_pos_2 by assumption.
  rewrite (get_2 x n k i j E). f_equal.
  apply Rsum_ext. intros c Hc. now rewrite (get_2 x n k i c E).
Qed.

Lemma softmax_row_sum (x : tensor) (n k i : nat) :
  1 <= k -> shape x = [n; k] -> wf x -> i < n ->
  exists y, softmax x = Ok y /\ shape y = [n; k] /\
            Rsum k (fun j => get y [i; j]) = 1%R.
Proof.
  intros Hk E W Hi.
  eexists. split; [apply (softmax_closed x n k E W)|]. split; [reflexivity|].
  assert (Hden : (0 < Rsum k (fun c => exp (get x [i; c])))%R)
    by (apply Rsum_pos; [assumption | intros; apply exp_pos]).
  rewrite (Rsum_ext k _ (fun j => (exp (get x [i; j])
                                   / Rsum k (fun c => exp (get x [i; c])))%R))
    by (intros j Hj; now apply softmax_row_entry).
  rewrite Rsum_scale. field. lra.
Qed.

(** C2, as the code has it.  On every real matrix with at least one column,
    each row of [softmax x] is a probability distribution: its entries are
    strictly positive and at most 1, strictly below 1 as soon as there are
    two columns, and they sum to exactly 1. *)
Theorem softmax_rows_are_distributions (x : tensor) (n k : nat) :
  1 <= k -> shape x = [n; k] -> wf x ->
  exists y, softmax x = Ok y /\
    forall i, i < n ->
      Rsum k (fun j => get y [i; j]) = 1%R /\
      forall j, j < k ->
        (0 < get y [i; j] <= 1)%R /\ (2 <= k -> (get y [i; j] < 1)%R).
Proof.
  intros Hk E W.
  eexists. split; [apply (softmax_closed x n k E W)|].
  intros i Hi. split.
  - destruct (softmax_row_sum x n k i Hk E W Hi) as (y & Hy & _ & Hsum).
    rewrite (softmax_closed x n k E W) in Hy. injection Hy as <-. exact Hsum.
  - intros j Hj. rewrite softmax_row_entry by assumption.
    set (den := Rsum k (fun c => exp (get x [i; c]))).
    assert (Hden : (0 < den)%R)
      by (apply Rsum_pos; [assumption | intros; apply exp_pos]).
    assert (Hpos : forall c, c < k -> (0 < exp (get x [i; c]))%R)
      by (intros; apply exp_pos).
    pose proof (Rsum_term_le k (fun c => exp (get x [i; c])) j Hj Hpos) as Hle.
    cbv beta in Hle. fold den in Hle.
    split; [split|].
    + apply Rdiv_lt_0_compat; [apply exp_pos | exact Hden].
    + apply (Rmult_le_reg_r den); [exact Hden|].
      unfold Rdiv. rewrite Rmult_assoc, Rinv_l by lra. lra.
    + intros H2.
      pose proof (Rsum_term_lt k (fun c => exp (get x [i; c])) j Hj H2 Hpos) as Hlt.
      cbv beta in Hlt. fold den in Hlt.
      apply (Rmult_lt_reg_r den); [exact Hden|].
      unfold Rdiv. rewrite Rmult_assoc, Rinv_l by lra. lra.
Qed.

Lemma softmax_rows_are_distributions_witness :
  exists y, softmax scores_1x2 = Ok y /\
    forall i, i < 1 -> Rsum 2 (fun j => get y [i; j]) = 1%R.
Proof.
  destruct (softmax_rows_are_distributions scores_1x2 1 2)
    as (y & Hy & Hrows); [lia | reflexivity | reflexivity |].
  exists y. split; [exact Hy|]. intros i Hi. apply (Hrows i Hi).
Defined.

(** C2 as stated fails on a matrix without columns: [softmax] returns the
    same empty rows, and the entries of an empty row sum to 0. *)
Lemma softmax_no_columns_sums_to_zero :
  wf scores_1x0 /\
  softmax scores_1x0 = Ok scores_1x0 /\
  Rsum 0 (fun j => get scores_1x0 [0; j]) <> 1%R.
Proof.
  split; [reflexivity|]. split.
  - rewrite (softmax_closed scores_1x0 1 0); reflexivity.
  - rewrite Rsum_0. lra.
Qed.

(** ** Matrix product, broadcast addition and linear layers on matrices *)

Lemma mm_ok (a b : tensor) (n k m : nat) :
  shape a = [n; k] -> shape b = [k; m] ->
  mm a b = Ok (mkT [n; m] (tabulate (n * m) (fun p =>
             Rsum k (fun c => (at_ a ((p / m) * k + c) * at_ b (c * m + p mod m))%R)))).
Proof.
  intros Ea Eb. unfold mm. now rewrite Ea, Eb, Nat.eqb_refl.
Qed.

Lemma binop_row (f : R -> R -> R) (a b : tensor) (n k : nat) :
  shape a = [n; k] -> shape b = [k] ->
  binop f a b = Ok (mkT [n; k] (tabulate (n * k) (fun p => f (at_ a p) (at_ b (p mod k))))).
Proof.
  intros Ea Eb. unfold binop. rewrite Ea, Eb, broadcast_shapes_row, numel_2.
  do 2 f_equal. apply tabulate_ext. intros p Hp.
  assert (Hk : 0 < k) by (destruct k; lia).
  assert (Hi : p / k < n) by (apply Nat.Div0.div_lt_upper_bound; lia).
  assert (Hj : p mod k < k) by (apply Nat.mod_upper_bound; lia).
  assert (Ep : p = p / k * k + p mod k).
  { rewrite (Nat.div_mod_eq p k) at 1. lia. }
  rewrite Ep at 1 2.
  rewrite bcast_offset_full, bcast_offset_row by assumption.
  now rewrite <- Ep.
Qed.

(** The first layer of cell 9 on a matrix: affine map, then [tanh]. *)
Lemma manual_layer1_ok (x w1 b1 : tensor) (n d h : nat) :
  shape x = [n; d] -> shape w1 = [d; h] -> shape b1 = [h] ->
  exists y, manual_layer1 x w1 b1 = Ok y /\ shape y = [n; h] /\ wf y /\
    forall i j, i < n -> j < h ->
      get y [i; j]
      = tanh (Rsum d (fun p => get x [i; p] * get w1 [p; j]) + get b1 [j])%R.
Proof.
  intros Ex Ew Eb. unfold manual_layer1.
  rewrite (mm_ok x w1 n d h Ex Ew). cbn [bind].
  unfold tadd. rewrite (binop_row Rplus _ b1 n h) by (reflexivity || assumption).
  cbn [bind]. eexists. split; [reflexivity|].
  split; [reflexivity|]. split.
  - red. unfold torch_tanh, pointwise. cbn [data shape].
    now rewrite length_map, length_tabulate, numel_2.
  - intros i j Hi Hj. unfold torch_tanh, pointwise. cbn [shape data].
    rewrite (get_2 _ n h) by reflexivity.
    unfold at_ at 1. cbn [data].
    rewrite nth_map_in by (rewrite length_tabulate; now apply pos_lt_2).
    rewrite nth_tabulate by now apply pos_lt_2.
    f_equal. unfold at_ at 1. cbn [data].
    rewrite nth_tabulate by now apply pos_lt_2.
    rewrite div_pos_2, mod_pos_2 by assumption.
    f_equal.
    + apply Rsum_ext. intros c Hc.
      now rewrite (get_2 x n d i c Ex), (get_2 w1 d h c j Ew).
    + unfold get. rewrite Eb. cbn [offset numel fold_right]. f_equal. lia.
Qed.

(** The output layer of cell 9 on a matrix: affine map, no activation. *)
Lemma manual_layer2_ok (x w2 b2 : tensor) (n h m : nat) :
  shape x = [n; h] -> shape w2 = [h; m] -> shape b2 = [m] ->
  exists y, manual_layer2 x w2 b2 = Ok y /\ shape y = [n; m] /\ wf y /\
    forall i j, i < n -> j < m ->
      get y [i; j] = (Rsum h (fun p => get x [i; p] * get w2 [p; j]) + get b2 [j])%R.
Proof.
  intros Ex Ew Eb. unfold manual_layer2.
  rewrite (mm_ok x w2 n h m Ex Ew). cbn [bind].
  unfold tadd. rewrite (binop_row Rplus _ b2 n m) by (reflexivity || assumption).
  eexists. split; [reflexivity|].
  split; [reflexivity|]. split.
  - red. cbn [data shape]. now rewrite length_tabulate, numel_2.
  - intros i j Hi Hj. rewrite get_tabulate_2 by assumption.
    unfold at_ at 1. cbn [data].
    rewrite nth_tabulate by now apply pos_lt_2.
    rewrite div_pos_2, mod_pos_2 by assumption.
    f_equal.
    + apply Rsum_ext. intros c Hc.
      now rewrite (get_2 x n h i c Ex), (get_2 w2 h m c j Ew).
    + unfold get. rewrite Eb. cbn [offset numel fold_right]. f_equal. lia.
Qed.

(** Flattening a batch of 64 single-channel 28x28 images. *)
Lemma manual_flatten_ok (images : tensor) :
  shape images = [64; 1; 28; 28] ->
  manual_flatten images = Ok (mkT [64; 784] (data images)).
Proof.
  intros E. unfold manual_flatten, view, infer_size. rewrite E.
  replace (existsb (fun z => (z <? -1)%Z) [64%Z; (-1)%Z]) with false by reflexivity.
  replace (count_inferred [64%Z; (-1)%Z]) with 1 by reflexivity.
  replace (known_numel [64%Z; (-1)%Z]) with 64 by reflexivity.
  replace (numel [64; 1; 28; 28]) with (784 * 64) by reflexivity.
  rewrite Nat.Div0.mod_mul, Nat.div_mul by discriminate.
  reflexivity.
Qed.

(** C6. The forward pass written with matrix products takes a batch of
    sizes (64, 1, 28, 28): every image is flattened to a row of 784 values,
    pixel (h, w) of image i landing at column 28 h + w; the rows go through an
    affine layer 784 -> 256 followed by an elementwise activation and an
    affine layer 256 -> 10; the result has sizes (64, 10). *)
Theorem manual_forward_shapes (images w1 b1 w2 b2 : tensor) :
  shape images = [64; 1; 28; 28] ->
  shape w1 = [784; 256] -> shape b1 = [256] ->
  shape w2 = [256; 10] -> shape b2 = [10] ->
  exists x hid out,
    manual_flatten images = Ok x /\ shape x = [64; 784] /\
    data x = data images /\
    (forall i h w, i < 64 -> h < 28 -> w < 28 ->
       get x [i; h * 28 + w] = get images [i; 0; h; w]) /\
    manual_hidden images w1 b1 = Ok hid /\ shape hid = [64; 256] /\
    (forall i j, i < 64 -> j < 256 ->
       get hid [i; j]
       = tanh (Rsum 784 (fun p => get x [i; p] * get w1 [p; j]) + get b1 [j])%R) /\
    manual_forward images w1 b1 w2 b2 = Ok out /\
    shape out = [64; 10] /\ wf out /\
    (forall i o, i < 64 -> o < 10 ->
       get out [i; o]
       = (Rsum 256 (fun j => get hid [i; j] * get w2 [j; o]) + get b2 [o])%R).
Proof.
  intros Ei Ew1 Eb1 Ew2 Eb2.
  pose proof (manual_flatten_ok images Ei) as Hx.
  destruct (manual_layer1_ok (mkT [64; 784] (data images)) w1 b1 64 784 256
              eq_refl Ew1 Eb1) as (hid & Hh & Sh & Wh & Gh).
  destruct (manual_layer2_ok hid w2 b2 64 256 10 Sh Ew2 Eb2)
    as (out & Ho & So & Wo & Go).
  exists (mkT [64; 784] (data images)), hid, out.
  split; [exact Hx|]. split; [reflexivity|]. split; [reflexivity|]. split.
  { intros i h w Hi Hh' Hw. unfold get, at_. rewrite Ei.
    cbn [shape data offset numel fold_right]. f_equal. lia. }
  assert (Hhid : manual_hidden images w1 b1 = Ok hid).
  { unfold manual_hidden. rewrite Hx. exact Hh. }
  split; [exact Hhid|]. split; [exact Sh|]. split; [exact Gh|].
  split; [unfold manual_forward; rewrite Hhid; exact Ho|].
  split; [exact So|]. split; [exact Wo | exact Go].
Qed.

Lemma manual_forward_shapes_witness :
  exists out,
    manual_forward (zeros [64; 1; 28; 28]) (zeros [784; 256]) (zeros [256])
      (zeros [256; 10]) (zeros [10]) = Ok out /\
    shape out = [64; 10].
Proof.
  destruct (manual_forward_shapes (zeros [64; 1; 28; 28]) (zeros [784; 256])
              (zeros [256]) (zeros [256; 10]) (zeros [10]))
    as (x & hid & out & _ & _ & _ & _ & _ & _ & _ & Ho & So & _);
    try reflexivity.
  exists out. split; [exact Ho | exact So].
Defined.

Lemma Rsum_zero (n : nat) (f : nat -> R) :
  (forall c, c < n -> f c = 0%R) -> Rsum n f = 0%R.
Proof.
  induction n as [|n IH]; intros H; [reflexivity|].
  rewrite Rsum_S, IH, (H n) by auto with arith. lra.
Qed.

Lemma at_full (sizes : list nat) (v : R) (p : nat) :
  p < numel sizes -> at_ (full sizes v) p = v.
Proof. intros Hp. unfold at_, full. cbn [data]. now rewrite nth_tabulate. Qed.

Lemma tanh_minus_one_negative : (tanh (-1) < 0)%R.
Proof.
  unfold tanh. apply Rdiv_neg_pos.
  - rewrite <- sinh_0. apply sinh_lt. lra.
  - unfold cosh. pose proof (exp_pos (-1)). pose proof (exp_pos (- -1)). lra.
Qed.

Lemma sigmoid_fn_pos (v : R) : (0 < sigmoid_fn v)%R.
Proof.
  unfold sigmoid_fn. pose proof (exp_pos (- v)).
  apply Rdiv_lt_0_compat; lra.
Qed.

Lemma relu_fn_nonneg (v : R) : (0 <= relu_fn v)%R.
Proof. unfold relu_fn. apply Rmax_l. Qed.

(** The hidden layer of cell 9 on a batch: flattening, then the first layer. *)
Lemma manual_hidden_ok (images w1 b1 : tensor) :
  shape images = [64; 1; 28; 28] -> shape w1 = [784; 256] -> shape b1 = [256] ->
  exists hid, manual_hidden images w1 b1 = Ok hid /\ shape hid = [64; 256] /\
    forall i j, i < 64 -> j < 256 ->
      get hid [i; j]
      = tanh (Rsum 784 (fun p => get (mkT [64; 784]%nat (data images)) [i; p] * get w1 [p; j])
              + get b1 [j])%R.
Proof.
  intros Ei Ew Eb. unfold manual_hidden.
  rewrite (manual_flatten_ok images Ei). cbn [bind].
  destruct (manual_layer1_ok (mkT [64; 784] (data images)) w1 b1 64 784 256
              eq_refl Ew Eb) as (hid & Hh & Sh & _ & Gh).
  exists hid. auto.
Qed.

(** C5 fails in cell 9: the hidden layer of the forward pass written with
    matrix products applies [tanh].  With zero images, zero weights and a bias
    of -1 the hidden unit is [tanh (-1)], a negative number, where a sigmoid
    or a ReLU can only give a value that is not negative. *)
Theorem manual_hidden_activation_is_tanh :
  exists hid,
    manual_hidden (zeros [64; 1; 28; 28]) (zeros [784; 256]) bias_minus_one = Ok hid /\
    get hid [0; 0] = tanh (-1) /\
    (get hid [0%nat; 0%nat] < 0)%R /\
    (forall v, 0 < sigmoid_fn v)%R /\
    (forall v, 0 <= relu_fn v)%R /\
    get hid [0; 0] <> sigmoid_fn (-1) /\
    get hid [0; 0] <> relu_fn (-1).
Proof.
  destruct (manual_hidden_ok (zeros [64; 1; 28; 28]) (zeros [784; 256])
              bias_minus_one eq_refl eq_refl eq_refl) as (hid & Hh & _ & Gh).
  exists hid. split; [exact Hh|].
  assert (E : get hid [0; 0] = tanh (-1)).
  { rewrite Gh by lia. f_equal.
    rewrite Rsum_zero.
    - unfold get, bias_minus_one. cbn [shape full offset].
      rewrite at_full by (rewrite numel_1; lia). lra.
    - intros c Hc.
      replace (get (zeros [784; 256]) [c; 0]) with 0%R; [lra|].
      unfold get, zeros. cbn [shape full]. rewrite offset_2.
      rewrite at_full by (rewrite numel_2; lia). reflexivity. }
  pose proof tanh_minus_one_negative as Hneg.
  pose proof (sigmoid_fn_pos (-1)) as Hs.
  pose proof (relu_fn_nonneg (-1)) as Hr.
  rewrite E. repeat split; try lra.
  - apply sigmoid_fn_pos.
  - apply relu_fn_nonneg.
Qed.

(** ** Linear layers and the library's softmax *)

Lemma F_linear_ok (x w b : tensor) (i o : nat) (lead : list nat) :
  rev (shape x) = i :: lead -> shape w = [o; i] -> shape b = [o] ->
  F_linear x w b =
    Ok (mkT (rev (o :: lead))
          (tabulate (numel (rev (o :: lead))) (fun p =>
             (Rsum i (fun c => at_ x ((p / o) * i + c) * at_ w ((p mod o) * i + c))
              + at_ b (p mod o))%R))).
Proof.
  intros Ex Ew Eb. unfold F_linear. rewrite Ex, Ew, Eb, !Nat.eqb_refl.
  cbn [negb orb]. do 2 f_equal. apply tabulate_ext. intros p Hp. do 2 f_equal.
  destruct (o =? 1) eqn:E; [|reflexivity].
  apply Nat.eqb_eq in E. subst o. now rewrite Nat.mod_1_r.
Qed.

Lemma F_linear_rows (x w b : tensor) (n i o : nat) :
  shape x = [n; i] -> shape w = [o; i] -> shape b = [o] ->
  exists y, F_linear x w b = Ok y /\ shape y = [n; o] /\ wf y /\
    forall r c, r < n -> c < o ->
      get y [r; c] = (Rsum i (fun q => get x [r; q] * get w [c; q]) + get b [c])%R.
Proof.
  intros Ex Ew Eb.
  rewrite (F_linear_ok x w b i o [n]) by (rewrite ?Ex; reflexivity || assumption).
  cbn [rev app]. rewrite numel_2.
  eexists. split; [reflexivity|]. split; [reflexivity|]. split.
  - red. cbn [data shape]. now rewrite length_tabulate, numel_2.
  - intros r c Hr Hc. rewrite get_tabulate_2 by assumption.
    rewrite div_pos_2, mod_pos_2 by assumption. f_equal.
    + apply Rsum_ext. intros q Hq.
      now rewrite (get_2 x n i r q Ex), (get_2 w o i c q Ew).
    + unfold get. rewrite Eb. cbn [offset numel fold_right]. f_equal. lia.
Qed.

Lemma F_softmax_rows (x : tensor) (n k : nat) :
  shape x = [n; k] ->
  exists y, F_softmax x (Some 1) = Ok y /\ shape y = [n; k] /\ wf y /\
    forall i j, i < n -> j < k ->
      get y [i; j] = (exp (get x [i; j]) / Rsum k (fun c => exp (get x [i; c])))%R.
Proof.
  intros Ex. unfold F_softmax. rewrite Ex.
  cbn [length Nat.ltb Nat.leb nth skipn]. rewrite numel_2.
  eexists. split; [reflexivity|]. split; [reflexivity|]. split.
  - red. cbn [data shape]. now rewrite length_tabulate, numel_2.
  - intros i j Hi Hj. rewrite get_tabulate_2 by assumption.
    cbn [numel fold_right]. rewrite Nat.mul_1_r, Nat.mod_1_r.
    rewrite div_pos_2 by assumption.
    rewrite (get_2 x n k i j Ex). f_equal.
    apply Rsum_ext. intros c Hc. rewrite (get_2 x n k i c Ex).
    do 2 f_equal. lia.
Qed.

Lemma at_pointwise_tab (f : R -> R) (t : tensor) (n k i j : nat) :
  shape t = [n; k] -> wf t -> i < n -> j < k ->
  get (pointwise f t) [i; j] = f (get t [i; j]).
Proof.
  intros E W Hi Hj.
  rewrite (get_2 _ n k) by exact E. rewrite (get_2 t n k i j E).
  apply at_pointwise. red in W. rewrite W, E, numel_2. now apply pos_lt_2.
Qed.

(** The two [Network] classes run the same calls on the same layers. *)
Lemma Network_forward_eq (m1 : Network.t) (m2 : NetworkF.t) (x : tensor) :
  Network.softmax m1 = Softmax_module (Some 1) ->
  Network.hidden m1 = NetworkF.hidden m2 ->
  Network.output m1 = NetworkF.output m2 ->
  Network.forward m1 x = NetworkF.forward m2 x.
Proof.
  intros Es Eh Eo. unfold Network.forward, NetworkF.forward.
  rewrite Eh, Eo. unfold Softmax_forward, Sigmoid_forward, F_sigmoid. rewrite Es.
  destruct (Linear_forward (NetworkF.hidden m2) x) as [h|e]; reflexivity.
Qed.

(** C7. With equal weights and biases, the class of cell 18, written with
    [F.sigmoid] and [F.softmax], and the class of cell 14, written with the
    stored [nn.Sigmoid] and [nn.Softmax(dim=1)] modules, return the same value
    on every input of sizes (n, 784): the hidden affine layer 784 -> 256, a
    sigmoid, the output affine layer 256 -> 10 and the softmax of each row. *)
Theorem Network_classes_agree (m1 : Network.t) (m2 : NetworkF.t) (x : tensor) (n : nat) :
  Network.softmax m1 = Softmax_module (Some 1) ->
  Network.hidden m1 = NetworkF.hidden m2 ->
  Network.output m1 = NetworkF.output m2 ->
  shape (weight (NetworkF.hidden m2)) = [256; 784] ->
  shape (bias (NetworkF.hidden m2)) = [256] ->
  shape (weight (NetworkF.output m2)) = [10; 256] ->
  shape (bias (NetworkF.output m2)) = [10] ->
  shape x = [n; 784] ->
  Network.forward m1 x = NetworkF.forward m2 x /\
  exists y,
    NetworkF.forward m2 x = Ok (PyTensor y) /\ shape y = [n; 10] /\ wf y /\
    forall i c, i < n -> c < 10 ->
      get y [i; c] = described_network (NetworkF.hidden m2) (NetworkF.output m2) x i c.
Proof.
  intros Es Eh Eo Swh Sbh Swo Sbo Ex.
  split; [now apply Network_forward_eq|].
  unfold NetworkF.forward, Linear_forward.
  destruct (F_linear_rows x _ _ n 784 256 Ex Swh Sbh) as (h & Hh & Sh & Wh & Gh).
  rewrite Hh. cbn [bind].
  assert (Ssig : shape (F_sigmoid h) = [n; 256]) by exact Sh.
  destruct (F_linear_rows (F_sigmoid h) _ _ n 256 10 Ssig Swo Sbo)
    as (o & Ho & So & Wo & Go).
  rewrite Ho. cbn [bind].
  destruct (F_softmax_rows o n 10 So) as (y & Hy & Sy & Wy & Gy).
  rewrite Hy. cbn [bind].
  exists y.
  split; [reflexivity|]. split; [exact Sy|]. split; [exact Wy|].
  assert (Hhid : forall i j, i < n -> j < 256 ->
            get (F_sigmoid h) [i; j] = described_hidden (NetworkF.hidden m2) x i j).
  { intros i j Hi Hj. unfold F_sigmoid, torch_sigmoid, described_hidden.
    rewrite (at_pointwise_tab _ h n 256 i j Sh Wh Hi Hj). now rewrite Gh. }
  assert (Hsc : forall i c, i < n -> c < 10 ->
            get o [i; c]
            = described_scores (NetworkF.hidden m2) (NetworkF.output m2) x i c).
  { intros i c Hi Hc. rewrite Go by assumption. unfold described_scores.
    f_equal. apply Rsum_ext. intros j Hj. now rewrite Hhid. }
  intros i c Hi Hc. rewrite Gy by assumption. unfold described_network.
  rewrite Hsc by assumption. f_equal.
  apply Rsum_ext. intros c' Hc'. now rewrite Hsc.
Qed.

Lemma Network_classes_agree_witness :
  Network.forward
    (Network.init (mkLinear (zeros [256; 784]) (zeros [256]))
                  (mkLinear (zeros [10; 256]) (zeros [10])))
    (zeros [1; 784])
  = NetworkF.forward
      (NetworkF.init (mkLinear (zeros [256; 784]) (zeros [256]))
                     (mkLinear (zeros [10; 256]) (zeros [10])))
      (zeros [1; 784]).
Proof.
  apply (Network_classes_agree
           (Network.init (mkLinear (zeros [256; 784]) (zeros [256]))
                         (mkLinear (zeros [10; 256]) (zeros [10])))
           (NetworkF.init (mkLinear (zeros [256; 784]) (zeros [256]))
                          (mkLinear (zeros [10; 256]) (zeros [10])))
           (zeros [1; 784]) 1); reflexivity.
Defined.

(** ** [Net.forward] *)

Lemma F_softmax_implicit_ok (t : tensor) :
  shape t <> [] -> exists y, F_softmax t None = Ok y.
Proof.
  intros Hne. unfold F_softmax.
  destruct (shape t) as [|d0 [|d1 [|d2 [|d3 rest]]]] eqn:E; [congruence | | | |];
    cbn [length implicit_softmax_dim Nat.eqb orb Nat.ltb Nat.leb];
    eexists; reflexivity.
Qed.

Lemma Net_forward_ok (m : Net.t) (x : tensor) (lead : list nat) :
  Net_sizes m -> rev (shape x) = 784 :: lead -> Net.forward m x = Ok PyNone.
Proof.
  intros (W1 & B1 & W2 & B2 & W3 & B3) Ex. unfold Net.forward, Linear_forward.
  rewrite (F_linear_ok x _ _ 784 128 lead Ex W1 B1). cbn [bind].
  rewrite (F_linear_ok _ _ _ 128 64 lead) by
    (try assumption; unfold F_relu, torch_relu, pointwise; cbn [shape];
     now rewrite rev_involutive).
  cbn [bind].
  rewrite (F_linear_ok _ _ _ 64 10 lead) by
    (try assumption; unfold F_relu, torch_relu, pointwise; cbn [shape];
     now rewrite rev_involutive).
  cbn [bind].
  match goal with
  | |- context [F_softmax ?t None] =>
      destruct (F_softmax_implicit_ok t) as (y & Hy)
  end.
  - cbn [shape rev]. intros H. apply (f_equal (@length nat)) in H.
    rewrite length_app in H. cbn in H. lia.
  - rewrite Hy. reflexivity.
Qed.

Lemma Net_forward_only_None (m : Net.t) (x : tensor) (v : pyval) :
  Net.forward m x = Ok v -> v = PyNone.
Proof.
  unfold Net.forward. intros H.
  destruct (Linear_forward (Net.fc1 m) x) as [h1|]; [cbn [bind] in H | discriminate].
  destruct (Linear_forward (Net.fc2 m) (F_relu h1)) as [h2|];
    [cbn [bind] in H | discriminate].
  destruct (Linear_forward (Net.fc3 m) (F_relu h2)) as [h3|];
    [cbn [bind] in H | discriminate].
  destruct (F_softmax h3 None) as [y|]; [cbn [bind] in H | discriminate].
  congruence.
Qed.


(** ** Rules for running cells *)

Lemma wp_bind {A B : Type} (m : M A) (k : A -> M B) Q s :
  wp m (fun s' r => match r with
                    | Ok a => wp (k a) Q s'
                    | Err e => Q s' (Err e)
                    end) s ->
  wp (mbind m k) Q s.
Proof. unfold wp, mbind. destruct (m s) as [s' [a|e]]; cbn; auto. Qed.

Lemma wp_exec (c : M unit) (P : session -> Prop) (s : session) :
  wp c (fun s' _ => P s') s -> P (exec c s).
Proof. unfold wp, exec. auto. Qed.

Lemma wp_ret {A : Type} (a : A) Q s : Q s (Ok a) -> wp (ret a) Q s.
Proof. auto. Qed.

Lemma wp_lift {A : Type} (r : result A) Q s : Q s r -> wp (lift r) Q s.
Proof. auto. Qed.

Lemma wp_assign name v Q s :
  Q (mkSession (draws s) (fetched s) (heap s)
       (fun n => if String.eqb n name then Some v else globals s n) (log s)) (Ok tt) ->
  wp (assign name v) Q s.
Proof. auto. Qed.

Lemma wp_lookup name Q s :
  match globals s name with
  | Some v => Q s (Ok v)
  | None => Q s (Err NameError)
  end ->
  wp (lookup name) Q s.
Proof. unfold wp, lookup. destruct (globals s name); auto. Qed.

Lemma wp_emit e Q s :
  Q (mkSession (draws s) (fetched s) (heap s) (globals s) (log s ++ [e])) (Ok tt) ->
  wp (emit e) Q s.
Proof. auto. Qed.

Lemma wp_fresh_stream w Q s :
  Q (mkSession (S (draws s)) (fetched s) (heap s) (globals s) (log s))
    (Ok (random w (draws s))) ->
  wp (fresh_stream w) Q s.
Proof. auto. Qed.

Lemma wp_fetch w Q s :
  Q (mkSession (draws s) (S (fetched s)) (heap s) (globals s) (log s))
    (Ok (mkT [64; 1; 28; 28] (tabulate (numel [64; 1; 28; 28]) (pixels w (fetched s))),
         mkT [64] (tabulate (numel [64]) (digits w (fetched s))))) ->
  wp (fetch w) Q s.
Proof. auto. Qed.

Lemma wp_alloc o Q s :
  Q (mkSession (draws s) (fetched s) (heap s ++ [o]) (globals s)
       (log s ++ [EvConstruct (length (heap s))])) (Ok (length (heap s))) ->
  wp (alloc o) Q s.
Proof. auto. Qed.

Lemma wp_deref id Q s :
  match nth_error (heap s) id with
  | Some o => Q s (Ok o)
  | None => Q s (Err NameError)
  end ->
  wp (deref id) Q s.
Proof. unfold wp, deref. destruct (nth_error (heap s) id); auto. Qed.

Lemma wp_store id o Q s :
  Q (mkSession (draws s) (fetched s) (replace_nth id o (heap s)) (globals s) (log s))
    (Ok tt) ->
  wp (store id o) Q s.
Proof. auto. Qed.

Ltac wp_rule :=
  lazymatch goal with
  | |- wp (mbind _ _) _ _ => apply wp_bind
  | |- wp (ret _) _ _ => apply wp_ret
  | |- wp (lift _) _ _ => apply wp_lift
  | |- wp (assign _ _) _ _ => apply wp_assign
  | |- wp (lookup _) _ _ => apply wp_lookup
  | |- wp (emit _) _ _ => apply wp_emit
  | |- wp (fresh_stream _) _ _ => apply wp_fresh_stream
  | |- wp (fetch _) _ _ => apply wp_fetch
  | |- wp (alloc _) _ _ => apply wp_alloc
  | |- wp (deref _) _ _ => apply wp_deref
  | |- wp (store _ _) _ _ => apply wp_store
  end.

Ltac wp_simpl :=
  cbn beta iota delta [draws fetched heap globals log fst snd
                       String.eqb Ascii.eqb Bool.eqb].

Ltac wp_case :=
  match goal with
  | |- match ?x with _ => _ end => destruct x eqn:?
  | |- wp (match ?x with _ => _ end) _ _ => destruct x eqn:?
  end.

Ltac wp_run :=
  repeat first
    [ wp_rule; wp_simpl
    | progress unfold lookup_tensor, lookup_module, draw, nn_Linear, call_forward
    | progress wp_simpl ].

Ltac wp_all := repeat first [ progress wp_run | wp_case ].

Lemma cell5_passive (w : world) : passive (cell5 w).
Proof. intros s. apply wp_exec. unfold cell5. wp_all. repeat split. Qed.

Lemma cell9_passive (w : world) : passive (cell9 w).
Proof. intros s. apply wp_exec. unfold cell9. wp_all; repeat split; congruence. Qed.

Lemma cell11_passive : passive cell11.
Proof. intros s. apply wp_exec. unfold cell11. wp_all; repeat split; congruence. Qed.

Lemma cell23_passive : passive cell23.
Proof. intros s. apply wp_exec. unfold cell23. wp_all; repeat split; congruence. Qed.

Lemma cell32_passive : passive cell32.
Proof. intros s. apply wp_exec. unfold cell32. wp_all; repeat split; congruence. Qed.

Lemma cell36_passive : passive cell36.
Proof. intros s. apply wp_exec. unfold cell36. wp_all; repeat split; congruence. Qed.

Lemma nth_error_snoc {A : Type} (l : list A) (a : A) :
  nth_error (l ++ [a]) (length l) = Some a.
Proof. rewrite nth_error_app2 by lia. now rewrite Nat.sub_diag. Qed.

Lemma cell16_exec (w : world) (s : session) :
  exists o,
    heap (exec (cell16 w) s) = heap s ++ [o] /\
    log (exec (cell16 w) s) = log s ++ [EvConstruct (length (heap s))] /\
    globals (exec (cell16 w) s) "model" = Some (PyModule (length (heap s))).
Proof.
  apply (wp_exec (cell16 w)
           (fun s' => exists o, heap s' = heap s ++ [o] /\
              log s' = log s ++ [EvConstruct (length (heap s))] /\
              globals s' "model" = Some (PyModule (length (heap s))))).
  unfold cell16. wp_run. eexists. repeat split.
Qed.

Lemma cell21_exec (w : world) (s : session) :
  exists m, Net_sizes m /\
    heap (exec (cell21 w) s) = heap s ++ [ObjNet m] /\
    log (exec (cell21 w) s) = log s ++ [EvConstruct (length (heap s))] /\
    globals (exec (cell21 w) s) "model" = Some (PyModule (length (heap s))).
Proof.
  apply (wp_exec (cell21 w)
           (fun s' => exists m, Net_sizes m /\ heap s' = heap s ++ [ObjNet m] /\
              log s' = log s ++ [EvConstruct (length (heap s))] /\
              globals s' "model" = Some (PyModule (length (heap s))))).
  unfold cell21. wp_run. eexists. split; [|repeat split]. repeat split.
Qed.

Lemma cell34_exec (w : world) (s : session) :
  exists o,
    heap (exec (cell34 w) s) = heap s ++ [o] /\
    log (exec (cell34 w) s) = log s ++ [EvConstruct (length (heap s))] /\
    globals (exec (cell34 w) s) "model" = Some (PyModule (length (heap s))).
Proof.
  apply (wp_exec (cell34 w)
           (fun s' => exists o, heap s' = heap s ++ [o] /\
              log s' = log s ++ [EvConstruct (length (heap s))] /\
              globals s' "model" = Some (PyModule (length (heap s))))).
  unfold cell34. wp_run. eexists. repeat split.
Qed.

Lemma cell25_exec (s : session) (id : nat) (m : Net.t) :
  globals s "model" = Some (PyModule id) ->
  nth_error (heap s) id = Some (ObjNet m) ->
  heap (exec cell25 s) = replace_nth id (ObjNet (after_fill m)) (heap s) /\
  log (exec cell25 s) = log s ++ [EvFill id "fc1"] /\
  globals (exec cell25 s) "model" = Some (PyModule id).
Proof.
  intros Hm Ho.
  apply (wp_exec cell25
           (fun s' => heap s' = replace_nth id (ObjNet (after_fill m)) (heap s) /\
              log s' = log s ++ [EvFill id "fc1"] /\
              globals s' "model" = Some (PyModule id))).
  unfold cell25. wp_run. rewrite Hm. wp_run. rewrite Ho. wp_run.
  cbn [get_linear set_linear String.eqb Ascii.eqb Bool.eqb]. wp_run.
  repeat split. exact Hm.
Qed.

Lemma cell26_exec (w : world) (s : session) (id : nat) (m : Net.t) :
  globals s "model" = Some (PyModule id) ->
  nth_error (heap s) id = Some (ObjNet m) ->
  exists f,
    heap (exec (cell26 w) s) = replace_nth id (ObjNet (after_normal f m)) (heap s) /\
    log (exec (cell26 w) s) = log s ++ [EvNormal id "fc1"] /\
    globals (exec (cell26 w) s) "model" = Some (PyModule id).
Proof.
  intros Hm Ho.
  apply (wp_exec (cell26 w)
           (fun s' => exists f,
              heap s' = replace_nth id (ObjNet (after_normal f m)) (heap s) /\
              log s' = log s ++ [EvNormal id "fc1"] /\
              globals s' "model" = Some (PyModule id))).
  unfold cell26. wp_run. rewrite Hm. wp_run. rewrite Ho. wp_run.
  cbn [get_linear set_linear String.eqb Ascii.eqb Bool.eqb]. wp_run.
  eexists. repeat split. exact Hm.
Qed.

Lemma select0_all_resized (u : nat -> R) (t : tensor) (d0 : nat) :
  0 < d0 ->
  exists arg, select0_all (resize_ u t [d0; 1; 784]) 0 = Ok arg /\ shape arg = [1; 784].
Proof.
  intros H. unfold select0_all, select0, resize_. cbn [shape].
  destruct d0; [lia|]. cbn [Nat.ltb Nat.leb]. eexists. split; reflexivity.
Qed.

Lemma Sequential_mlp_ok (n0 n1 n2 n3 n4 n5 : string) (l0 l2 l4 : Linear)
      (r1 r3 : nn_ReLU) (x : tensor) (n : nat) :
  Net_sizes (Net.init l0 l2 l4) -> shape x = [n; 784] ->
  exists y,
    Sequential.forward
      [(n0, LLinear l0); (n1, LReLU r1); (n2, LLinear l2); (n3, LReLU r3);
       (n4, LLinear l4); (n5, LSoftmax (Softmax_module (Some 1)))] x
    = Ok (PyTensor y) /\ shape y = [n; 10] /\ wf y.
Proof.
  intros (W1 & B1 & W2 & B2 & W3 & B3) Ex.
  cbn [Net.init Net.fc1 Net.fc2 Net.fc3] in *.
  unfold Sequential.forward.
  cbn [Sequential.run layer_forward]. unfold Linear_forward, ReLU_forward, Softmax_forward.
  destruct (F_linear_rows x _ _ n 784 128 Ex W1 B1) as (h1 & H1 & S1 & _).
  rewrite H1. cbn [bind softmax_dim].
  destruct (F_linear_rows (torch_relu h1) _ _ n 128 64 S1 W2 B2) as (h2 & H2 & S2 & _).
  rewrite H2. cbn [bind].
  destruct (F_linear_rows (torch_relu h2) _ _ n 64 10 S2 W3 B3) as (h3 & H3 & S3 & _).
  rewrite H3. cbn [bind].
  destruct (F_softmax_rows h3 n 10 S3) as (y & Hy & Sy & Wy & _).
  rewrite Hy. cbn [bind]. exists y. repeat split; assumption.
Qed.

Lemma cell28_exec (w : world) (s : session) (id : nat) (m : Net.t) :
  globals s "model" = Some (PyModule id) ->
  nth_error (heap s) id = Some (ObjNet m) ->
  Net_sizes m ->
  heap (exec (cell28 w) s) = heap s /\
  log (exec (cell28 w) s) = log s ++ [EvForward id] /\
  globals (exec (cell28 w) s) "model" = Some (PyModule id) /\
  globals (exec (cell28 w) s) "ps" = Some PyNone.
Proof.
  intros Hm Ho Hs.
  apply (wp_exec (cell28 w)
           (fun s' => heap s' = heap s /\ log s' = log s ++ [EvForward id] /\
              globals s' "model" = Some (PyModule id) /\
              globals s' "ps" = Some PyNone)).
  unfold cell28. wp_run.
  match goal with
  | |- context [select0_all (resize_ ?u ?t [64; 1; 784]) 0] =>
      destruct (select0_all_resized u t 64 ltac:(lia)) as (arg & Harg & Sarg)
  end.
  rewrite Harg. wp_run. rewrite Hm. wp_run. rewrite Ho. wp_run.
  cbn [obj_forward].
  rewrite (Net_forward_ok m arg [1]) by (try assumption; now rewrite Sarg).
  wp_all; repeat split; assumption.
Qed.

Lemma cell30_exec (w : world) (s : session) :
  exists o y,
    heap (exec (cell30 w) s) = heap s ++ [o] /\
    log (exec (cell30 w) s)
    = log s ++ [EvConstruct (length (heap s)); EvForward (length (heap s))] /\
    globals (exec (cell30 w) s) "model" = Some (PyModule (length (heap s))) /\
    globals (exec (cell30 w) s) "ps" = Some (PyTensor y) /\ shape y = [1; 10] /\ wf y.
Proof.
  apply (wp_exec (cell30 w)
           (fun s' => exists o y, heap s' = heap s ++ [o] /\
              log s' = log s ++ [EvConstruct (length (heap s)); EvForward (length (heap s))] /\
              globals s' "model" = Some (PyModule (length (heap s))) /\
              globals s' "ps" = Some (PyTensor y) /\ shape y = [1; 10] /\ wf y)).
  unfold cell30. wp_run. cbn [shape]. wp_run.
  match goal with
  | |- context [select0_all (resize_ ?u ?t [64; 1; 784]) 0] =>
      destruct (select0_all_resized u t 64 ltac:(lia)) as (arg & Harg & Sarg)
  end.
  rewrite Harg. wp_run. rewrite nth_error_snoc. wp_run.
  cbn [obj_forward].
  match goal with
  | |- context [Sequential.forward
                  [(_, LLinear ?l0); _; (_, LLinear ?l2); _; (_, LLinear ?l4); _] arg] =>
      destruct (Sequential_mlp_ok "0" "1" "2" "3" "4" "5" l0 l2 l4 ReLU_module ReLU_module
                  arg 1 ltac:(repeat split) Sarg) as (y & Hy & Sy & Wy)
  end.
  rewrite Hy. wp_all; (do 2 eexists; rewrite <- app_assoc; repeat split; eassumption).
Qed.

Lemma firstn_snoc {A : Type} (l : list A) (k : nat) (c : A) :
  nth_error l k = Some c -> firstn (S k) l = firstn k l ++ [c].
Proof.
  revert k. induction l as [|a l IH]; intros [|k] H; try discriminate.
  - injection H as ->. reflexivity.
  - cbn [nth_error] in H. cbn [firstn app]. f_equal.
    change (firstn (S k) l = firstn k l ++ [c]). now apply IH.
Qed.

Lemma session_after_step (w : world) (k : nat) (c : M unit) :
  nth_error (notebook w) k = Some c ->
  session_after w (S k) = exec c (session_after w k).
Proof.
  intros H. unfold session_after, run_cells.
  rewrite (firstn_snoc _ _ _ H), fold_left_app. reflexivity.
Qed.

Lemma session_after_end (w : world) (k : nat) :
  13 <= k -> session_after w k = session_after w 13.
Proof.
  intros H. unfold session_after.
  rewrite !firstn_all2; [reflexivity | reflexivity | exact H].
Qed.

Lemma Net_sizes_after_fill (m : Net.t) : Net_sizes m -> Net_sizes (after_fill m).
Proof. intros (A & B & C); repeat split; try tauto. Qed.

Lemma Net_sizes_after_normal (f : nat -> R) (m : Net.t) :
  Net_sizes m -> Net_sizes (after_normal f m).
Proof. intros (A & B & C); repeat split; try tauto. Qed.

Lemma notebook_trace (w : world) :
  exists (o0 : module_obj) (m : Net.t) (f : nat -> R) (o2 o3 : module_obj) (y : tensor),
    Net_sizes m /\ shape y = [1; 10] /\ wf y /\
    globals (session_after w 9) "ps" = Some PyNone /\
    globals (session_after w 10) "ps" = Some (PyTensor y) /\
    log (session_after w 13)
    = [EvConstruct 0; EvConstruct 1; EvFill 1 "fc1"; EvNormal 1 "fc1";
       EvForward 1; EvConstruct 2; EvForward 2; EvConstruct 3] /\
    (forall k, heap (session_after w k) = heap_after o0 m f o2 o3 k) /\
    (forall k, 5 <= k <= 9 -> globals (session_after w k) "model" = Some (PyModule 1)).
Proof.
  assert (H0 : heap (session_after w 0) = []) by reflexivity.
  assert (L0 : log (session_after w 0) = []) by reflexivity.
  destruct (cell5_passive w (session_after w 0)) as (H1 & L1 & _).
  rewrite <- (session_after_step w 0 _ eq_refl) in H1, L1. rewrite H0 in H1. rewrite L0 in L1.
  destruct (cell9_passive w (session_after w 1)) as (H2 & L2 & _).
  rewrite <- (session_after_step w 1 _ eq_refl) in H2, L2. rewrite H1 in H2. rewrite L1 in L2.
  destruct (cell11_passive (session_after w 2)) as (H3 & L3 & _).
  rewrite <- (session_after_step w 2 _ eq_refl) in H3, L3. rewrite H2 in H3. rewrite L2 in L3.
  destruct (cell16_exec w (session_after w 3)) as (o0 & H4 & L4 & M4).
  rewrite <- (session_after_step w 3 _ eq_refl) in H4, L4, M4.
  rewrite H3 in H4, L4, M4. rewrite L3 in L4. cbn [app length] in H4, L4, M4.
  destruct (cell21_exec w (session_after w 4)) as (m & Sm & H5 & L5 & M5).
  rewrite <- (session_after_step w 4 _ eq_refl) in H5, L5, M5.
  rewrite H4 in H5, L5, M5. rewrite L4 in L5. cbn [app length] in H5, L5, M5.
  destruct (cell23_passive (session_after w 5)) as (H6 & L6 & M6).
  rewrite <- (session_after_step w 5 _ eq_refl) in H6, L6, M6.
  rewrite H5 in H6. rewrite L5 in L6. rewrite M5 in M6.
  destruct (cell25_exec (session_after w 6) 1 m M6) as (H7 & L7 & M7);
    [now rewrite H6|].
  rewrite <- (session_after_step w 6 _ eq_refl) in H7, L7, M7.
  rewrite H6 in H7. rewrite L6 in L7. cbn [app replace_nth] in H7, L7.
  destruct (cell26_exec w (session_after w 7) 1 (after_fill m) M7) as (f & H8 & L8 & M8);
    [now rewrite H7|].
  rewrite <- (session_after_step w 7 _ eq_refl) in H8, L8, M8.
  rewrite H7 in H8. rewrite L7 in L8. cbn [app replace_nth] in H8, L8.
  destruct (cell28_exec w (session_after w 8) 1 (after_normal f (after_fill m)) M8)
    as (H9 & L9 & M9 & P9);
    [now rewrite H8 | now apply Net_sizes_after_normal, Net_sizes_after_fill |].
  rewrite <- (session_after_step w 8 _ eq_refl) in H9, L9, M9, P9.
  rewrite H8 in H9. rewrite L8 in L9. cbn [app] in L9.
  destruct (cell30_exec w (session_after w 9)) as (o2 & y & H10 & L10 & M10 & P10 & Sy & Wy).
  rewrite <- (session_after_step w 9 _ eq_refl) in H10, L10, M10, P10.
  rewrite H9 in H10, L10, M10. rewrite L9 in L10. cbn [app length] in H10, L10, M10.
  destruct (cell32_passive (session_after w 10)) as (H11 & L11 & _).
  rewrite <- (session_after_step w 10 _ eq_refl) in H11, L11.
  rewrite H10 in H11. rewrite L10 in L11.
  destruct (cell34_exec w (session_after w 11)) as (o3 & H12 & L12 & _).
  rewrite <- (session_after_step w 11 _ eq_refl) in H12, L12.
  rewrite H11 in H12, L12. rewrite L11 in L12. cbn [app length] in H12, L12.
  destruct (cell36_passive (session_after w 12)) as (H13 & L13 & _).
  rewrite <- (session_after_step w 12 _ eq_refl) in H13, L13.
  rewrite H12 in H13. rewrite L12 in L13.
  exists o0, m, f, o2, o3, y.
  split; [exact Sm|]. split; [exact Sy|]. split; [exact Wy|].
  split; [exact P9|]. split; [exact P10|]. split; [exact L13|].
  split.
  2: { intros k Hk.
       assert (Ek : k = 5 \/ k = 6 \/ k = 7 \/ k = 8 \/ k = 9) by lia.
       destruct Ek as [->|[->|[->|[->| ->]]]]; assumption. }
  intros k.
  destruct k as [|k]; [exact H0|]. destruct k as [|k]; [exact H1|].
  destruct k as [|k]; [exact H2|]. destruct k as [|k]; [exact H3|].
  destruct k as [|k]; [exact H4|]. destruct k as [|k]; [exact H5|].
  destruct k as [|k]; [exact H6|]. destruct k as [|k]; [exact H7|].
  destruct k as [|k]; [exact H8|]. destruct k as [|k]; [exact H9|].
  destruct k as [|k]; [exact H10|]. destruct k as [|k]; [exact H11|].
  destruct k as [|k]; [exact H12|].
  rewrite session_after_end by lia. exact H13.
Qed.

(** ** Parameters across the session *)

Lemma get_linear_after_fill (name : string) (m : Net.t) :
  name <> "fc1"%string ->
  get_linear name (ObjNet (after_fill m)) = get_linear name (ObjNet m).
Proof.
  intros H. cbn [get_linear]. destruct (String.eqb name "fc1") eqn:E.
  - apply String.eqb_eq in E. contradiction.
  - reflexivity.
Qed.

Lemma get_linear_after_normal (name : string) (f : nat -> R) (m : Net.t) :
  name <> "fc1"%string ->
  get_linear name (ObjNet (after_normal f m)) = get_linear name (ObjNet m).
Proof.
  intros H. cbn [get_linear]. destruct (String.eqb name "fc1") eqn:E.
  - apply String.eqb_eq in E. contradiction.
  - reflexivity.
Qed.

Lemma read_heap_app (hp tl : list module_obj) id name p v :
  read_heap hp id name p = Some v -> read_heap (hp ++ tl) id name p = Some v.
Proof.
  unfold read_heap. destruct (nth_error hp id) as [o|] eqn:E; [|discriminate].
  rewrite nth_error_app1 by (apply nth_error_Some; congruence).
  now rewrite E.
Qed.

(** A step of the notebook leaves every parameter that is not in layer [fc1]
    of object 1 as it is. *)
Lemma heap_after_frame o0 m f o2 o3 (k : nat) id name p v :
  ~ (id = 1 /\ name = "fc1"%string) ->
  read_heap (heap_after o0 m f o2 o3 k) id name p = Some v ->
  read_heap (heap_after o0 m f o2 o3 (S k)) id name p = Some v.
Proof.
  intros Hne.
  assert (Hfill : read_heap [o0; ObjNet m] id name p = Some v ->
                  read_heap [o0; ObjNet (after_fill m)] id name p = Some v).
  { unfold read_heap. destruct id as [|[|id]]; cbn [nth_error]; auto.
    rewrite get_linear_after_fill; auto. }
  assert (Hnormal : read_heap [o0; ObjNet (after_fill m)] id name p = Some v ->
                    read_heap [o0; ObjNet (after_normal f (after_fill m))] id name p = Some v).
  { unfold read_heap. destruct id as [|[|id]]; cbn [nth_error]; auto.
    rewrite get_linear_after_normal; auto. }
  destruct k as [|k]; [exact (fun H => H)|].
  destruct k as [|k]; [exact (fun H => H)|].
  destruct k as [|k]; [exact (fun H => H)|].
  destruct k as [|k]; [apply (read_heap_app [] [o0])|].
  destruct k as [|k]; [apply (read_heap_app [o0] [ObjNet m])|].
  destruct k as [|k]; [exact (fun H => H)|].
  destruct k as [|k]; [exact Hfill|].
  destruct k as [|k]; [exact Hnormal|].
  destruct k as [|k]; [exact (fun H => H)|].
  destruct k as [|k]; [apply (read_heap_app [_; _] [o2])|].
  destruct k as [|k]; [exact (fun H => H)|].
  destruct k as [|k]; [apply (read_heap_app [_; _; _] [o3])|].
  exact (fun H => H).
Qed.

(** The bias of [fc1] of object 1 changes in cell 25 only (step 6), its
    weight in cell 26 only (step 7). *)
Lemma heap_after_fc1_bias o0 m f o2 o3 (k : nat) v :
  k <> 6 ->
  read_heap (heap_after o0 m f o2 o3 k) 1 "fc1" Bias = Some v ->
  read_heap (heap_after o0 m f o2 o3 (S k)) 1 "fc1" Bias = Some v.
Proof.
  intros Hk.
  do 6 (destruct k as [|k]; [try discriminate; exact (fun H => H)|]).
  destruct k as [|k]; [congruence|].
  do 6 (destruct k as [|k]; [exact (fun H => H)|]).
  exact (fun H => H).
Qed.

Lemma heap_after_fc1_weight o0 m f o2 o3 (k : nat) v :
  k <> 7 ->
  read_heap (heap_after o0 m f o2 o3 k) 1 "fc1" Weight = Some v ->
  read_heap (heap_after o0 m f o2 o3 (S k)) 1 "fc1" Weight = Some v.
Proof.
  intros Hk.
  do 7 (destruct k as [|k]; [try discriminate; exact (fun H => H)|]).
  destruct k as [|k]; [congruence|].
  do 5 (destruct k as [|k]; [exact (fun H => H)|]).
  exact (fun H => H).
Qed.

Lemma steps_between (P : nat -> Prop) (ok : nat -> Prop) :
  (forall k, ok k -> P k -> P (S k)) ->
  forall k1 k2, k1 <= k2 -> (forall k, k1 <= k < k2 -> ok k) -> P k1 -> P k2.
Proof.
  intros Hstep k1 k2 Hle. induction Hle as [|k2 Hle IH]; intros Hok H1; [exact H1|].
  apply Hstep; [apply Hok; lia|]. apply IH; [|exact H1].
  intros k Hk. apply Hok. lia.
Qed.

(** C3. Over the whole session the only parameter tensors that are ever
    modified are the bias and the weight of layer [fc1] of the [Net] object
    (object 1), by [fill_(0)] in cell 25 and by [normal_(std=0.01)] in cell
    26: every other parameter of every module object keeps, from the moment it
    exists, the value it was created with; the calls recorded over the whole
    notebook are constructors, these two initialisations and forward calls. *)
Theorem only_fc1_is_modified (w : world) :
  (forall k1 k2 id name p v, k1 <= k2 ->
     ~ (id = 1 /\ name = "fc1"%string) ->
     read_param (session_after w k1) id name p = Some v ->
     read_param (session_after w k2) id name p = Some v) /\
  (forall k1 k2 v, k1 <= k2 -> k2 <= 6 \/ 7 <= k1 ->
     read_param (session_after w k1) 1 "fc1" Bias = Some v ->
     read_param (session_after w k2) 1 "fc1" Bias = Some v) /\
  (forall k1 k2 v, k1 <= k2 -> k2 <= 7 \/ 8 <= k1 ->
     read_param (session_after w k1) 1 "fc1" Weight = Some v ->
     read_param (session_after w k2) 1 "fc1" Weight = Some v) /\
  (exists m,
     nth_error (heap (session_after w 5)) 1 = Some (ObjNet m) /\
     forall k, 5 <= k <= 9 ->
       globals (session_after w k) "model" = Some (PyModule 1)) /\
  (exists b,
     read_param (session_after w 6) 1 "fc1" Bias = Some b /\
     read_param (session_after w 7) 1 "fc1" Bias = Some (fill_ b 0)) /\
  (exists wt f,
     read_param (session_after w 7) 1 "fc1" Weight = Some wt /\
     read_param (session_after w 8) 1 "fc1" Weight = Some (normal_ f wt (1 / 100))) /\
  log (session_after w 13)
  = [EvConstruct 0; EvConstruct 1; EvFill 1 "fc1"; EvNormal 1 "fc1";
     EvForward 1; EvConstruct 2; EvForward 2; EvConstruct 3] /\
  filter is_write (log (session_after w 13)) = [EvFill 1 "fc1"; EvNormal 1 "fc1"].
Proof.
  destruct (notebook_trace w) as (o0 & m & f & o2 & o3 & y & _ & _ & _ & _ & _ & HL & HH & HM).
  unfold read_param. split; [|split; [|split; [|split; [|split; [|split; [|split]]]]]].
  - intros k1 k2 id name p v Hle Hne.
    apply (steps_between
             (fun k => read_heap (heap (session_after w k)) id name p = Some v)
             (fun _ => True)); [|exact Hle|trivial].
    intros k _. rewrite !HH. now apply heap_after_frame.
  - intros k1 k2 v Hle Hk.
    apply (steps_between
             (fun k => read_heap (heap (session_after w k)) 1 "fc1" Bias = Some v)
             (fun k => k <> 6)); [|exact Hle|intros; lia].
    intros k Hk6. rewrite !HH. now apply heap_after_fc1_bias.
  - intros k1 k2 v Hle Hk.
    apply (steps_between
             (fun k => read_heap (heap (session_after w k)) 1 "fc1" Weight = Some v)
             (fun k => k <> 7)); [|exact Hle|intros; lia].
    intros k Hk7. rewrite !HH. now apply heap_after_fc1_weight.
  - exists m. split; [rewrite HH; reflexivity | exact HM].
  - exists (bias (Net.fc1 m)). rewrite !HH. split; reflexivity.
  - exists (weight (Net.fc1 m)), f. rewrite !HH. split; reflexivity.
  - exact HL.
  - rewrite HL. reflexivity.
Qed.

Lemma only_fc1_is_modified_witness :
  exists b,
    read_param (session_after quiet_world 6) 1 "fc1" Bias = Some b /\
    read_param (session_after quiet_world 13) 1 "fc1" Bias = Some (fill_ b 0).
Proof.
  destruct (only_fc1_is_modified quiet_world)
    as (_ & Hbias & _ & _ & (b & H6 & H7) & _).
  exists b. split; [exact H6|].
  apply (Hbias 7 13); [lia | right; lia | exact H7].
Defined.






(** C9, as the code has it.  On every input whose last dimension is 784,
    the width that layer [fc1] accepts, [Net.forward] runs its three layers
    and returns [None], because its body has no [return]; whatever the input,
    it never returns anything else; and [ps], bound in cell 28 to
    [model.forward(images[img_idx,:])], is [None]. *)
Theorem Net_forward_returns_None (w : world) :
  (forall m x lead, Net_sizes m -> rev (shape x) = 784 :: lead ->
     Net.forward m x = Ok PyNone) /\
  (forall m x v, Net.forward m x = Ok v -> v = PyNone) /\
  globals (session_after w 9) "ps" = Some PyNone.
Proof.
  split; [exact Net_forward_ok|]. split; [exact Net_forward_only_None|].
  destruct (notebook_trace w) as (o0 & m & f & o2 & o3 & y & _ & _ & _ & P9 & _).
  exact P9.
Qed.

Lemma Net_forward_returns_None_witness :
  Net.forward zero_Net (zeros [1; 784]) = Ok PyNone.
Proof.
  apply (proj1 (Net_forward_returns_None quiet_world) zero_Net (zeros [1; 784]) [1]).
  - repeat split.
  - reflexivity.
Defined.

(** C9 as stated fails on an input of the wrong width: [Net.forward] does not
    return [None] there, it raises the size mismatch of the first linear
    layer. *)
Lemma Net_forward_raises_on_wrong_width :
  Net_sizes zero_Net /\
  Net.forward zero_Net three_columns = Err SizeMismatch /\
  Net.forward zero_Net three_columns <> Ok PyNone.
Proof.
  split; [repeat split|]. split; [reflexivity | discriminate].
Qed.

(** ** Failures *)

Lemma bind_Err {A B : Type} (m : result A) (k : A -> result B) (e : py_error) :
  bind m k = Err e <-> m = Err e \/ exists a, m = Ok a /\ k a = Err e.
Proof.
  destruct m as [a|e']; cbn [bind]; split.
  - intros H. right. now exists a.
  - intros [H|(a' & H & H')]; [discriminate | now injection H as <-].
  - intros H. injection H as ->. now left.
  - intros [H|(a' & H & _)]; [now injection H as -> | discriminate].
Qed.

Lemma bind_Ok_inv {A B : Type} (m : result A) (k : A -> result B) (b : B) :
  bind m k = Ok b -> exists a, m = Ok a /\ k a = Ok b.
Proof. destruct m as [a|e]; cbn [bind]; [eauto | discriminate]. Qed.

Lemma softmax_Err (x : tensor) (e : py_error) :
  softmax x = Err e <->
    tsum (torch_exp x) 1 = Err e \/
    (exists s, tsum (torch_exp x) 1 = Ok s /\ view s [(-1)%Z; 1%Z] = Err e) \/
    (exists s v, tsum (torch_exp x) 1 = Ok s /\ view s [(-1)%Z; 1%Z] = Ok v /\
                 tdiv (torch_exp x) v = Err e).
Proof.
  unfold softmax, softmax_denominator. rewrite bind_Err, bind_Err. split.
  - intros [[H|(s & Hs & Hv)]|(v & Hd & Hdiv)]; [now left | right; left; eauto |].
    apply bind_Ok_inv in Hd. destruct Hd as (s & Hs & Hv).
    right; right. eauto.
  - intros [H|[(s & Hs & Hv)|(s & v & Hs & Hv & Hd)]].
    + left. now left.
    + left. right. eauto.
    + right. exists v. split; [|exact Hd]. rewrite Hs. exact Hv.
Qed.

Lemma softmax_low_rank (x : tensor) :
  length (shape x) < 2 -> softmax x = Err DimOutOfRange.
Proof.
  intros H. unfold softmax, softmax_denominator, tsum.
  change (shape (torch_exp x)) with (shape x).
  destruct (shape x) as [|d0 [|d1 rest]]; cbn in H; try lia; reflexivity.
Qed.

Lemma Linear_forward_wrong_width (l : Linear) (x : tensor) (last o i o' : nat)
      (lead : list nat) :
  rev (shape x) = last :: lead -> shape (weight l) = [o; i] -> shape (bias l) = [o'] ->
  last <> i -> Linear_forward l x = Err SizeMismatch.
Proof.
  intros Ex Ew Eb Hne. unfold Linear_forward, F_linear. rewrite Ex, Ew, Eb.
  apply Nat.eqb_neq in Hne. now rewrite Hne.
Qed.

Lemma Net_forward_Err (m : Net.t) (x : tensor) (e : py_error) :
  Net.forward m x = Err e <->
    Linear_forward (Net.fc1 m) x = Err e \/
    exists h1, Linear_forward (Net.fc1 m) x = Ok h1 /\
      (Linear_forward (Net.fc2 m) (F_relu h1) = Err e \/
       exists h2, Linear_forward (Net.fc2 m) (F_relu h1) = Ok h2 /\
         (Linear_forward (Net.fc3 m) (F_relu h2) = Err e \/
          exists h3, Linear_forward (Net.fc3 m) (F_relu h2) = Ok h3 /\
            F_softmax h3 None = Err e)).
Proof.
  unfold Net.forward. split.
  - intros H.
    destruct (Linear_forward (Net.fc1 m) x) as [h1|e1]; cbn [bind] in H;
      [|left; congruence].
    right. exists h1. split; [reflexivity|].
    destruct (Linear_forward (Net.fc2 m) (F_relu h1)) as [h2|e2]; cbn [bind] in H;
      [|left; congruence].
    right. exists h2. split; [reflexivity|].
    destruct (Linear_forward (Net.fc3 m) (F_relu h2)) as [h3|e3]; cbn [bind] in H;
      [|left; congruence].
    right. exists h3. split; [reflexivity|].
    destruct (F_softmax h3 None) as [y|e4]; cbn [bind] in H; congruence.
  - intros [H1|(h1 & H1 & [H2|(h2 & H2 & [H3|(h3 & H3 & H4)])])];
      rewrite H1; cbn [bind]; try reflexivity;
      rewrite H2; cbn [bind]; try reflexivity;
      rewrite H3; cbn [bind]; try reflexivity;
      rewrite H4; reflexivity.
Qed.

Lemma manual_flatten_Err (images : tensor) :
  numel (shape images) mod 64 <> 0 -> manual_flatten images = Err InvalidShape.
Proof.
  intros H. unfold manual_flatten, view, infer_size.
  replace (existsb (fun z => (z <? -1)%Z) [64%Z; (-1)%Z]) with false by reflexivity.
  replace (count_inferred [64%Z; (-1)%Z]) with 1 by reflexivity.
  replace (known_numel [64%Z; (-1)%Z]) with 64 by reflexivity.
  apply Nat.eqb_neq in H. rewrite H. reflexivity.
Qed.

Lemma resize_unchecked (u : nat -> R) (t : tensor) (sizes : list nat) :
  shape (resize_ u t sizes) = sizes /\ wf (resize_ u t sizes) /\
  forall p, p < numel sizes ->
    at_ (resize_ u t sizes) p = if p <? length (data t) then at_ t p else u p.
Proof.
  split; [reflexivity|]. split.
  - red. unfold resize_. cbn [data shape]. apply length_tabulate.
  - intros p Hp. unfold at_ at 1, resize_. cbn [data]. now rewrite nth_tabulate.
Qed.

(** A failing [softmax] stops cell 11 with the same exception and nothing is
    bound to [probabilities]. *)
Lemma cell11_raises (s : session) (out : tensor) (e : py_error) :
  globals s "out" = Some (PyTensor out) -> softmax out = Err e ->
  snd (cell11 s) = Err e /\ fst (cell11 s) = s.
Proof.
  intros Ho He.
  change (wp cell11 (fun s' r => r = Err e /\ s' = s) s).
  unfold cell11. wp_run. rewrite Ho. wp_run. rewrite He. split; reflexivity.
Qed.

(** On a tensor of sizes (a, b, c) the sums over dimension 1 come back as a
    column of a*c values, which the division cannot broadcast against. *)
Lemma softmax_division_raises (x : tensor) (a b c : nat) :
  shape x = [a; b; c] -> bdim b (a * c) = None ->
  softmax x = Err BroadcastMismatch.
Proof.
  intros E Hb. unfold softmax, softmax_denominator.
  unfold tsum. change (shape (torch_exp x)) with (shape x). rewrite E.
  cbn [length Nat.ltb Nat.leb nth skipn firstn app bind].
  rewrite view_column. cbn [bind shape].
  unfold tdiv, binop. change (shape (torch_exp x)) with (shape x). rewrite E.
  cbn [shape]. unfold broadcast_shapes. cbn [rev app bshape_rev].
  rewrite bdim_1_r, numel_2, Hb. reflexivity.
Qed.

(** The [forward] methods of the two [Network] classes: every call they make
    can raise, and what it raises leaves [forward] unchanged. *)
Lemma Network_forward_Err (m : Network.t) (x : tensor) (e : py_error) :
  Network.forward m x = Err e <->
    Linear_forward (Network.hidden m) x = Err e \/
    exists h, Linear_forward (Network.hidden m) x = Ok h /\
      (Linear_forward (Network.output m) (torch_sigmoid h) = Err e \/
       exists o, Linear_forward (Network.output m) (torch_sigmoid h) = Ok o /\
         F_softmax o (softmax_dim (Network.softmax m)) = Err e).
Proof.
  unfold Network.forward, Sigmoid_forward, Softmax_forward. split.
  - intros H.
    destruct (Linear_forward (Network.hidden m) x) as [h|e1]; cbn [bind] in H;
      [|left; congruence].
    right. exists h. split; [reflexivity|].
    destruct (Linear_forward (Network.output m) (torch_sigmoid h)) as [o|e2];
      cbn [bind] in H; [|left; congruence].
    right. exists o. split; [reflexivity|].
    destruct (F_softmax o (softmax_dim (Network.softmax m))) as [y|e3];
      cbn [bind] in H; congruence.
  - intros [H1|(h & H1 & [H2|(o & H2 & H3)])];
      rewrite H1; cbn [bind]; try reflexivity;
      rewrite H2; cbn [bind]; try reflexivity;
      rewrite H3; reflexivity.
Qed.

Lemma NetworkF_forward_Err (m : NetworkF.t) (x : tensor) (e : py_error) :
  NetworkF.forward m x = Err e <->
    Linear_forward (NetworkF.hidden m) x = Err e \/
    exists h, Linear_forward (NetworkF.hidden m) x = Ok h /\
      (Linear_forward (NetworkF.output m) (F_sigmoid h) = Err e \/
       exists o, Linear_forward (NetworkF.output m) (F_sigmoid h) = Ok o /\
         F_softmax o (Some 1) = Err e).
Proof.
  unfold NetworkF.forward. split.
  - intros H.
    destruct (Linear_forward (NetworkF.hidden m) x) as [h|e1]; cbn [bind] in H;
      [|left; congruence].
    right. exists h. split; [reflexivity|].
    destruct (Linear_forward (NetworkF.output m) (F_sigmoid h)) as [o|e2];
      cbn [bind] in H; [|left; congruence].
    right. exists o. split; [reflexivity|].
    destruct (F_softmax o (Some 1)) as [y|e3]; cbn [bind] in H; congruence.
  - intros [H1|(h & H1 & [H2|(o & H2 & H3)])];
      rewrite H1; cbn [bind]; try reflexivity;
      rewrite H2; cbn [bind]; try reflexivity;
      rewrite H3; reflexivity.
Qed.

(** An [nn.Sequential] raises exactly when one of its layers, given what the
    layers before it returned, raises. *)
Lemma Sequential_run_Err (ls : Sequential.t) (x : tensor) (e : py_error) :
  Sequential.run ls x = Err e <->
    exists pre n l post y,
      ls = pre ++ (n, l) :: post /\ Sequential.run pre x = Ok y /\
      layer_forward l y = Err e.
Proof.
  revert x. induction ls as [|[n0 l0] ls IH]; intros x; cbn [Sequential.run].
  - split; [discriminate|].
    intros (pre & n & l & post & y & E & _). now destruct pre.
  - split.
    + intros H. destruct (layer_forward l0 x) as [y0|e0] eqn:E0; cbn [bind] in H.
      * apply IH in H. destruct H as (pre & n & l & post & y & E & Hp & Hl).
        exists ((n0, l0) :: pre), n, l, post, y. subst ls.
        split; [reflexivity|]. split; [|exact Hl].
        cbn [Sequential.run]. now rewrite E0.
      * injection H as ->. exists [], n0, l0, ls, x. auto.
    + intros (pre & n & l & post & y & E & Hp & Hl). destruct pre as [|[n1 l1] pre].
      * cbn [app] in E. injection E as -> -> ->.
        cbn [Sequential.run] in Hp. injection Hp as ->. now rewrite Hl.
      * cbn [app] in E. injection E as -> -> ->.
        cbn [Sequential.run] in Hp. apply bind_Ok_inv in Hp.
        destruct Hp as (y0 & E0 & Hp). rewrite E0. cbn [bind].
        apply IH. exists pre, n, l, post, y. auto.
Qed.

Lemma Sequential_forward_Err (ls : Sequential.t) (x : tensor) (e : py_error) :
  Sequential.forward ls x = Err e <->
    exists pre n l post y,
      ls = pre ++ (n, l) :: post /\ Sequential.run pre x = Ok y /\
      layer_forward l y = Err e.
Proof.
  rewrite <- Sequential_run_Err. unfold Sequential.forward.
  destruct (Sequential.run ls x) as [y|e']; cbn [bind]; split; congruence.
Qed.

(** The forward pass of cell 9 raises exactly when [view], one of the two
    matrix products or one of the two additions raises. *)
Lemma manual_forward_Err (images w1 b1 w2 b2 : tensor) (e : py_error) :
  manual_forward images w1 b1 w2 b2 = Err e <->
    view images [64%Z; (-1)%Z] = Err e \/
    exists x, view images [64%Z; (-1)%Z] = Ok x /\
      (mm x w1 = Err e \/
       exists h, mm x w1 = Ok h /\
         (tadd h b1 = Err e \/
          exists a, tadd h b1 = Ok a /\
            (mm (torch_tanh a) w2 = Err e \/
             exists o, mm (torch_tanh a) w2 = Ok o /\ tadd o b2 = Err e))).
Proof.
  unfold manual_forward, manual_hidden, manual_flatten, manual_layer1, manual_layer2.
  split.
  - intros H.
    destruct (view images [64%Z; (-1)%Z]) as [x|e1]; cbn [bind] in H;
      [|left; congruence].
    right. exists x. split; [reflexivity|].
    destruct (mm x w1) as [h|e2]; cbn [bind] in H; [|left; congruence].
    right. exists h. split; [reflexivity|].
    destruct (tadd h b1) as [a|e3]; cbn [bind] in H; [|left; congruence].
    right. exists a. split; [reflexivity|].
    destruct (mm (torch_tanh a) w2) as [o|e4]; cbn [bind] in H; [|left; congruence].
    right. exists o. split; [reflexivity|]. exact H.
  - intros [H1|(x & H1 & [H2|(h & H2 & [H3|(a & H3 & [H4|(o & H4 & H5)])])])];
      rewrite H1; cbn [bind]; try reflexivity;
      rewrite H2; cbn [bind]; try reflexivity;
      rewrite H3; cbn [bind]; try reflexivity;
      rewrite H4; cbn [bind]; try reflexivity;
      exact H5.
Qed.

(** ** Failures after the first call *)

Lemma F_linear_no_dimension (x w b : tensor) :
  shape x = [] -> F_linear x w b = Err NotAMatrix.
Proof. intros E. unfold F_linear. now rewrite E. Qed.

(** The output layer fails on the hidden activations when its input width is
    not the width of the hidden layer. *)
Lemma second_layer_wrong_width (l1 l2 : Linear) (act : R -> R) (x : tensor)
      (i o i2 o2 o2' : nat) (lead : list nat) :
  rev (shape x) = i :: lead ->
  shape (weight l1) = [o; i] -> shape (bias l1) = [o] ->
  shape (weight l2) = [o2; i2] -> shape (bias l2) = [o2'] -> o <> i2 ->
  exists h, Linear_forward l1 x = Ok h /\
            Linear_forward l2 (pointwise act h) = Err SizeMismatch.
Proof.
  intros Ex W1 B1 W2 B2 Hne. unfold Linear_forward at 1.
  rewrite (F_linear_ok x _ _ i o lead Ex W1 B1). eexists. split; [reflexivity|].
  apply (Linear_forward_wrong_width l2 _ o o2 i2 o2' lead); try assumption.
  cbn [pointwise shape]. apply rev_involutive.
Qed.

Lemma Network_output_wrong_width (m : Network.t) (x : tensor)
      (i o i2 o2 o2' : nat) (lead : list nat) :
  rev (shape x) = i :: lead ->
  shape (weight (Network.hidden m)) = [o; i] -> shape (bias (Network.hidden m)) = [o] ->
  shape (weight (Network.output m)) = [o2; i2] ->
  shape (bias (Network.output m)) = [o2'] -> o <> i2 ->
  Network.forward m x = Err SizeMismatch.
Proof.
  intros Ex W1 B1 W2 B2 Hne.
  destruct (second_layer_wrong_width _ _ sigmoid_fn x i o i2 o2 o2' lead Ex W1 B1 W2 B2 Hne)
    as (h & H1 & H2).
  apply Network_forward_Err. right. exists h. split; [exact H1|]. left. exact H2.
Qed.

Lemma NetworkF_output_wrong_width (m : NetworkF.t) (x : tensor)
      (i o i2 o2 o2' : nat) (lead : list nat) :
  rev (shape x) = i :: lead ->
  shape (weight (NetworkF.hidden m)) = [o; i] -> shape (bias (NetworkF.hidden m)) = [o] ->
  shape (weight (NetworkF.output m)) = [o2; i2] ->
  shape (bias (NetworkF.output m)) = [o2'] -> o <> i2 ->
  NetworkF.forward m x = Err SizeMismatch.
Proof.
  intros Ex W1 B1 W2 B2 Hne.
  destruct (second_layer_wrong_width _ _ sigmoid_fn x i o i2 o2 o2' lead Ex W1 B1 W2 B2 Hne)
    as (h & H1 & H2).
  apply NetworkF_forward_Err. right. exists h. split; [exact H1|]. left. exact H2.
Qed.

Lemma Net_fc2_wrong_width (m : Net.t) (x : tensor)
      (i o i2 o2 o2' : nat) (lead : list nat) :
  rev (shape x) = i :: lead ->
  shape (weight (Net.fc1 m)) = [o; i] -> shape (bias (Net.fc1 m)) = [o] ->
  shape (weight (Net.fc2 m)) = [o2; i2] ->
  shape (bias (Net.fc2 m)) = [o2'] -> o <> i2 ->
  Net.forward m x = Err SizeMismatch.
Proof.
  intros Ex W1 B1 W2 B2 Hne.
  destruct (second_layer_wrong_width _ _ relu_fn x i o i2 o2 o2' lead Ex W1 B1 W2 B2 Hne)
    as (h & H1 & H2).
  apply Net_forward_Err. right. exists h. split; [exact H1|]. left. exact H2.
Qed.

(** With the sizes of the constructor, what [Network.forward] does is decided
    by the sizes of its input: no dimension or a last dimension other than
    784 fails in the hidden layer, a vector of 784 values passes both layers
    and fails in the softmax over dimension 1, and everything else returns. *)
Lemma NetworkF_forward_by_shape (h o : Linear) (x : tensor) :
  shape (weight h) = [256; 784] -> shape (bias h) = [256] ->
  shape (weight o) = [10; 256] -> shape (bias o) = [10] ->
  (shape x = [] -> NetworkF.forward (NetworkF.init h o) x = Err NotAMatrix) /\
  (forall last lead, rev (shape x) = last :: lead -> last <> 784 ->
     NetworkF.forward (NetworkF.init h o) x = Err SizeMismatch) /\
  (shape x = [784] -> NetworkF.forward (NetworkF.init h o) x = Err DimOutOfRange) /\
  (forall lead, rev (shape x) = 784 :: lead -> lead <> [] ->
     exists y, NetworkF.forward (NetworkF.init h o) x = Ok (PyTensor y) /\
               shape y = rev (10 :: lead)).
Proof.
  intros W1 B1 W2 B2.
  assert (Two : forall lead, rev (shape x) = 784 :: lead ->
            exists h1 o1, Linear_forward h x = Ok h1 /\
                          Linear_forward o (F_sigmoid h1) = Ok o1 /\
                          shape o1 = rev (10 :: lead)).
  { intros lead Ex. unfold Linear_forward.
    rewrite (F_linear_ok x _ _ 784 256 lead Ex W1 B1). eexists. eexists.
    split; [reflexivity|].
    split; [apply (F_linear_ok _ _ _ 256 10 lead); try assumption|reflexivity].
    unfold F_sigmoid, torch_sigmoid. cbn [pointwise shape]. apply rev_involutive. }
  split; [|split; [|split]].
  - intros E. apply NetworkF_forward_Err. left.
    apply (F_linear_no_dimension x _ _ E).
  - intros last lead Ex Hne. apply NetworkF_forward_Err. left.
    apply (Linear_forward_wrong_width h x last 256 784 256 lead Ex W1 B1 Hne).
  - intros E. destruct (Two [] ltac:(now rewrite E)) as (h1 & o1 & H1 & H2 & S2).
    apply NetworkF_forward_Err. right. exists h1. split; [exact H1|].
    right. exists o1. split; [exact H2|]. unfold F_softmax. now rewrite S2.
  - intros lead Ex Hne. destruct (Two lead Ex) as (h1 & o1 & H1 & H2 & S2).
    unfold NetworkF.forward. cbn [NetworkF.init NetworkF.hidden NetworkF.output].
    rewrite H1. cbn [bind]. rewrite H2. cbn [bind].
    unfold F_softmax. rewrite S2.
    assert (L : (1 <? length (rev (10 :: lead))) = true).
    { apply Nat.ltb_lt. rewrite length_rev. destruct lead; [congruence | cbn; lia]. }
    rewrite L. cbn [bind]. eexists. split; reflexivity.
Qed.

Lemma Network_forward_by_shape (h o : Linear) (x : tensor) :
  shape (weight h) = [256; 784] -> shape (bias h) = [256] ->
  shape (weight o) = [10; 256] -> shape (bias o) = [10] ->
  (shape x = [] -> Network.forward (Network.init h o) x = Err NotAMatrix) /\
  (forall last lead, rev (shape x) = last :: lead -> last <> 784 ->
     Network.forward (Network.init h o) x = Err SizeMismatch) /\
  (shape x = [784] -> Network.forward (Network.init h o) x = Err DimOutOfRange) /\
  (forall lead, rev (shape x) = 784 :: lead -> lead <> [] ->
     exists y, Network.forward (Network.init h o) x = Ok (PyTensor y) /\
               shape y = rev (10 :: lead)).
Proof.
  intros W1 B1 W2 B2.
  rewrite (Network_forward_eq (Network.init h o) (NetworkF.init h o) x)
    by reflexivity.
  now apply NetworkF_forward_by_shape.
Qed.

(** The forward pass of cell 9 after [view]: a batch of the wrong number of
    pixels fails in the first matrix product, a bias of the wrong length in
    the addition, a second weight matrix of the wrong height in the second
    product. *)
Lemma manual_forward_wrong_pixels (images w1 b1 w2 b2 : tensor) (k h : nat) :
  numel (shape images) mod 64 = 0 -> shape w1 = [k; h] ->
  numel (shape images) / 64 <> k ->
  manual_forward images w1 b1 w2 b2 = Err SizeMismatch.
Proof.
  intros Hm Ew Hne. apply manual_forward_Err. right.
  exists (mkT [64; numel (shape images) / 64] (data images)). split.
  - unfold view, infer_size.
    replace (existsb (fun z => (z <? -1)%Z) [64%Z; (-1)%Z]) with false by reflexivity.
    replace (count_inferred [64%Z; (-1)%Z]) with 1 by reflexivity.
    replace (known_numel [64%Z; (-1)%Z]) with 64 by reflexivity.
    rewrite Hm. reflexivity.
  - left. unfold mm. cbn [shape]. rewrite Ew.
    apply Nat.eqb_neq in Hne. now rewrite Hne.
Qed.

Lemma manual_forward_wrong_bias (images w1 b1 w2 b2 : tensor) (h h' : nat) :
  shape images = [64; 1; 28; 28] -> shape w1 = [784; h] -> shape b1 = [h'] ->
  h' <> h -> h' <> 1 -> h <> 1 ->
  manual_forward images w1 b1 w2 b2 = Err BroadcastMismatch.
Proof.
  intros Ei Ew Eb N1 N2 N3. apply manual_forward_Err. right.
  exists (mkT [64; 784] (data images)). split; [apply (manual_flatten_ok images Ei)|].
  right. eexists. split.
  - unfold mm. cbn [shape]. rewrite Ew. reflexivity.
  - left. unfold tadd, binop, broadcast_shapes. cbn [shape]. rewrite Eb.
    cbn [rev app bshape_rev]. unfold bdim.
    apply Nat.eqb_neq in N2, N3.
    assert (N1' : (h =? h') = false) by (apply Nat.eqb_neq; congruence).
    now rewrite N1', N2, N3.
Qed.

Lemma manual_forward_wrong_output_weights (images w1 b1 w2 b2 : tensor) (k m : nat) :
  shape images = [64; 1; 28; 28] -> shape w1 = [784; 256] -> shape b1 = [256] ->
  shape w2 = [k; m] -> k <> 256 ->
  manual_forward images w1 b1 w2 b2 = Err SizeMismatch.
Proof.
  intros Ei Ew Eb Ew2 Hne.
  destruct (manual_hidden_ok images w1 b1 Ei Ew Eb) as (hid & Hh & Sh & _).
  unfold manual_forward. rewrite Hh. cbn [bind]. unfold manual_layer2, mm.
  rewrite Sh, Ew2.
  assert (N : (256 =? k) = false) by (apply Nat.eqb_neq; congruence).
  now rewrite N.
Qed.

(** ** Failures in the session *)

(** A [forward] that raises ends the call with its exception. *)
Lemma call_forward_raises (id : nat) (x : tensor) (o : module_obj) (e : py_error)
      (s : session) :
  nth_error (heap s) id = Some o -> obj_forward o x = Err e ->
  snd (call_forward id x s) = Err e /\
  globals (fst (call_forward id x s)) = globals s /\
  heap (fst (call_forward id x s)) = heap s.
Proof.
  intros Ho He.
  change (wp (call_forward id x)
             (fun s' r => r = Err e /\ globals s' = globals s /\ heap s' = heap s) s).
  wp_run. rewrite Ho. wp_run. rewrite He. repeat split.
Qed.

(** Cell 28 passes one image of sizes (1, 784) to [model.forward]; when that
    raises, the cell ends with the same exception and [ps] keeps what it was
    bound to. *)
Lemma cell28_raises (w : world) (s : session) (id : nat) (o : module_obj) :
  globals s "model" = Some (PyModule id) -> nth_error (heap s) id = Some o ->
  exists arg, shape arg = [1; 784] /\
    forall e, obj_forward o arg = Err e ->
      snd (cell28 w s) = Err e /\ globals (fst (cell28 w s)) "ps" = globals s "ps".
Proof.
  intros Hm Ho.
  destruct (select0_all_resized (uninit w)
              (mkT [64; 1; 28; 28]
                   (tabulate (numel [64; 1; 28; 28]) (pixels w (fetched s))))
              64 ltac:(lia)) as (arg & Harg & Sarg).
  exists arg. split; [exact Sarg|]. intros e He.
  change (wp (cell28 w)
             (fun s' r => r = Err e /\ globals s' "ps" = globals s "ps") s).
  unfold cell28. wp_run. rewrite Harg. wp_run. rewrite Hm. wp_run.
  rewrite Ho. wp_run. rewrite He. split; reflexivity.
Qed.

(** C8. Nothing in the notebook checks its input or handles a failure.
    [softmax], the forward pass of cell 9 and the [forward] methods of the
    four models raise exactly when one of the framework calls they make
    raises, whichever call it is, and then with that call's exception.  So a
    tensor with fewer than two dimensions makes [softmax] fail in
    [sum(dim=1)] and one with three in the division; an input of the wrong
    width makes the first linear layer fail with the framework's size
    mismatch, a second layer of the wrong width fails after the first has
    run, and a vector of 784 values passes both layers of [Network] and fails
    in the softmax over dimension 1; the pass of cell 9 fails in [view], in a
    matrix product or in an addition, depending on which tensor has the wrong
    sizes; [resize_] accepts any tensor and any sizes; and an exception ends
    the cell that raised it: nothing is bound to [probabilities] in cell 11
    or to [ps] in cell 28. *)
Theorem failures_are_the_frameworks :
  (forall x e,
     softmax x = Err e <->
       tsum (torch_exp x) 1 = Err e \/
       (exists s, tsum (torch_exp x) 1 = Ok s /\ view s [(-1)%Z; 1%Z] = Err e) \/
       (exists s v, tsum (torch_exp x) 1 = Ok s /\ view s [(-1)%Z; 1%Z] = Ok v /\
                    tdiv (torch_exp x) v = Err e)) /\
  (forall x, length (shape x) < 2 -> softmax x = Err DimOutOfRange) /\
  (forall m x e,
     Net.forward m x = Err e <->
       Linear_forward (Net.fc1 m) x = Err e \/
       exists h1, Linear_forward (Net.fc1 m) x = Ok h1 /\
         (Linear_forward (Net.fc2 m) (F_relu h1) = Err e \/
          exists h2, Linear_forward (Net.fc2 m) (F_relu h1) = Ok h2 /\
            (Linear_forward (Net.fc3 m) (F_relu h2) = Err e \/
             exists h3, Linear_forward (Net.fc3 m) (F_relu h2) = Ok h3 /\
               F_softmax h3 None = Err e))) /\
  (forall m x e,
     Linear_forward (Network.hidden m) x = Err e -> Network.forward m x = Err e) /\
  (forall m x e,
     Linear_forward (NetworkF.hidden m) x = Err e -> NetworkF.forward m x = Err e) /\
  (forall n l ls x e,
     layer_forward l x = Err e -> Sequential.forward ((n, l) :: ls) x = Err e) /\
  (forall l x last o i o' lead,
     rev (shape x) = last :: lead -> shape (weight l) = [o; i] ->
     shape (bias l) = [o'] -> last <> i ->
     Linear_forward l x = Err SizeMismatch) /\
  (forall images w1 b1 w2 b2,
     numel (shape images) mod 64 <> 0 ->
     manual_forward images w1 b1 w2 b2 = Err InvalidShape) /\
  (forall u t sizes,
     shape (resize_ u t sizes) = sizes /\ wf (resize_ u t sizes) /\
     forall p, p < numel sizes ->
       at_ (resize_ u t sizes) p = if p <? length (data t) then at_ t p else u p) /\
  (forall s out e,
     globals s "out" = Some (PyTensor out) -> softmax out = Err e ->
     snd (cell11 s) = Err e /\ fst (cell11 s) = s) /\
  (forall m x e,
     Network.forward m x = Err e <->
       Linear_forward (Network.hidden m) x = Err e \/
       exists h, Linear_forward (Network.hidden m) x = Ok h /\
         (Linear_forward (Network.output m) (torch_sigmoid h) = Err e \/
          exists o, Linear_forward (Network.output m) (torch_sigmoid h) = Ok o /\
            F_softmax o (softmax_dim (Network.softmax m)) = Err e)) /\
  (forall m x e,
     NetworkF.forward m x = Err e <->
       Linear_forward (NetworkF.hidden m) x = Err e \/
       exists h, Linear_forward (NetworkF.hidden m) x = Ok h /\
         (Linear_forward (NetworkF.output m) (F_sigmoid h) = Err e \/
          exists o, Linear_forward (NetworkF.output m) (F_sigmoid h) = Ok o /\
            F_softmax o (Some 1) = Err e)) /\
  (forall ls x e,
     Sequential.forward ls x = Err e <->
       exists pre n l post y,
         ls = pre ++ (n, l) :: post /\ Sequential.run pre x = Ok y /\
         layer_forward l y = Err e) /\
  (forall images w1 b1 w2 b2 e,
     manual_forward images w1 b1 w2 b2 = Err e <->
       view images [64%Z; (-1)%Z] = Err e \/
       exists x, view images [64%Z; (-1)%Z] = Ok x /\
         (mm x w1 = Err e \/
          exists h, mm x w1 = Ok h /\
            (tadd h b1 = Err e \/
             exists a, tadd h b1 = Ok a /\
               (mm (torch_tanh a) w2 = Err e \/
                exists o, mm (torch_tanh a) w2 = Ok o /\ tadd o b2 = Err e)))) /\
  (forall x a b c,
     shape x = [a; b; c] -> b <> a * c -> b <> 1 -> a * c <> 1 ->
     softmax x = Err BroadcastMismatch) /\
  (forall m x i o i2 o2 o2' lead,
     rev (shape x) = i :: lead ->
     shape (weight (Network.hidden m)) = [o; i] ->
     shape (bias (Network.hidden m)) = [o] ->
     shape (weight (Network.output m)) = [o2; i2] ->
     shape (bias (Network.output m)) = [o2'] -> o <> i2 ->
     Network.forward m x = Err SizeMismatch) /\
  (forall m x i o i2 o2 o2' lead,
     rev (shape x) = i :: lead ->
     shape (weight (NetworkF.hidden m)) = [o; i] ->
     shape (bias (NetworkF.hidden m)) = [o] ->
     shape (weight (NetworkF.output m)) = [o2; i2] ->
     shape (bias (NetworkF.output m)) = [o2'] -> o <> i2 ->
     NetworkF.forward m x = Err SizeMismatch) /\
  (forall m x i o i2 o2 o2' lead,
     rev (shape x) = i :: lead ->
     shape (weight (Net.fc1 m)) = [o; i] -> shape (bias (Net.fc1 m)) = [o] ->
     shape (weight (Net.fc2 m)) = [o2; i2] -> shape (bias (Net.fc2 m)) = [o2'] ->
     o <> i2 ->
     Net.forward m x = Err SizeMismatch) /\
  (forall h o x,
     shape (weight h) = [256; 784] -> shape (bias h) = [256] ->
     shape (weight o) = [10; 256] -> shape (bias o) = [10] ->
     (shape x = [] -> Network.forward (Network.init h o) x = Err NotAMatrix) /\
     (forall last lead, rev (shape x) = last :: lead -> last <> 784 ->
        Network.forward (Network.init h o) x = Err SizeMismatch) /\
     (shape x = [784] -> Network.forward (Network.init h o) x = Err DimOutOfRange) /\
     (forall lead, rev (shape x) = 784 :: lead -> lead <> [] ->
        exists y, Network.forward (Network.init h o) x = Ok (PyTensor y) /\
                  shape y = rev (10 :: lead))) /\
  (forall h o x,
     shape (weight h) = [256; 784] -> shape (bias h) = [256] ->
     shape (weight o) = [10; 256] -> shape (bias o) = [10] ->
     (shape x = [] -> NetworkF.forward (NetworkF.init h o) x = Err NotAMatrix) /\
     (forall last lead, rev (shape x) = last :: lead -> last <> 784 ->
        NetworkF.forward (NetworkF.init h o) x = Err SizeMismatch) /\
     (shape x = [784] -> NetworkF.forward (NetworkF.init h o) x = Err DimOutOfRange) /\
     (forall lead, rev (shape x) = 784 :: lead -> lead <> [] ->
        exists y, NetworkF.forward (NetworkF.init h o) x = Ok (PyTensor y) /\
                  shape y = rev (10 :: lead))) /\
  (forall images w1 b1 w2 b2 k h,
     numel (shape images) mod 64 = 0 -> shape w1 = [k; h] ->
     numel (shape images) / 64 <> k ->
     manual_forward images w1 b1 w2 b2 = Err SizeMismatch) /\
  (forall images w1 b1 w2 b2 h h',
     shape images = [64; 1; 28; 28] -> shape w1 = [784; h] -> shape b1 = [h'] ->
     h' <> h -> h' <> 1 -> h <> 1 ->
     manual_forward images w1 b1 w2 b2 = Err BroadcastMismatch) /\
  (forall images w1 b1 w2 b2 k m,
     shape images = [64; 1; 28; 28] -> shape w1 = [784; 256] -> shape b1 = [256] ->
     shape w2 = [k; m] -> k <> 256 ->
     manual_forward images w1 b1 w2 b2 = Err SizeMismatch) /\
  (forall id x o e s,
     nth_error (heap s) id = Some o -> obj_forward o x = Err e ->
     snd (call_forward id x s) = Err e /\
     globals (fst (call_forward id x s)) = globals s /\
     heap (fst (call_forward id x s)) = heap s) /\
  (forall w s id o,
     globals s "model" = Some (PyModule id) -> nth_error (heap s) id = Some o ->
     exists arg, shape arg = [1; 784] /\
       forall e, obj_forward o arg = Err e ->
         snd (cell28 w s) = Err e /\
         globals (fst (cell28 w s)) "ps" = globals s "ps").
Proof.
  split; [exact softmax_Err|]. split; [exact softmax_low_rank|].
  split; [exact Net_forward_Err|].
  split; [intros m x e H; unfold Network.forward; now rewrite H|].
  split; [intros m x e H; unfold NetworkF.forward; now rewrite H|].
  split; [intros n l ls x e H; unfold Sequential.forward; cbn [Sequential.run];
          now rewrite H|].
  split; [exact Linear_forward_wrong_width|].
  split; [intros images w1 b1 w2 b2 H; unfold manual_forward, manual_hidden;
          now rewrite manual_flatten_Err|].
  split; [exact resize_unchecked|]. split; [exact cell11_raises|].
  split; [exact Network_forward_Err|]. split; [exact NetworkF_forward_Err|].
  split; [exact Sequential_forward_Err|]. split; [exact manual_forward_Err|].
  split.
  { intros x a b c E Hb Hb1 Hac. apply (softmax_division_raises x a b c E).
    unfold bdim. apply Nat.eqb_neq in Hb, Hb1, Hac. now rewrite Hb, Hb1, Hac. }
  split; [exact Network_output_wrong_width|].
  split; [exact NetworkF_output_wrong_width|].
  split; [exact Net_fc2_wrong_width|].
  split; [exact Network_forward_by_shape|].
  split; [exact NetworkF_forward_by_shape|].
  split; [exact manual_forward_wrong_pixels|].
  split; [exact manual_forward_wrong_bias|].
  split; [exact manual_forward_wrong_output_weights|].
  split; [exact call_forward_raises|]. exact cell28_raises.
Qed.

Lemma failures_are_the_frameworks_witness :
  softmax scores_3 = Err DimOutOfRange.
Proof.
  apply (proj1 (proj2 failures_are_the_frameworks) scores_3).
  cbn. lia.
Defined.

(** ** The outputs recorded in the notebook

    The saved notebook shows [torch.Size([64, 1, 28, 28])] under cell 5,
    [torch.Size([64, 10])] under cells 9 and 11, and rows of [probabilities]
    that sum to 1.  The session agrees. *)

Lemma cell5_exec (w : world) (s : session) :
  exists im, globals (exec (cell5 w) s) "images" = Some (PyTensor im) /\
             shape im = [64; 1; 28; 28] /\ wf im.
Proof.
  apply (wp_exec (cell5 w)
           (fun s' => exists im, globals s' "images" = Some (PyTensor im) /\
                                 shape im = [64; 1; 28; 28] /\ wf im)).
  unfold cell5. wp_run. eexists. split; [reflexivity|]. split; [reflexivity|].
  red. cbn [data shape]. apply length_tabulate.
Qed.

Lemma cell9_exec (w : world) (s : session) (im : tensor) :
  globals s "images" = Some (PyTensor im) -> shape im = [64; 1; 28; 28] ->
  exists out, globals (exec (cell9 w) s) "out" = Some (PyTensor out) /\
              shape out = [64; 10] /\ wf out.
Proof.
  intros Him Sim.
  apply (wp_exec (cell9 w)
           (fun s' => exists out, globals s' "out" = Some (PyTensor out) /\
                                  shape out = [64; 10] /\ wf out)).
  unfold cell9. wp_run. rewrite Him. wp_run.
  rewrite (manual_flatten_ok im Sim). wp_run.
  match goal with
  | |- context [manual_layer1 ?x ?w1 ?b1] =>
      destruct (manual_layer1_ok x w1 b1 64 784 256 eq_refl eq_refl eq_refl)
        as (hid & Hh & Sh & _)
  end.
  rewrite Hh. wp_run.
  match goal with
  | |- context [manual_layer2 hid ?w2 ?b2] =>
      destruct (manual_layer2_ok hid w2 b2 64 256 10 Sh eq_refl eq_refl)
        as (out & Ho & So & Wo & _)
  end.
  rewrite Ho. wp_run. exists out. repeat split; assumption.
Qed.

Lemma cell11_exec (s : session) (out : tensor) :
  globals s "out" = Some (PyTensor out) -> shape out = [64; 10] -> wf out ->
  exists p, globals (exec cell11 s) "probabilities" = Some (PyTensor p) /\
            softmax out = Ok p.
Proof.
  intros Ho So Wo.
  apply (wp_exec cell11
           (fun s' => exists p, globals s' "probabilities" = Some (PyTensor p) /\
                                softmax out = Ok p)).
  unfold cell11. wp_run. rewrite Ho. wp_run.
  rewrite (softmax_closed out 64 10 So Wo). wp_run.
  eexists. split; reflexivity.
Qed.

Lemma recorded_outputs (w : world) :
  exists im out p,
    globals (session_after w 1) "images" = Some (PyTensor im) /\
    shape im = [64; 1; 28; 28] /\
    globals (session_after w 2) "out" = Some (PyTensor out) /\
    shape out = [64; 10] /\
    globals (session_after w 3) "probabilities" = Some (PyTensor p) /\
    shape p = [64; 10] /\
    forall i, i < 64 -> Rsum 10 (fun j => get p [i; j]) = 1%R.
Proof.
  destruct (cell5_exec w (session_after w 0)) as (im & Him & Sim & _).
  rewrite <- (session_after_step w 0 _ eq_refl) in Him.
  destruct (cell9_exec w (session_after w 1) im Him Sim) as (out & Ho & So & Wo).
  rewrite <- (session_after_step w 1 _ eq_refl) in Ho.
  destruct (cell11_exec (session_after w 2) out Ho So Wo) as (p & Hp & Hsm).
  rewrite <- (session_after_step w 2 _ eq_refl) in Hp.
  exists im, out, p. repeat (split; [assumption|]).
  assert (Sp : shape p = [64; 10]).
  { rewrite (softmax_closed out 64 10 So Wo) in Hsm. now injection Hsm as <-. }
  split; [exact Sp|].
  intros i Hi.
  destruct (softmax_row_sum out 64 10 i ltac:(lia) So Wo Hi) as (y & Hy & _ & Hsum).
  rewrite Hsm in Hy. injection Hy as <-. exact Hsum.
Qed.

(** * Further properties of the notebook's code *)

(** ** [softmax] (cell 11) *)

Lemma softmax_get (x y : tensor) (n k i j : nat) :
  shape x = [n; k] -> wf x -> softmax x = Ok y -> i < n -> j < k ->
  get y [i; j] = (exp (get x [i; j]) / Rsum k (fun c => exp (get x [i; c])))%R.
Proof.
  intros E W H Hi Hj. rewrite (softmax_closed x n k E W) in H.
  injection H as <-. now apply softmax_row_entry.
Qed.

Lemma softmax_shape (x y : tensor) (n k : nat) :
  shape x = [n; k] -> wf x -> softmax x = Ok y -> shape y = [n; k] /\ wf y.
Proof.
  intros E W H. rewrite (softmax_closed x n k E W) in H. injection H as <-.
  split; [reflexivity|]. red. cbn [data shape].
  now rewrite length_tabulate, numel_2.
Qed.

Lemma Rsum_mult_l (n : nat) (f : nat -> R) (a : R) :
  Rsum n (fun c => (a * f c)%R) = (a * Rsum n f)%R.
Proof.
  induction n as [|n IH]; [rewrite !Rsum_0; lra|].
  rewrite !Rsum_S, IH. lra.
Qed.

Lemma Rsum_const (n : nat) (v : R) : Rsum n (fun _ => v) = (INR n * v)%R.
Proof.
  induction n as [|n IH]; [rewrite Rsum_0; simpl; lra|].
  rewrite Rsum_S, IH, S_INR. lra.
Qed.

(** X1. In exact real arithmetic, adding a constant to every score of a row
    does not change [softmax]: when [x'] is [x] with [c i] added throughout
    row [i], the two results are the same tensor.  (With the rounding of
    float32 the two results can differ, and [torch.exp] overflows on large
    scores.) *)
Theorem softmax_shift_invariant (x x' : tensor) (n k : nat) (c : nat -> R) :
  shape x = [n; k] -> shape x' = [n; k] -> wf x -> wf x' ->
  (forall i j, i < n -> j < k -> get x' [i; j] = (get x [i; j] + c i)%R) ->
  exists y, softmax x = Ok y /\ softmax x' = Ok y.
Proof.
  intros E E' W W' Hshift.
  eexists. split; [apply (softmax_closed x n k E W)|].
  rewrite (softmax_closed x' n k E' W'). do 2 f_equal.
  apply tabulate_ext. intros p Hp.
  assert (Hk : 0 < k) by (destruct k; lia).
  assert (Hi : p / k < n) by (apply Nat.Div0.div_lt_upper_bound; lia).
  assert (Hj : p mod k < k) by (apply Nat.mod_upper_bound; lia).
  assert (Ep : p = p / k * k + p mod k).
  { rewrite (Nat.div_mod_eq p k) at 1. lia. }
  assert (Hat : forall j, j < k ->
            at_ x' (p / k * k + j) = (at_ x (p / k * k + j) + c (p / k)%nat)%R).
  { intros j Hj'. rewrite <- (get_2 x' n k _ _ E'), <- (get_2 x n k _ _ E).
    now apply Hshift. }
  rewrite (f_equal (at_ x') Ep), (f_equal (at_ x) Ep). rewrite Hat by assumption.
  rewrite (Rsum_ext k _ (fun j => (exp (c (p / k)%nat) * exp (at_ x (p / k * k + j)))%R)).
  2: { intros j Hj'. rewrite Hat by assumption. rewrite exp_plus. lra. }
  rewrite Rsum_mult_l, exp_plus.
  assert (Hden : (0 < Rsum k (fun j => exp (at_ x (p / k * k + j))))%R)
    by (apply Rsum_pos; [lia | intros; apply exp_pos]).
  pose proof (exp_pos (c (p / k))).
  field. split; lra.
Qed.

Lemma softmax_shift_invariant_witness :
  exists y, softmax scores_2x2 = Ok y /\ softmax scores_2x2_shifted = Ok y.
Proof.
  apply (softmax_shift_invariant scores_2x2 scores_2x2_shifted 2 2
           (fun i => match i with 0 => 5%R | _ => (-2)%R end));
    try reflexivity.
  intros i j Hi Hj.
  destruct i as [|[|i]]; [| |lia]; (destruct j as [|[|j]]; [| |lia]);
    unfold get, at_; cbn; lra.
Defined.

(** X2. In exact real arithmetic, [softmax] keeps the order of the scores
    within a row: a score that is not smaller gets a probability that is not
    smaller, and a strictly larger score a strictly larger probability, so
    the most likely class is the one with the largest score.  (With the
    rounding of float32 two different scores can get the same probability.) *)
Theorem softmax_keeps_order (x y : tensor) (n k i j1 j2 : nat) :
  shape x = [n; k] -> wf x -> softmax x = Ok y ->
  i < n -> j1 < k -> j2 < k ->
  ((get x [i; j1] <= get x [i; j2])%R -> (get y [i; j1] <= get y [i; j2])%R) /\
  ((get x [i; j1] < get x [i; j2])%R -> (get y [i; j1] < get y [i; j2])%R).
Proof.
  intros E W H Hi Hj1 Hj2.
  rewrite (softmax_get x y n k i j1 E W H Hi Hj1).
  rewrite (softmax_get x y n k i j2 E W H Hi Hj2).
  assert (Hden : (0 < Rsum k (fun c => exp (get x [i; c])))%R)
    by (apply Rsum_pos; [lia | intros; apply exp_pos]).
  assert (Hinv : (0 < / Rsum k (fun c => exp (get x [i; c])))%R)
    by now apply Rinv_0_lt_compat.
  unfold Rdiv. split; intros Hle.
  - apply Rmult_le_compat_r; [lra|].
    destruct Hle as [Hlt|Heq]; [left; now apply exp_increasing | rewrite Heq; lra].
  - apply Rmult_lt_compat_r; [exact Hinv | now apply exp_increasing].
Qed.

Lemma softmax_keeps_order_witness :
  exists y, softmax scores_2x2 = Ok y /\ (get y [0%nat; 0%nat] < get y [0%nat; 1%nat])%R.
Proof.
  destruct (softmax_entry scores_2x2 2 2 0 0) as (y & Hy & _);
    [reflexivity | reflexivity | lia | lia |].
  exists y. split; [exact Hy|].
  apply (softmax_keeps_order scores_2x2 y 2 2 0 0 1);
    [reflexivity | reflexivity | exact Hy | lia | lia | lia |].
  unfold get, at_. cbn. lra.
Defined.

(** X3. In exact real arithmetic, a row of equal scores becomes the uniform
    distribution: every entry of that row of [softmax x] is 1/k.  (In float32
    the entries are 1/k up to rounding.) *)
Theorem softmax_uniform_row (x y : tensor) (n k i : nat) (v : R) :
  shape x = [n; k] -> wf x -> softmax x = Ok y -> i < n ->
  (forall j, j < k -> get x [i; j] = v) ->
  forall j, j < k -> get y [i; j] = (1 / INR k)%R.
Proof.
  intros E W H Hi Hv j Hj.
  rewrite (softmax_get x y n k i j E W H Hi Hj).
  rewrite (Rsum_ext k _ (fun _ => exp v)) by (intros c Hc; now rewrite Hv).
  rewrite Rsum_const, Hv by assumption.
  pose proof (exp_pos v).
  assert (0 < INR k)%R by (apply lt_0_INR; lia).
  field. split; lra.
Qed.

Lemma softmax_uniform_row_witness :
  exists y, softmax (zeros [1; 2]) = Ok y /\ get y [0; 1] = (1 / INR 2)%R.
Proof.
  destruct (softmax_entry (zeros [1; 2]) 1 2 0 0) as (y & Hy & _);
    [reflexivity | reflexivity | lia | lia |].
  exists y. split; [exact Hy|].
  apply (softmax_uniform_row (zeros [1; 2]) y 1 2 0 0%R);
    [reflexivity | reflexivity | exact Hy | lia | | lia].
  intros j Hj. destruct j as [|[|j]]; [reflexivity | reflexivity | lia].
Defined.

(** X5. [softmax] is written for matrices.  On a tensor of sizes (a, b, c)
    the row sums come back as a column of a*c values, and the division
    raises the broadcasting error unless b is 1 or a*c, or a*c is 1. *)
Theorem softmax_rank3_raises (x : tensor) (a b c : nat) :
  shape x = [a; b; c] -> b <> a * c -> b <> 1 -> a * c <> 1 ->
  softmax x = Err BroadcastMismatch.
Proof.
  intros E Hb Hb1 Hac. unfold softmax, softmax_denominator.
  unfold tsum. change (shape (torch_exp x)) with (shape x). rewrite E.
  cbn [length Nat.ltb Nat.leb nth skipn firstn app bind].
  rewrite view_column. cbn [bind shape].
  unfold tdiv, binop. change (shape (torch_exp x)) with (shape x). rewrite E.
  cbn [shape]. unfold broadcast_shapes. cbn [rev app bshape_rev].
  rewrite bdim_1_r.
  replace (bdim b (numel [a; c])) with (@None nat); [reflexivity|].
  unfold bdim. rewrite numel_2.
  apply Nat.eqb_neq in Hb, Hb1, Hac. now rewrite Hb, Hb1, Hac.
Qed.

Lemma softmax_rank3_raises_witness :
  softmax cube_2x3x2 = Err BroadcastMismatch.
Proof.
  apply (softmax_rank3_raises cube_2x3x2 2 3 2); [reflexivity | lia | lia | lia].
Defined.

(** ** The forward pass with matrix products (cell 9) *)

Lemma tanh_bounds (v : R) : (-1 < tanh v < 1)%R.
Proof.
  unfold tanh, sinh, cosh.
  pose proof (exp_pos v) as Hp. pose proof (exp_pos (- v)) as Hn.
  assert (Hc : (0 < (exp v + exp (- v)) / 2)%R) by lra.
  split.
  - apply (Rmult_lt_reg_r ((exp v + exp (- v)) / 2)); [exact Hc|].
    unfold Rdiv at 2. rewrite Rmult_assoc, Rinv_l by lra. lra.
  - apply (Rmult_lt_reg_r ((exp v + exp (- v)) / 2)); [exact Hc|].
    unfold Rdiv at 1. rewrite Rmult_assoc, Rinv_l by lra. lra.
Qed.

Lemma flatten_pixel (images : tensor) (i p : nat) :
  shape images = [64; 1; 28; 28] -> p < 784 ->
  get (mkT [64; 784] (data images)) [i; p] = get images [i; 0; p / 28; p mod 28].
Proof.
  intros E Hp. unfold get, at_. rewrite E.
  cbn [shape data offset numel fold_right]. f_equal.
  pose proof (Nat.div_mod_eq p 28). lia.
Qed.

(** X6. In exact real arithmetic, every hidden unit of the forward pass of
    cell 9 lies strictly between -1 and 1, whatever the images, weights and
    biases are.  (In float32 [torch.tanh] rounds to -1 or 1 on large
    arguments, and the bounds hold with equality allowed.) *)
Theorem manual_hidden_bounded (images w1 b1 : tensor) :
  shape images = [64; 1; 28; 28] -> shape w1 = [784; 256] -> shape b1 = [256] ->
  exists hid, manual_hidden images w1 b1 = Ok hid /\ shape hid = [64; 256] /\
    forall i j, i < 64 -> j < 256 -> (-1 < get hid [i; j] < 1)%R.
Proof.
  intros Ei Ew Eb. unfold manual_hidden.
  rewrite (manual_flatten_ok images Ei). cbn [bind].
  destruct (manual_layer1_ok (mkT [64; 784] (data images)) w1 b1 64 784 256
              eq_refl Ew Eb) as (hid & Hh & Sh & _ & Gh).
  exists hid. split; [exact Hh|]. split; [exact Sh|].
  intros i j Hi Hj. rewrite Gh by assumption. apply tanh_bounds.
Qed.

Lemma manual_hidden_bounded_witness :
  exists hid,
    manual_hidden (zeros [64; 1; 28; 28]) (zeros [784; 256]) bias_minus_one = Ok hid /\
    (-1 < get hid [0%nat; 0%nat] < 1)%R.
Proof.
  destruct (manual_hidden_bounded (zeros [64; 1; 28; 28]) (zeros [784; 256])
              bias_minus_one) as (hid & Hh & _ & Hb); try reflexivity.
  exists hid. split; [exact Hh | apply Hb; lia].
Defined.

(** X7. The forward pass of cell 9 treats the images of a batch one by one:
    two batches that hold the same image at position [i] give the same row
    [i] of [out], whatever their other images are. *)
Theorem manual_forward_row_by_row (images images' w1 b1 w2 b2 : tensor) (i : nat) :
  shape images = [64; 1; 28; 28] -> shape images' = [64; 1; 28; 28] ->
  shape w1 = [784; 256] -> shape b1 = [256] ->
  shape w2 = [256; 10] -> shape b2 = [10] ->
  i < 64 ->
  (forall h w, h < 28 -> w < 28 ->
     get images [i; 0; h; w] = get images' [i; 0; h; w]) ->
  exists out out',
    manual_forward images w1 b1 w2 b2 = Ok out /\
    manual_forward images' w1 b1 w2 b2 = Ok out' /\
    forall o, o < 10 -> get out [i; o] = get out' [i; o].
Proof.
  intros Ei Ei' Ew1 Eb1 Ew2 Eb2 Hi Hsame.
  unfold manual_forward, manual_hidden.
  rewrite (manual_flatten_ok images Ei), (manual_flatten_ok images' Ei').
  cbn [bind].
  destruct (manual_layer1_ok (mkT [64; 784] (data images)) w1 b1 64 784 256
              eq_refl Ew1 Eb1) as (hid & Hh & Sh & _ & Gh).
  destruct (manual_layer1_ok (mkT [64; 784] (data images')) w1 b1 64 784 256
              eq_refl Ew1 Eb1) as (hid' & Hh' & Sh' & _ & Gh').
  rewrite Hh, Hh'. cbn [bind].
  destruct (manual_layer2_ok hid w2 b2 64 256 10 Sh Ew2 Eb2) as (out & Ho & _ & _ & Go).
  destruct (manual_layer2_ok hid' w2 b2 64 256 10 Sh' Ew2 Eb2)
    as (out' & Ho' & _ & _ & Go').
  exists out, out'. split; [exact Ho|]. split; [exact Ho'|].
  intros o Ho10. rewrite Go, Go' by assumption. f_equal.
  apply Rsum_ext. intros j Hj. f_equal.
  rewrite Gh, Gh' by assumption. do 2 f_equal.
  apply Rsum_ext. intros p Hp. f_equal.
  rewrite (flatten_pixel images i p Ei Hp), (flatten_pixel images' i p Ei' Hp).
  apply Hsame; [apply Nat.Div0.div_lt_upper_bound; lia | apply Nat.mod_upper_bound; lia].
Qed.

Lemma manual_forward_row_by_row_witness :
  exists out out',
    manual_forward (zeros [64; 1; 28; 28]) (zeros [784; 256]) bias_minus_one
      (zeros [256; 10]) (zeros [10]) = Ok out /\
    manual_forward batch_blank_at_3
      (zeros [784; 256]) bias_minus_one (zeros [256; 10]) (zeros [10]) = Ok out' /\
    forall o, o < 10 -> get out [3; o] = get out' [3; o].
Proof.
  apply (manual_forward_row_by_row (zeros [64; 1; 28; 28]) batch_blank_at_3
           (zeros [784; 256]) bias_minus_one (zeros [256; 10]) (zeros [10]) 3);
    [reflexivity | reflexivity | reflexivity | reflexivity | reflexivity
    | reflexivity | lia | ].
  intros h w Hh Hw. unfold get, zeros, full, batch_blank_at_3, at_.
  cbn [shape data offset].
  change (numel [64; 1; 28; 28]) with (64 * 784).
  change (numel [1; 28; 28]) with 784. change (numel [28; 28]) with 784.
  change (numel [28]) with 28. change (numel []) with 1.
  rewrite !nth_tabulate by lia.
  replace ((3 * 784 + (0 * 784 + (h * 28 + (w * 1 + 0)))) / 784) with 3;
    [reflexivity|].
  apply Nat.div_unique with (r := h * 28 + w); lia.
Defined.

(** ** The network classes and [nn.Sequential] (cells 14, 18, 21, 30, 34) *)

Lemma exp_ratio_sum (k : nat) (f : nat -> R) :
  1 <= k ->
  Rsum k (fun j => (exp (f j) / Rsum k (fun c => exp (f c)))%R) = 1%R.
Proof.
  intros Hk.
  assert (Hden : (0 < Rsum k (fun c => exp (f c)))%R)
    by (apply Rsum_pos; [assumption | intros; apply exp_pos]).
  rewrite Rsum_scale. field. lra.
Qed.

Lemma exp_ratio_bounds (k : nat) (f : nat -> R) (j : nat) :
  2 <= k -> j < k ->
  (0 < exp (f j) / Rsum k (fun c => exp (f c)) < 1)%R.
Proof.
  intros Hk Hj.
  assert (Hpos : forall c, c < k -> (0 < exp (f c))%R) by (intros; apply exp_pos).
  assert (Hden : (0 < Rsum k (fun c => exp (f c)))%R)
    by (apply Rsum_pos; [lia | exact Hpos]).
  pose proof (Rsum_term_lt k (fun c => exp (f c)) j Hj Hk Hpos) as Hlt.
  cbv beta in Hlt. split.
  - apply Rdiv_lt_0_compat; [apply exp_pos | exact Hden].
  - apply (Rmult_lt_reg_r (Rsum k (fun c => exp (f c)))); [exact Hden|].
    unfold Rdiv. rewrite Rmult_assoc, Rinv_l by lra. lra.
Qed.

(** The rows of [F.softmax(x, dim=1)] on a matrix. *)
Lemma F_softmax_rows_distribution (x : tensor) (n k : nat) :
  shape x = [n; k] -> 2 <= k ->
  exists y, F_softmax x (Some 1) = Ok y /\ shape y = [n; k] /\ wf y /\
    forall i, i < n ->
      Rsum k (fun j => get y [i; j]) = 1%R /\
      forall j, j < k -> (0 < get y [i; j] < 1)%R.
Proof.
  intros E Hk. destruct (F_softmax_rows x n k E) as (y & Hy & Sy & Wy & Gy).
  exists y. split; [exact Hy|]. split; [exact Sy|]. split; [exact Wy|].
  intros i Hi. split.
  - rewrite (Rsum_ext k _ (fun j => (exp (get x [i; j])
                                     / Rsum k (fun c => exp (get x [i; c])))%R))
      by (intros j Hj; now apply Gy).
    apply (exp_ratio_sum k (fun j => get x [i; j])). lia.
  - intros j Hj. rewrite Gy by assumption.
    now apply (exp_ratio_bounds k (fun j => get x [i; j])).
Qed.

(** X8. In exact real arithmetic, with layers of the sizes that [__init__]
    gives them, both [Network] classes turn every batch of sizes (n, 784)
    into a tensor of sizes (n, 10) whose rows are probability distributions:
    the ten entries of each row are strictly between 0 and 1 and sum to 1.
    (In float32 the sizes are the same; the sum is 1 up to rounding and an
    entry can round to 0 or 1.) *)
Theorem Network_rows_are_distributions (h o : Linear) (x : tensor) (n : nat) :
  shape (weight h) = [256; 784] -> shape (bias h) = [256] ->
  shape (weight o) = [10; 256] -> shape (bias o) = [10] ->
  shape x = [n; 784] ->
  exists y,
    Network.forward (Network.init h o) x = Ok (PyTensor y) /\
    NetworkF.forward (NetworkF.init h o) x = Ok (PyTensor y) /\
    shape y = [n; 10] /\
    forall i, i < n ->
      Rsum 10 (fun c => get y [i; c]) = 1%R /\
      forall c, c < 10 -> (0 < get y [i; c] < 1)%R.
Proof.
  intros Swh Sbh Swo Sbo Ex.
  rewrite (Network_forward_eq (Network.init h o) (NetworkF.init h o) x)
    by reflexivity.
  unfold NetworkF.forward, Linear_forward. cbn [NetworkF.init NetworkF.hidden NetworkF.output].
  destruct (F_linear_rows x _ _ n 784 256 Ex Swh Sbh) as (h1 & Hh & Sh & _).
  rewrite Hh. cbn [bind].
  assert (Ssig : shape (F_sigmoid h1) = [n; 256]) by exact Sh.
  destruct (F_linear_rows (F_sigmoid h1) _ _ n 256 10 Ssig Swo Sbo) as (o1 & Ho & So & _).
  rewrite Ho. cbn [bind].
  destruct (F_softmax_rows_distribution o1 n 10 So ltac:(lia)) as (y & Hy & Sy & _ & Dy).
  rewrite Hy. cbn [bind]. exists y. auto.
Qed.

Lemma Network_rows_are_distributions_witness :
  exists y,
    Network.forward
      (Network.init (mkLinear (zeros [256; 784]) (zeros [256]))
                    (mkLinear (zeros [10; 256]) (zeros [10])))
      (zeros [2; 784]) = Ok (PyTensor y) /\
    Rsum 10 (fun c => get y [1; c]) = 1%R.
Proof.
  destruct (Network_rows_are_distributions
              (mkLinear (zeros [256; 784]) (zeros [256]))
              (mkLinear (zeros [10; 256]) (zeros [10])) (zeros [2; 784]) 2)
    as (y & Hy & _ & _ & Dy);
    [reflexivity | reflexivity | reflexivity | reflexivity | reflexivity |].
  exists y. split; [exact Hy|]. apply (Dy 1). lia.
Defined.

Lemma cell30_model_rows (l0 l2 l4 : Linear) (x : tensor) (n : nat) :
  Net_sizes (Net.init l0 l2 l4) -> shape x = [n; 784] ->
  exists y,
    Sequential.forward (cell30_model l0 l2 l4) x = Ok (PyTensor y) /\
    shape y = [n; 10] /\
    forall i, i < n ->
      Rsum 10 (fun c => get y [i; c]) = 1%R /\
      forall c, c < 10 -> (0 < get y [i; c] < 1)%R.
Proof.
  intros (W1 & B1 & W2 & B2 & W3 & B3) Ex.
  cbn [Net.init Net.fc1 Net.fc2 Net.fc3] in *.
  unfold Sequential.forward, cell30_model.
  cbn [Sequential.run layer_forward]. unfold Linear_forward, ReLU_forward, Softmax_forward.
  destruct (F_linear_rows x _ _ n 784 128 Ex W1 B1) as (h1 & H1 & S1 & _).
  rewrite H1. cbn [bind softmax_dim].
  destruct (F_linear_rows (torch_relu h1) _ _ n 128 64 S1 W2 B2) as (h2 & H2 & S2 & _).
  rewrite H2. cbn [bind].
  destruct (F_linear_rows (torch_relu h2) _ _ n 64 10 S2 W3 B3) as (h3 & H3 & S3 & _).
  rewrite H3. cbn [bind].
  destruct (F_softmax_rows_distribution h3 n 10 S3 ltac:(lia)) as (y & Hy & Sy & _ & Dy).
  rewrite Hy. cbn [bind]. exists y. auto.
Qed.

Lemma Sequential_run_names (ls ls' : Sequential.t) (x : tensor) :
  map snd ls = map snd ls' -> Sequential.run ls x = Sequential.run ls' x.
Proof.
  revert ls' x. induction ls as [|[n l] ls IH]; intros [|[n' l'] ls'] x H;
    try discriminate; [reflexivity|].
  cbn [map snd] in H. injection H as -> H. cbn [Sequential.run].
  destruct (layer_forward l' x) as [y|e]; cbn [bind]; [now apply IH | reflexivity].
Qed.

(** X9. In exact real arithmetic, the [nn.Sequential] model of cell 30 turns
    every batch of sizes (n, 784) into a tensor of sizes (n, 10) whose rows
    are probability distributions: the ten entries of each row are strictly
    between 0 and 1 and sum to 1.  (In float32 the sizes are the same; the
    sum is 1 up to rounding and an entry can round to 0 or 1.) *)
Theorem Sequential_rows_are_distributions (l0 l2 l4 : Linear) (x : tensor) (n : nat) :
  Net_sizes (Net.init l0 l2 l4) -> shape x = [n; 784] ->
  exists y,
    Sequential.forward (cell30_model l0 l2 l4) x = Ok (PyTensor y) /\
    shape y = [n; 10] /\
    forall i, i < n ->
      Rsum 10 (fun c => get y [i; c]) = 1%R /\
      forall c, c < 10 -> (0 < get y [i; c] < 1)%R.
Proof.
  intros Hs Ex. destruct (cell30_model_rows l0 l2 l4 x n Hs Ex) as (y & Hy & Sy & Dy).
  exists y. auto.
Qed.

Lemma Sequential_rows_are_distributions_witness :
  exists y,
    Sequential.forward
      (cell30_model (Net.fc1 zero_Net) (Net.fc2 zero_Net) (Net.fc3 zero_Net))
      (zeros [2; 784]) = Ok (PyTensor y) /\
    Rsum 10 (fun c => get y [1; c]) = 1%R.
Proof.
  destruct (Sequential_rows_are_distributions
              (Net.fc1 zero_Net) (Net.fc2 zero_Net) (Net.fc3 zero_Net)
              (zeros [2; 784]) 2) as (y & Hy & _ & Dy);
    [repeat split | reflexivity |].
  exists y. split; [exact Hy|]. apply (Dy 1). lia.
Defined.

Lemma shape_relu_linear (sh : list nat) (d : list R) :
  rev (shape (F_relu (mkT (rev sh) d))) = sh.
Proof. unfold F_relu, torch_relu, pointwise. cbn [shape]. apply rev_involutive. Qed.

(** The three linear layers with their ReLUs, on an input of any number of
    leading dimensions. *)
Lemma three_layers_ok (l0 l2 l4 : Linear) (x : tensor) (lead : list nat) :
  Net_sizes (Net.init l0 l2 l4) -> rev (shape x) = 784 :: lead ->
  exists h1 h2 h3,
    Linear_forward l0 x = Ok h1 /\
    Linear_forward l2 (F_relu h1) = Ok h2 /\
    Linear_forward l4 (F_relu h2) = Ok h3 /\
    shape h3 = rev (10 :: lead) /\ wf h3.
Proof.
  intros (W1 & B1 & W2 & B2 & W3 & B3) Ex.
  cbn [Net.init Net.fc1 Net.fc2 Net.fc3] in *. unfold Linear_forward.
  eexists. eexists. eexists.
  split; [apply (F_linear_ok x _ _ 784 128 lead Ex W1 B1)|].
  split; [apply (F_linear_ok _ _ _ 128 64 lead (shape_relu_linear _ _) W2 B2)|].
  split; [apply (F_linear_ok _ _ _ 64 10 lead (shape_relu_linear _ _) W3 B3)|].
  split; [reflexivity|]. red. cbn [data shape]. apply length_tabulate.
Qed.

(** X11. The classes differ on a single flattened image given without its
    batch dimension, a vector of 784 values: [Net.forward], whose
    [F.softmax] is called without [dim], runs through and returns [None],
    while the [nn.Sequential] models of cells 30 and 34, whose last layer is
    [nn.Softmax(dim=1)], raise the framework's "dimension out of range". *)
Theorem vector_input_Net_runs_Sequential_raises (l0 l2 l4 : Linear) (x : tensor) :
  Net_sizes (Net.init l0 l2 l4) -> shape x = [784] ->
  Net.forward (Net.init l0 l2 l4) x = Ok PyNone /\
  Sequential.forward (cell30_model l0 l2 l4) x = Err DimOutOfRange /\
  Sequential.forward (cell34_model l0 l2 l4) x = Err DimOutOfRange.
Proof.
  intros Hs Ex.
  assert (Er : rev (shape x) = 784 :: []) by now rewrite Ex.
  split; [apply (Net_forward_ok _ x [] Hs Er)|].
  destruct (three_layers_ok l0 l2 l4 x [] Hs Er) as (h1 & h2 & h3 & H1 & H2 & H3 & S3 & _).
  assert (H30 : Sequential.forward (cell30_model l0 l2 l4) x = Err DimOutOfRange).
  { unfold Sequential.forward, cell30_model.
    cbn [Sequential.run layer_forward]. unfold ReLU_forward, Softmax_forward.
    rewrite H1. cbn [bind]. fold (F_relu h1). rewrite H2. cbn [bind].
    fold (F_relu h2). rewrite H3. cbn [bind softmax_dim].
    unfold F_softmax. rewrite S3. reflexivity. }
  split; [exact H30|]. rewrite <- H30. unfold Sequential.forward.
  now rewrite (Sequential_run_names (cell34_model l0 l2 l4) (cell30_model l0 l2 l4)).
Qed.

Lemma vector_input_Net_runs_Sequential_raises_witness :
  Net.forward zero_Net (zeros [784]) = Ok PyNone /\
  Sequential.forward
    (cell30_model (Net.fc1 zero_Net) (Net.fc2 zero_Net) (Net.fc3 zero_Net)) (zeros [784])
  = Err DimOutOfRange.
Proof.
  destruct (vector_input_Net_runs_Sequential_raises
              (Net.fc1 zero_Net) (Net.fc2 zero_Net) (Net.fc3 zero_Net) (zeros [784]))
    as (Hn & Hs & _); [repeat split | reflexivity |].
  split; [exact Hn | exact Hs].
Defined.

(** X12. Given the whole resized batch, of sizes (n, 1, 784), instead of one
    image of it, the [nn.Sequential] model of cell 30 returns a tensor of
    sizes (n, 1, 10) in which every entry is 1: [nn.Softmax(dim=1)] then
    normalises over the colour-channel dimension, which has one element. *)
Theorem Sequential_on_resized_batch_is_all_ones (l0 l2 l4 : Linear) (x : tensor) (n : nat) :
  Net_sizes (Net.init l0 l2 l4) -> shape x = [n; 1; 784] ->
  exists y,
    Sequential.forward (cell30_model l0 l2 l4) x = Ok (PyTensor y) /\
    shape y = [n; 1; 10] /\
    forall i c, i < n -> c < 10 -> get y [i; 0; c] = 1%R.
Proof.
  intros Hs Ex.
  assert (Er : rev (shape x) = 784 :: [1; n]) by now rewrite Ex.
  destruct (three_layers_ok l0 l2 l4 x [1; n] Hs Er)
    as (h1 & h2 & h3 & H1 & H2 & H3 & S3 & _).
  cbn [rev app] in S3.
  unfold Sequential.forward, cell30_model.
  cbn [Sequential.run layer_forward]. unfold ReLU_forward, Softmax_forward.
  rewrite H1. cbn [bind]. fold (F_relu h1). rewrite H2. cbn [bind].
  fold (F_relu h2). rewrite H3. cbn [bind softmax_dim].
  unfold F_softmax. rewrite S3.
  cbn [length Nat.ltb Nat.leb nth skipn bind].
  eexists. split; [reflexivity|]. split; [reflexivity|].
  intros i c Hi Hc. unfold get, at_ at 1. cbn [shape data offset].
  change (numel [1; 10]) with 10. change (numel [10]) with 10.
  change (numel []) with 1. change (numel [n; 1; 10]) with (n * (1 * (10 * 1))).
  rewrite nth_tabulate by lia.
  rewrite Rsum_S, Rsum_0.
  replace (i * 10 + (0 * 10 + (c * 1 + 0))) with (i * 10 + c) by lia.
  replace ((i * 10 + c) / (1 * 10) * (1 * 10) + 0 * 10 + (i * 10 + c) mod 10)
    with (i * 10 + c).
  - pose proof (exp_pos (at_ h3 (i * 10 + c))). field. lra.
  - pose proof (Nat.div_mod_eq (i * 10 + c) 10). cbn [Nat.mul Nat.add] in *. lia.
Qed.

Lemma Sequential_on_resized_batch_is_all_ones_witness :
  exists y,
    Sequential.forward
      (cell30_model (Net.fc1 zero_Net) (Net.fc2 zero_Net) (Net.fc3 zero_Net))
      (zeros [64; 1; 784]) = Ok (PyTensor y) /\
    get y [5; 0; 7] = 1%R.
Proof.
  destruct (Sequential_on_resized_batch_is_all_ones
              (Net.fc1 zero_Net) (Net.fc2 zero_Net) (Net.fc3 zero_Net)
              (zeros [64; 1; 784]) 64) as (y & Hy & _ & Gy);
    [repeat split | reflexivity |].
  exists y. split; [exact Hy|]. apply Gy; lia.
Defined.

(** ** Resizing and indexing the batch (cells 28 and 30) *)

Lemma tabulate_nth (l : list R) (n : nat) :
  length l = n -> tabulate n (fun p => nth p l 0%R) = l.
Proof.
  intros H. apply (nth_ext _ _ 0%R 0%R); [now rewrite length_tabulate|].
  intros p Hp. rewrite length_tabulate in Hp. now rewrite nth_tabulate.
Qed.

Lemma at_resize_kept (u : nat -> R) (t : tensor) (sizes : list nat) (p : nat) :
  p < numel sizes -> p < length (data t) -> at_ (resize_ u t sizes) p = at_ t p.
Proof.
  intros Hp Hl. unfold resize_, at_ at 1. cbn [data].
  rewrite nth_tabulate by assumption.
  apply Nat.ltb_lt in Hl. now rewrite Hl.
Qed.

Lemma view_image (img : tensor) :
  shape img = [1; 784] ->
  view img [1%Z; 28%Z; 28%Z] = Ok (mkT [1; 28; 28] (data img)).
Proof. intros E. unfold view, infer_size. rewrite E. reflexivity. Qed.

(** X13. In cells 28 and 30 the image that goes through the model is the
    image of the batch, pixel for pixel: after [images.resize_(64, 1, 784)],
    entry 28 h + w of [images[i,:]] is pixel (h, w) of image [i], and
    [images[i].view(1, 28, 28)], which is handed to the plotting helper, is
    the image [i] of the batch as it was loaded. *)
Theorem resized_image_is_the_image (u : nat -> R) (images : tensor) (i : nat) :
  shape images = [64; 1; 28; 28] -> wf images -> i < 64 ->
  exists arg img orig,
    select0_all (resize_ u images [64; 1; 784]) i = Ok arg /\
    shape arg = [1; 784] /\
    (forall h w, h < 28 -> w < 28 ->
       get arg [0; h * 28 + w] = get images [i; 0; h; w]) /\
    select0 (resize_ u images [64; 1; 784]) i = Ok img /\
    select0 images i = Ok orig /\
    view img [1%Z; 28%Z; 28%Z] = Ok orig.
Proof.
  intros E W Hi.
  assert (L : length (data images) = 64 * 784) by (red in W; now rewrite W, E).
  assert (Hlt : (i <? 64) = true) by now apply Nat.ltb_lt.
  unfold select0_all, select0. cbn [resize_ shape]. rewrite E, Hlt.
  eexists. eexists. eexists.
  split; [reflexivity|]. split; [reflexivity|]. split; [|split; [reflexivity|]].
  - intros h w Hh Hw. unfold get, at_ at 1. rewrite E.
    cbn [shape data offset].
    change (numel [1; 784]) with 784. change (numel [784]) with 784.
    change (numel [1; 28; 28]) with 784. change (numel [28; 28]) with 784.
    change (numel [28]) with 28. change (numel []) with 1.
    rewrite nth_tabulate by lia.
    rewrite at_resize_kept.
    + unfold at_. f_equal. lia.
    + change (numel [64; 1; 784]) with (64 * 784). lia.
    + rewrite L. lia.
  - split; [reflexivity|].
    rewrite view_image by reflexivity. cbn [data]. do 2 f_equal.
    change (numel [1; 784]) with 784. change (numel [1; 28; 28]) with 784.
    apply tabulate_ext. intros p Hp.
    apply at_resize_kept; [change (numel [64; 1; 784]) with (64 * 784); lia|].
    rewrite L. lia.
Qed.

Lemma wf_batch_counting : wf batch_counting.
Proof. red. unfold batch_counting. cbn [data shape]. apply length_tabulate. Qed.

Lemma resized_image_is_the_image_witness :
  exists arg,
    select0_all (resize_ (fun _ => 0%R) batch_counting [64; 1; 784]) 2 = Ok arg /\
    get arg [0; 1 * 28 + 3] = get batch_counting [2; 0; 1; 3].
Proof.
  destruct (resized_image_is_the_image (fun _ => 0%R) batch_counting 2)
    as (arg & img & orig & Ha & _ & Hpix & _);
    [reflexivity | exact wf_batch_counting | lia |].
  exists arg. split; [exact Ha|]. apply Hpix; lia.
Defined.

(** X14. [images.resize_(images.shape[0], 1, 784)], the form used in cell 30
    and suggested in the comment of cell 28, keeps the storage of every batch
    of 28x28 single-channel images exactly, whatever the batch size, and so
    never shows uninitialised memory; the hard-coded
    [images.resize_(64, 1, 784)] of cell 28 on a batch of fewer than 64 images
    keeps the pixels that exist and fills every position after them from
    uninitialised memory. *)
Theorem resize_to_batch_size_is_exact (u : nat -> R) (t : tensor) (d0 : nat) :
  shape t = [d0; 1; 28; 28] -> wf t ->
  data (resize_ u t [d0; 1; 784]) = data t /\
  forall p, p < 64 * 784 ->
    at_ (resize_ u t [64; 1; 784]) p = if p <? d0 * 784 then at_ t p else u p.
Proof.
  intros E W.
  assert (L : length (data t) = d0 * 784).
  { red in W. rewrite W, E. cbn [numel fold_right]. lia. }
  split.
  - unfold resize_. cbn [data].
    replace (numel [d0; 1; 784]) with (d0 * 784) by (cbn [numel fold_right]; lia).
    transitivity (tabulate (d0 * 784) (fun p => nth p (data t) 0%R));
      [|now apply tabulate_nth].
    apply tabulate_ext. intros p Hp. unfold at_.
    rewrite L. apply Nat.ltb_lt in Hp. now rewrite Hp.
  - intros p Hp. unfold resize_, at_ at 1. cbn [data].
    change (numel [64; 1; 784]) with (64 * 784).
    rewrite nth_tabulate by assumption. now rewrite L.
Qed.

Lemma wf_short_batch : wf short_batch.
Proof. red. unfold short_batch. cbn [data shape]. apply length_tabulate. Qed.

Lemma resize_to_batch_size_is_exact_witness :
  data (resize_ (fun _ => 0%R) short_batch [32; 1; 784]) = data short_batch /\
  at_ (resize_ (fun _ => 7%R) short_batch [64; 1; 784]) (40 * 784) = 7%R.
Proof.
  destruct (resize_to_batch_size_is_exact (fun _ => 0%R) short_batch 32)
    as (Hd & _); [reflexivity | exact wf_short_batch |].
  destruct (resize_to_batch_size_is_exact (fun _ => 7%R) short_batch 32)
    as (_ & Hu); [reflexivity | exact wf_short_batch |].
  split; [exact Hd|].
  rewrite (Hu (40 * 784)) by lia.
  replace (40 * 784 <? 32 * 784) with false; [reflexivity|].
  symmetry. apply Nat.ltb_ge. lia.
Defined.

(** ** Looking layers up in an [nn.Sequential] (cells 32 and 36) *)

Lemma find_layer_nth (ls : Sequential.t) (i : nat) (n : string) (l : layer) :
  NoDup (map fst ls) -> nth_error ls i = Some (n, l) -> find_layer n ls = Some l.
Proof.
  revert i. induction ls as [|[n0 l0] ls IH]; intros i Hnd H.
  - destruct i; discriminate.
  - cbn [find_layer]. destruct i as [|i]; cbn [nth_error] in H.
    + injection H as -> ->. now rewrite String.eqb_refl.
    + cbn [map fst] in Hnd. inversion Hnd as [|? ? Hnotin Hnd']. subst.
      destruct (String.eqb n0 n) eqn:En.
      * apply String.eqb_eq in En. subst n0. exfalso. apply Hnotin.
        apply nth_error_In in H. apply (in_map fst) in H. exact H.
      * now apply (IH i).
Qed.

(** X15. In an [nn.Sequential] whose layers have distinct names, a linear
    layer is found equally by its position and by its name: [model[i]] and
    [model.name] are the same layer, as cell 36 prints for [model[0]] and
    [model.fc1]. *)
Theorem Sequential_index_and_name_agree (ls : Sequential.t) (i : nat) (n : string)
    (l : Linear) :
  NoDup (map fst ls) -> nth_error ls i = Some (n, LLinear l) ->
  get_item (ObjSequential ls) i = Ok (LLinear l) /\
  get_linear n (ObjSequential ls) = Ok l.
Proof.
  intros Hnd H. split.
  - unfold get_item. now rewrite H.
  - unfold get_linear. now rewrite (find_layer_nth ls i n (LLinear l) Hnd H).
Qed.

Lemma cell34_names_distinct (l1 l2 l3 : Linear) :
  NoDup (map fst (cell34_model l1 l2 l3)).
Proof.
  cbn. repeat constructor; cbn; intuition discriminate.
Qed.

Lemma Sequential_index_and_name_agree_witness :
  get_item (ObjSequential
              (cell34_model (Net.fc1 zero_Net) (Net.fc2 zero_Net) (Net.fc3 zero_Net))) 0
  = Ok (LLinear (Net.fc1 zero_Net)) /\
  get_linear "fc1"
    (ObjSequential
       (cell34_model (Net.fc1 zero_Net) (Net.fc2 zero_Net) (Net.fc3 zero_Net)))
  = Ok (Net.fc1 zero_Net).
Proof.
  apply (Sequential_index_and_name_agree
           (cell34_model (Net.fc1 zero_Net) (Net.fc2 zero_Net) (Net.fc3 zero_Net))
           0 "fc1"%string (Net.fc1 zero_Net)).
  - apply cell34_names_distinct.
  - reflexivity.
Defined.

(** ** Running the notebook from top to bottom *)

Lemma wp_outcome (c : M unit) (P : result unit -> Prop) (s : session) :
  wp c (fun _ r => P r) s -> P (outcome c s).
Proof. unfold wp, outcome. auto. Qed.

Lemma cell5_outcome (w : world) (s : session) : outcome (cell5 w) s = Ok tt.
Proof. apply wp_outcome. unfold cell5. wp_run. reflexivity. Qed.

Lemma cell16_outcome (w : world) (s : session) : outcome (cell16 w) s = Ok tt.
Proof. apply wp_outcome. unfold cell16. wp_run. reflexivity. Qed.

Lemma cell21_outcome (w : world) (s : session) : outcome (cell21 w) s = Ok tt.
Proof. apply wp_outcome. unfold cell21. wp_run. reflexivity. Qed.

Lemma cell34_outcome (w : world) (s : session) : outcome (cell34 w) s = Ok tt.
Proof. apply wp_outcome. unfold cell34. wp_run. reflexivity. Qed.

Lemma cell9_outcome (w : world) (s : session) (im : tensor) :
  globals s "images" = Some (PyTensor im) -> shape im = [64; 1; 28; 28] ->
  outcome (cell9 w) s = Ok tt.
Proof.
  intros Him Sim. apply wp_outcome. unfold cell9. wp_run. rewrite Him. wp_run.
  rewrite (manual_flatten_ok im Sim). wp_run.
  match goal with
  | |- context [manual_layer1 ?x ?w1 ?b1] =>
      destruct (manual_layer1_ok x w1 b1 64 784 256 eq_refl eq_refl eq_refl)
        as (hid & Hh & Sh & _)
  end.
  rewrite Hh. wp_run.
  match goal with
  | |- context [manual_layer2 hid ?w2 ?b2] =>
      destruct (manual_layer2_ok hid w2 b2 64 256 10 Sh eq_refl eq_refl)
        as (out & Ho & _)
  end.
  rewrite Ho. wp_run. reflexivity.
Qed.

Lemma cell11_outcome (s : session) (out : tensor) :
  globals s "out" = Some (PyTensor out) -> shape out = [64; 10] -> wf out ->
  outcome cell11 s = Ok tt.
Proof.
  intros Ho So Wo. apply wp_outcome. unfold cell11. wp_run. rewrite Ho. wp_run.
  rewrite (softmax_closed out 64 10 So Wo). wp_run. reflexivity.
Qed.

Lemma cell23_outcome (s : session) (id : nat) (m : Net.t) :
  globals s "model" = Some (PyModule id) ->
  nth_error (heap s) id = Some (ObjNet m) ->
  outcome cell23 s = Ok tt.
Proof.
  intros Hm Ho. apply wp_outcome. unfold cell23. wp_run. rewrite Hm. wp_run.
  rewrite Ho. wp_run. cbn [get_linear String.eqb Ascii.eqb Bool.eqb]. wp_run.
  reflexivity.
Qed.

Lemma cell25_outcome (s : session) (id : nat) (m : Net.t) :
  globals s "model" = Some (PyModule id) ->
  nth_error (heap s) id = Some (ObjNet m) ->
  outcome cell25 s = Ok tt.
Proof.
  intros Hm Ho. apply wp_outcome. unfold cell25. wp_run. rewrite Hm. wp_run.
  rewrite Ho. wp_run. cbn [get_linear String.eqb Ascii.eqb Bool.eqb]. wp_run.
  reflexivity.
Qed.

Lemma cell26_outcome (w : world) (s : session) (id : nat) (m : Net.t) :
  globals s "model" = Some (PyModule id) ->
  nth_error (heap s) id = Some (ObjNet m) ->
  outcome (cell26 w) s = Ok tt.
Proof.
  intros Hm Ho. apply wp_outcome. unfold cell26. wp_run. rewrite Hm. wp_run.
  rewrite Ho. wp_run. cbn [get_linear String.eqb Ascii.eqb Bool.eqb]. wp_run.
  reflexivity.
Qed.

Lemma select0_resized (u : nat -> R) (t : tensor) (d0 : nat) :
  0 < d0 ->
  exists img, select0 (resize_ u t [d0; 1; 784]) 0 = Ok img /\ shape img = [1; 784].
Proof.
  intros H. unfold select0, resize_. cbn [shape].
  destruct d0; [lia|]. cbn [Nat.ltb Nat.leb]. eexists. split; reflexivity.
Qed.

Lemma cell28_outcome (w : world) (s : session) (id : nat) (m : Net.t) :
  globals s "model" = Some (PyModule id) ->
  nth_error (heap s) id = Some (ObjNet m) ->
  Net_sizes m ->
  exists v, shape v = [1; 28; 28] /\
            outcome (cell28 w) s = view_classify w v PyNone.
Proof.
  intros Hm Ho Hs.
  apply (wp_outcome (cell28 w)
           (fun r => exists v, shape v = [1; 28; 28] /\ r = view_classify w v PyNone)).
  unfold cell28. wp_run.
  match goal with
  | |- context [select0_all (resize_ ?u ?t [64; 1; 784]) 0] =>
      destruct (select0_all_resized u t 64 ltac:(lia)) as (arg & Harg & Sarg);
      destruct (select0_resized u t 64 ltac:(lia)) as (img & Himg & Simg)
  end.
  rewrite Harg. wp_run. rewrite Hm. wp_run. rewrite Ho. wp_run.
  cbn [obj_forward].
  rewrite (Net_forward_ok m arg [1]) by (try assumption; now rewrite Sarg).
  wp_run. rewrite Himg. wp_run. rewrite (view_image img Simg). wp_run.
  eexists. split; [|reflexivity]. reflexivity.
Qed.

Lemma cell30_outcome (w : world) (s : session) :
  exists v y, shape v = [1; 28; 28] /\ shape y = [1; 10] /\
              outcome (cell30 w) s = view_classify w v (PyTensor y).
Proof.
  apply (wp_outcome (cell30 w)
           (fun r => exists v y, shape v = [1; 28; 28] /\ shape y = [1; 10] /\
                                 r = view_classify w v (PyTensor y))).
  unfold cell30. wp_run. cbn [shape]. wp_run.
  match goal with
  | |- context [select0_all (resize_ ?u ?t [64; 1; 784]) 0] =>
      destruct (select0_all_resized u t 64 ltac:(lia)) as (arg & Harg & Sarg);
      destruct (select0_resized u t 64 ltac:(lia)) as (img & Himg & Simg)
  end.
  rewrite Harg. wp_run. rewrite nth_error_snoc. wp_run.
  cbn [obj_forward].
  match goal with
  | |- context [Sequential.forward
                  [(_, LLinear ?l0); _; (_, LLinear ?l2); _; (_, LLinear ?l4); _] arg] =>
      destruct (Sequential_mlp_ok "0" "1" "2" "3" "4" "5" l0 l2 l4 ReLU_module ReLU_module
                  arg 1 ltac:(repeat split) Sarg) as (y & Hy & Sy & Wy)
  end.
  rewrite Hy. wp_run. rewrite Himg. wp_run. rewrite (view_image img Simg). wp_run.
  exists (mkT [1; 28; 28] (data img)), y. repeat split. exact Sy.
Qed.

(** Cells 32 and 36 need [model] to be a Sequential that starts with a
    linear layer, called [fc1] for cell 36. *)
Lemma cell32_outcome (s : session) (id : nat) (n : string) (l : Linear)
      (rest : Sequential.t) :
  globals s "model" = Some (PyModule id) ->
  nth_error (heap s) id = Some (ObjSequential ((n, LLinear l) :: rest)) ->
  outcome cell32 s = Ok tt.
Proof.
  intros Hm Ho. apply wp_outcome. unfold cell32. wp_run. rewrite Hm. wp_run.
  rewrite Ho. wp_run. cbn [get_item nth_error]. wp_run. reflexivity.
Qed.

Lemma cell36_outcome (s : session) (id : nat) (l : Linear) (rest : Sequential.t) :
  globals s "model" = Some (PyModule id) ->
  nth_error (heap s) id = Some (ObjSequential (("fc1"%string, LLinear l) :: rest)) ->
  outcome cell36 s = Ok tt.
Proof.
  intros Hm Ho. apply wp_outcome. unfold cell36. wp_run. rewrite Hm. wp_run.
  rewrite Ho. wp_run. cbn [get_item nth_error]. wp_run.
  cbn [get_linear find_layer String.eqb Ascii.eqb Bool.eqb]. wp_run. reflexivity.
Qed.

(** What cells 30 and 34 leave in the session. *)
Lemma cell30_exec_model (w : world) (s : session) :
  exists l0 l2 l4,
    heap (exec (cell30 w) s) = heap s ++ [ObjSequential (cell30_model l0 l2 l4)] /\
    globals (exec (cell30 w) s) "model" = Some (PyModule (length (heap s))).
Proof.
  apply (wp_exec (cell30 w)
           (fun s' => exists l0 l2 l4,
              heap s' = heap s ++ [ObjSequential (cell30_model l0 l2 l4)] /\
              globals s' "model" = Some (PyModule (length (heap s))))).
  unfold cell30. wp_run. cbn [shape]. wp_run.
  match goal with
  | |- context [select0_all (resize_ ?u ?t [64; 1; 784]) 0] =>
      destruct (select0_all_resized u t 64 ltac:(lia)) as (arg & Harg & Sarg)
  end.
  rewrite Harg. wp_run. rewrite nth_error_snoc. wp_run.
  wp_all; (do 3 eexists; split; reflexivity).
Qed.

Lemma cell34_exec_model (w : world) (s : session) :
  exists l1 l2 l3,
    heap (exec (cell34 w) s) = heap s ++ [ObjSequential (cell34_model l1 l2 l3)] /\
    globals (exec (cell34 w) s) "model" = Some (PyModule (length (heap s))).
Proof.
  apply (wp_exec (cell34 w)
           (fun s' => exists l1 l2 l3,
              heap s' = heap s ++ [ObjSequential (cell34_model l1 l2 l3)] /\
              globals s' "model" = Some (PyModule (length (heap s))))).
  unfold cell34. wp_run. do 3 eexists. split; reflexivity.
Qed.

(** X16. Run from top to bottom, the notebook raises nothing of its own:
    each of the cells 5, 9, 11, 16, 21, 23, 25, 26, 32, 34 and 36 ends
    normally, and cells 28 and 30 end with whatever the plotting helper
    [helper.view_classify] does, which cell 28 calls with a (1, 28, 28) image
    and [None] for the probabilities, and cell 30 with a (1, 28, 28) image and
    a (1, 10) tensor. *)
Theorem notebook_runs_to_the_end (w : world) :
  (forall k c, nth_error (notebook w) k = Some c -> k <> 8 -> k <> 9 ->
     outcome c (session_after w k) = Ok tt) /\
  (exists v, shape v = [1; 28; 28] /\
     outcome (cell28 w) (session_after w 8) = view_classify w v PyNone) /\
  (exists v y, shape v = [1; 28; 28] /\ shape y = [1; 10] /\
     outcome (cell30 w) (session_after w 9) = view_classify w v (PyTensor y)).
Proof.
  destruct (notebook_trace w)
    as (o0 & m & f & o2 & o3 & y0 & Sm & _ & _ & _ & _ & _ & HH & HM).
  destruct (cell5_exec w (session_after w 0)) as (im & Him & Sim & _).
  rewrite <- (session_after_step w 0 _ eq_refl) in Him.
  destruct (cell9_exec w (session_after w 1) im Him Sim) as (out & Ho & So & Wo).
  rewrite <- (session_after_step w 1 _ eq_refl) in Ho.
  destruct (cell30_exec_model w (session_after w 9)) as (a0 & a2 & a4 & H10 & M10).
  rewrite <- (session_after_step w 9 _ eq_refl) in H10, M10.
  destruct (cell32_passive (session_after w 10)) as (H11 & _ & _).
  rewrite <- (session_after_step w 10 _ eq_refl) in H11.
  destruct (cell34_exec_model w (session_after w 11)) as (b1 & b2 & b3 & H12 & M12).
  rewrite <- (session_after_step w 11 _ eq_refl) in H12, M12.
  assert (N5 : nth_error (heap (session_after w 5)) 1 = Some (ObjNet m))
    by (rewrite HH; reflexivity).
  assert (N6 : nth_error (heap (session_after w 6)) 1 = Some (ObjNet m))
    by (rewrite HH; reflexivity).
  assert (N7 : nth_error (heap (session_after w 7)) 1 = Some (ObjNet (after_fill m)))
    by (rewrite HH; reflexivity).
  assert (N8 : nth_error (heap (session_after w 8)) 1
               = Some (ObjNet (after_normal f (after_fill m))))
    by (rewrite HH; reflexivity).
  assert (N10 : nth_error (heap (session_after w 10)) (length (heap (session_after w 9)))
                = Some (ObjSequential (cell30_model a0 a2 a4)))
    by (rewrite H10; apply nth_error_snoc).
  assert (N12 : nth_error (heap (session_after w 12)) (length (heap (session_after w 11)))
                = Some (ObjSequential (cell34_model b1 b2 b3)))
    by (rewrite H12; apply nth_error_snoc).
  split; [|split].
  - intros k c H Hk8 Hk9.
    destruct k as [|k]; [injection H as <-; apply cell5_outcome|].
    destruct k as [|k];
      [injection H as <-; apply (cell9_outcome w _ im Him Sim)|].
    destruct k as [|k];
      [injection H as <-; apply (cell11_outcome _ out Ho So Wo)|].
    destruct k as [|k]; [injection H as <-; apply cell16_outcome|].
    destruct k as [|k]; [injection H as <-; apply cell21_outcome|].
    destruct k as [|k];
      [injection H as <-; apply (cell23_outcome _ 1 m (HM 5 ltac:(lia)) N5)|].
    destruct k as [|k];
      [injection H as <-; apply (cell25_outcome _ 1 m (HM 6 ltac:(lia)) N6)|].
    destruct k as [|k];
      [injection H as <-; apply (cell26_outcome w _ 1 _ (HM 7 ltac:(lia)) N7)|].
    destruct k as [|k]; [lia|].
    destruct k as [|k]; [lia|].
    destruct k as [|k];
      [injection H as <-; apply (cell32_outcome _ _ _ _ _ M10 N10)|].
    destruct k as [|k]; [injection H as <-; apply cell34_outcome|].
    destruct k as [|k];
      [injection H as <-; apply (cell36_outcome _ _ _ _ M12 N12)|].
    destruct k; discriminate H.
  - apply (cell28_outcome w _ 1 _ (HM 8 ltac:(lia)) N8).
    now apply Net_sizes_after_normal, Net_sizes_after_fill.
  - apply cell30_outcome.
Qed.

Lemma notebook_runs_to_the_end_witness :
  outcome cell25 (session_after quiet_world 6) = Ok tt.
Proof.
  apply (proj1 (notebook_runs_to_the_end quiet_world) 6 cell25);
    [reflexivity | lia | lia].
Defined.

(** ** Cells run against another model than the one they were written for *)

(** X17. The initialisation cells 25 and 26 name the layer [model.fc1].
    Run while [model] is the [nn.Sequential] of cell 30, whose layers are
    called "0" to "5", each raises [AttributeError] and leaves the whole
    session, parameters and random generator included, as it was; cell 32,
    which indexes [model[0]], raises [TypeError] in the same way while
    [model] is a [Net]. *)
Theorem cells_on_the_wrong_model (w : world) (s : session) (id : nat) :
  globals s "model" = Some (PyModule id) ->
  (forall l0 l2 l4,
     nth_error (heap s) id = Some (ObjSequential (cell30_model l0 l2 l4)) ->
     outcome cell25 s = Err AttributeError /\ exec cell25 s = s /\
     outcome (cell26 w) s = Err AttributeError /\ exec (cell26 w) s = s) /\
  (forall m,
     nth_error (heap s) id = Some (ObjNet m) ->
     outcome cell32 s = Err TypeError /\ exec cell32 s = s).
Proof.
  intros Hm. split.
  - intros l0 l2 l4 Ho.
    assert (H25 : wp cell25 (fun s' r => r = Err AttributeError /\ s' = s) s).
    { unfold cell25. wp_run. rewrite Hm. wp_run. rewrite Ho. wp_run.
      cbn [get_linear cell30_model find_layer String.eqb Ascii.eqb Bool.eqb].
      split; reflexivity. }
    assert (H26 : wp (cell26 w) (fun s' r => r = Err AttributeError /\ s' = s) s).
    { unfold cell26. wp_run. rewrite Hm. wp_run. rewrite Ho. wp_run.
      cbn [get_linear cell30_model find_layer String.eqb Ascii.eqb Bool.eqb].
      split; reflexivity. }
    destruct H25 as (R25 & S25), H26 as (R26 & S26). auto.
  - intros m Ho.
    assert (H32 : wp cell32 (fun s' r => r = Err TypeError /\ s' = s) s).
    { unfold cell32. wp_run. rewrite Hm. wp_run. rewrite Ho. wp_run.
      cbn [get_item]. split; reflexivity. }
    destruct H32 as (R32 & S32). auto.
Qed.

Lemma cells_on_the_wrong_model_witness :
  outcome cell32 (session_after quiet_world 6) = Err TypeError /\
  exec cell32 (session_after quiet_world 6) = session_after quiet_world 6.
Proof.
  destruct (notebook_trace quiet_world)
    as (o0 & m & f & o2 & o3 & y0 & _ & _ & _ & _ & _ & _ & HH & HM).
  apply (proj2 (cells_on_the_wrong_model quiet_world (session_after quiet_world 6) 1
                  (HM 6 ltac:(lia))) m).
  rewrite HH. reflexivity.
Defined.

(** ** The distributions that the session holds *)

Lemma cell30_exec_ps (w : world) (s : session) :
  exists y,
    globals (exec (cell30 w) s) "ps" = Some (PyTensor y) /\ shape y = [1; 10] /\
    Rsum 10 (fun c => get y [0; c]) = 1%R /\
    forall c, c < 10 -> (0 < get y [0%nat; c] < 1)%R.
Proof.
  apply (wp_exec (cell30 w)
           (fun s' => exists y,
              globals s' "ps" = Some (PyTensor y) /\ shape y = [1; 10] /\
              Rsum 10 (fun c => get y [0; c]) = 1%R /\
              forall c, c < 10 -> (0 < get y [0%nat; c] < 1)%R)).
  unfold cell30. wp_run. cbn [shape]. wp_run.
  match goal with
  | |- context [select0_all (resize_ ?u ?t [64; 1; 784]) 0] =>
      destruct (select0_all_resized u t 64 ltac:(lia)) as (arg & Harg & Sarg)
  end.
  rewrite Harg. wp_run. rewrite nth_error_snoc. wp_run.
  cbn [obj_forward].
  match goal with
  | |- context [Sequential.forward
                  [(_, LLinear ?l0); _; (_, LLinear ?l2); _; (_, LLinear ?l4); _] arg] =>
      destruct (cell30_model_rows l0 l2 l4 arg 1 ltac:(repeat split) Sarg)
        as (y & Hy & Sy & Dy)
  end.
  unfold cell30_model in Hy. rewrite Hy.
  destruct (Dy 0 ltac:(lia)) as (Hsum & Hb).
  wp_all; (exists y; repeat split; try assumption; apply Hb; assumption).
Qed.

(** X18. In exact real arithmetic, what the session holds as probabilities
    are probability distributions: after cell 11, [probabilities] has sizes
    (64, 10) and each of its rows sums to 1 with entries strictly between 0
    and 1; after cell 30, [ps] is one such row of ten entries.  (The saved
    output, computed in float32, shows sums of 1.0000; there the sums are 1
    up to rounding and an entry can round to 0 or 1.) *)
Theorem session_holds_distributions (w : world) :
  (exists p,
     globals (session_after w 3) "probabilities" = Some (PyTensor p) /\
     shape p = [64; 10] /\
     forall i, i < 64 ->
       Rsum 10 (fun j => get p [i; j]) = 1%R /\
       forall j, j < 10 -> (0 < get p [i; j] < 1)%R) /\
  (exists y,
     globals (session_after w 10) "ps" = Some (PyTensor y) /\
     shape y = [1; 10] /\
     Rsum 10 (fun c => get y [0; c]) = 1%R /\
     forall c, c < 10 -> (0 < get y [0%nat; c] < 1)%R).
Proof.
  split.
  - destruct (cell5_exec w (session_after w 0)) as (im & Him & Sim & _).
    rewrite <- (session_after_step w 0 _ eq_refl) in Him.
    destruct (cell9_exec w (session_after w 1) im Him Sim) as (out & Ho & So & Wo).
    rewrite <- (session_after_step w 1 _ eq_refl) in Ho.
    destruct (cell11_exec (session_after w 2) out Ho So Wo) as (p & Hp & Hsm).
    rewrite <- (session_after_step w 2 _ eq_refl) in Hp.
    exists p. split; [exact Hp|].
    destruct (softmax_shape out p 64 10 So Wo Hsm) as (Sp & _).
    split; [exact Sp|]. intros i Hi. split.
    + rewrite (Rsum_ext 10 _ (fun j => (exp (get out [i; j])
                                        / Rsum 10 (fun c => exp (get out [i; c])))%R))
        by (intros j Hj; now apply (softmax_get out p 64 10 i j So Wo Hsm)).
      apply (exp_ratio_sum 10 (fun j => get out [i; j])). lia.
    + intros j Hj. rewrite (softmax_get out p 64 10 i j So Wo Hsm Hi Hj).
      apply (exp_ratio_bounds 10 (fun j => get out [i; j])); [lia | exact Hj].
  - destruct (cell30_exec_ps w (session_after w 9)) as (y & Hy & Sy & Hsum & Hb).
    rewrite <- (session_after_step w 9 _ eq_refl) in Hy.
    exists y. auto.
Qed.
